(** * The Louvre collection scraper: batch fetcher

    A shallow embedding of [scripts/scrap_all_infos_works_of_art.py]:
    the fetch worker with its retry wrapper, the per-batch fan-out
    through a semaphore, the batch writer and the two coordinators
    ([process_all_batches] and [resume_from_batch]).

    Python values are modelled as the script uses them: the parsed body
    of a response is a JSON value whose [null] is Python's [None]; the
    output directory is a finite map from file names to tables; awaited
    effects (the GET, [asyncio.sleep], the logger, the semaphore) are
    recorded, in order, in a trace. *)

From Stdlib Require Import ZArith List String Ascii Bool Lia.
From stdpp Require Import base option list gmap strings pretty sorting.
Import ListNotations.

Set Warnings "-register-all".
Local Open Scope string_scope.
Local Open Scope list_scope.
Local Open Scope Z_scope.

(** ** Configuration

    The module-level constants of the script, passed explicitly. *)

Record Config : Type := mkConfig {
  BATCH_SIZE : Z;
  MAX_CONCURRENT_REQUESTS : nat;
  REQUEST_TIMEOUT : Z
}.

(** The values the script assigns. *)
Definition script_config : Config :=
  {| BATCH_SIZE := 5000; MAX_CONCURRENT_REQUESTS := 50; REQUEST_TIMEOUT := 30 |}.

(** ** Python values *)

(** What [response.json()] can return.  [JNull] is Python's [None]. *)
Inductive json : Type :=
| JNull
| JBool (b : bool)
| JNum (z : Z)
| JStr (s : string)
| JArr (items : list json)
| JObj (fields : list (string * json)).

Definition PyNone : json := JNull.

(** [x is None] *)
Definition is_none (v : json) : bool :=
  match v with JNull => true | _ => false end.

(** [x is not None] *)
Definition is_not_none (v : json) : bool := negb (is_none v).

(** The exceptions of the script, with the classes the [except] clauses
    of [fetch] test.  [ServerTimeoutError] derives from both
    [aiohttp.ClientError] and [asyncio.TimeoutError]; [TypeError] is
    what [pd.json_normalize] raises on an item that is not a [dict].
    All of them derive from [Exception]; interpreter-level
    [BaseException]s (task cancellation, keyboard interrupt) are not
    responses of the network and are outside this model. *)
Inductive exn : Type :=
| TimeoutError
| ServerTimeoutError
| ClientError
| TypeError
| OtherException.

Definition isinstance_TimeoutError (e : exn) : bool :=
  match e with TimeoutError | ServerTimeoutError => true | _ => false end.

Definition isinstance_ClientError (e : exn) : bool :=
  match e with ServerTimeoutError | ClientError => true | _ => false end.

Definition isinstance_Exception (e : exn) : bool := true.

(** The result of evaluating a Python expression: a value, or a raised
    exception that travels up to the nearest handler. *)
Inductive raised (A : Type) : Type :=
| Returns (a : A)
| Raises (e : exn).
Arguments Returns {A} a.
Arguments Raises {A} e.

(** ** The network *)

(** What [await response.json()] does with the body. *)
Inductive body_outcome : Type :=
| BodyJson (v : json)
| BodyRaises (e : exn).

(** A response as [fetch] reads it: [response.status], the value of
    [response.headers.get('Content-Type')] ([None] when the header is
    absent) and the behaviour of [response.json()]. *)
Record response : Type := mkResponse {
  status : Z;
  content_type : option string;
  body : body_outcome
}.

(** What [session.get(url, timeout=...)] does. *)
Inductive get_outcome : Type :=
| GetRaises (e : exn)
| GetResponds (r : response).

(** The session: the outcome of the [k]-th request of the run to [url]. *)
Definition Session : Type := string -> nat -> get_outcome.

(** ** Logging *)

Inductive log_level : Type := DEBUG | INFO | WARNING | ERROR.

(** One constructor per message template of the script. *)
Inductive log_message : Type :=
| NonStatusResponse (url : string) (status : Z)
| NonJsonResponse (url : string)
| TimeoutFor (url : string)
| RequestFailed (url : string) (e : exn)
| UnexpectedError (url : string) (e : exn)
| RetryAfter (attempt retries : Z) (url : string) (wait_time : Z)
| FailedAfterRetries (retries : Z) (url : string)
| BatchFetching (batch_number : Z) (n : nat)
| BatchStats (batch_number : Z) (successful failed : Z)
| BatchNoData (batch_number : Z)
| BatchAllFailed (batch_number : Z)
| BatchSaved (batch_number : Z) (n_rows : nat) (batch_file : string)
| ProcessingUrls (total_urls num_batches batch_size : Z)
| StartingBatch (batch_number num_batches start_idx end_idx : Z)
| Pausing
| ResumingFrom (start_batch num_batches : Z)
| BatchExists (batch_number : Z)
| ProcessingBatch (batch_number num_batches start_idx end_idx : Z).

(** ** Effects *)

Inductive event : Type :=
| EAcquire                      (* [semaphore.__aenter__] *)
| ERelease                      (* [semaphore.__aexit__] *)
| EGet (url : string)           (* [session.get(url, ...)] *)
| ESleep (seconds : Z)          (* [asyncio.sleep(seconds)] *)
| ELog (level : log_level) (msg : log_message).

(** A table: one row per document ([pd.json_normalize] flattens each
    document into one row; the flattening into columns is not modelled). *)
Record DataFrame : Type := mkDataFrame { rows : list json }.

(** [isinstance(v, dict)] *)
Definition is_dict (v : json) : bool :=
  match v with JObj _ => true | _ => false end.

(** The state the script acts on: the number of requests issued so far,
    the content of [OUTPUT_DIR] keyed by file name, and the trace of
    effects, oldest first. *)
Record World : Type := mkWorld {
  calls : nat;
  files : gmap string DataFrame;
  trace : list event
}.

(** State and exception monad of the script's coroutines. *)
Definition M (A : Type) : Type := World -> raised A * World.

Definition ret {A} (a : A) : M A := fun w => (Returns a, w).

Definition raise {A} (e : exn) : M A := fun w => (Raises e, w).

Definition bind {A B} (m : M A) (k : A -> M B) : M B :=
  fun w =>
    match m w with
    | (Returns a, w') => k a w'
    | (Raises e, w') => (Raises e, w')
    end.

Notation "'do' x <- m ; k" := (bind m (fun x => k))
  (at level 10, x name, m at level 100, k at level 200).
Notation "'run' m ; k" := (bind m (fun _ => k))
  (at level 10, m at level 100, k at level 200).

Definition emit (e : event) : M unit :=
  fun w => (Returns tt, mkWorld (calls w) (files w) (trace w ++ [e])).

Definition logger (level : log_level) (msg : log_message) : M unit :=
  emit (ELog level msg).

Definition sleep (seconds : Z) : M unit := emit (ESleep seconds).

(** [try: body  except ...: handler]: [handler e] is [None] when no
    clause matches [e], which then keeps travelling up. *)
Definition try_except {A} (body : M A) (handler : exn -> option (M A)) : M A :=
  fun w =>
    match body w with
    | (Returns a, w') => (Returns a, w')
    | (Raises e, w') =>
        match handler e with
        | Some h => h w'
        | None => (Raises e, w')
        end
    end.

(** [async with semaphore: body]: the permit is given back on every exit
    from the block, by value or by exception. *)
Definition async_with_semaphore {A} (body : M A) : M A :=
  fun w =>
    match (run emit EAcquire; body) w with
    | (r, w') => (r, snd (emit ERelease w'))
    end.

(** [session.get(url, timeout=timeout)] *)
Definition session_get (session : Session) (url : string) : M response :=
  fun w =>
    let w' := mkWorld (S (calls w)) (files w) (trace w ++ [EGet url]) in
    match session url (calls w) with
    | GetRaises e => (Raises e, w')
    | GetResponds r => (Returns r, w')
    end.

(** [await response.json()] *)
Definition response_json (r : response) : M json :=
  match body r with
  | BodyJson v => ret v
  | BodyRaises e => raise e
  end.

(** [needle in hay] on strings *)
Fixpoint str_contains (needle hay : string) : bool :=
  String.prefix needle hay ||
  match hay with
  | EmptyString => false
  | String _ hay' => str_contains needle hay'
  end.

(** [response.headers.get('Content-Type', '')] *)
Definition headers_get_content_type (r : response) : string :=
  match content_type r with
  | Some s => s
  | None => ""
  end.

(** ** [fetch] *)

(** The [except] clauses of [fetch], tried in order. *)
Definition fetch_handlers (url : string) (e : exn) : option (M json) :=
  if isinstance_TimeoutError e then
    Some (run logger ERROR (TimeoutFor url); ret PyNone)
  else if isinstance_ClientError e then
    Some (run logger ERROR (RequestFailed url e); ret PyNone)
  else if isinstance_Exception e then
    Some (run logger ERROR (UnexpectedError url e); ret PyNone)
  else None.

(** [fetch(session, url, semaphore)].  The semaphore is not a value
    here: taking and giving back its permit are recorded in the trace,
    and its counter is the [permits] of the event-loop machine below. *)
Definition fetch (session : Session) (url : string) : M json :=
  async_with_semaphore
    (try_except
       (do response <- session_get session url;
        if negb (status response =? 200) then
          run logger WARNING (NonStatusResponse url (status response));
          ret PyNone
        else if negb (str_contains "application/json"
                        (headers_get_content_type response)) then
          run logger WARNING (NonJsonResponse url);
          ret PyNone
        else response_json response)
       (fetch_handlers url)).

(** ** [fetch_with_retry] *)

(** The [for attempt in range(retries)] loop, from iteration [attempt]
    with [n] iterations left. *)
Fixpoint retry_loop (session : Session) (url : string) (retries : Z)
    (n : nat) (attempt : Z) : M json :=
  match n with
  | O =>
      run logger ERROR (FailedAfterRetries retries url);
      ret PyNone
  | S n' =>
      do result <- fetch session url;
      if is_not_none result then ret result
      else
        run (if attempt <? retries - 1 then
               run logger DEBUG
                     (RetryAfter (attempt + 1) retries url (2 ^ attempt));
               sleep (2 ^ attempt)
             else ret tt);
        retry_loop session url retries n' (attempt + 1)
  end.

(** [fetch_with_retry(session, url, semaphore, retries=3)] *)
Definition fetch_with_retry (session : Session) (url : string)
    (retries : Z) : M json :=
  retry_loop session url retries (Z.to_nat retries) 0.

(** ** [fetch_batch] *)

(** [f"https://collections.louvre.fr{url}.json"] *)
Definition full_url (url : string) : string :=
  "https://collections.louvre.fr" +:+ url +:+ ".json".

(** [await asyncio.gather] of the tasks under the schedule that runs the
    coroutines to completion one after the other; the result list is in
    the order of [tasks].  The interleavings of the event loop are the
    subject of the [pool] machine below. *)
Fixpoint gather {A} (tasks : list (M A)) : M (list A) :=
  match tasks with
  | [] => ret []
  | t :: tasks' =>
      do r <- t;
      do rs <- gather tasks';
      ret (r :: rs)
  end.

(** [sum(1 for r in results if r is not None)] *)
Definition count_not_none (results : list json) : Z :=
  Z.of_nat (length (List.filter is_not_none results)).

Definition fetch_batch (session : Session) (urls : list string)
    (batch_number : Z) : M (list json) :=
  let tasks :=
    map (fun url => fetch_with_retry session (full_url url) 3) urls in
  run logger INFO (BatchFetching batch_number (length tasks));
  do results <- gather tasks;
  let successful := count_not_none results in
  let failed := Z.of_nat (length results) - successful in
  run logger INFO (BatchStats batch_number successful failed);
  ret results.

(** ** [save_batch] *)

(** [s.zfill(width)] for a string of digits *)
Definition zfill (width : nat) (s : string) : string :=
  string_of_list_ascii
    (replicate (width - String.length s) "0"%char) +:+ s.

(** [f"{n:04d}"]: the sign counts in the width. *)
Definition format_04d (n : Z) : string :=
  if n <? 0 then "-" +:+ zfill 3 (pretty (Z.to_N (- n)))
  else zfill 4 (pretty (Z.to_N n)).

(** [OUTPUT_DIR / f"batch_{batch_number:04d}.csv"], as a key of [files] *)
Definition batch_file_name (batch_number : Z) : string :=
  "batch_" +:+ format_04d batch_number +:+ ".csv".

(** [pd.json_normalize(filtered_data)] on a list: every item has to be
    a [dict], and an item that is not one -- a string, a number, a
    list -- raises [TypeError]; each document becomes one row. *)
Definition json_normalize (docs : list json) : M DataFrame :=
  if forallb is_dict docs then ret (mkDataFrame docs) else raise TypeError.

(** [df.to_csv(batch_file, ...)]: creates the file or replaces its
    content. *)
Definition to_csv (df : DataFrame) (batch_file : string) : M unit :=
  fun w =>
    (Returns tt, mkWorld (calls w) (<[batch_file := df]> (files w)) (trace w)).

(** [batch_file.exists()] *)
Definition file_exists (batch_file : string) : M bool :=
  fun w => (Returns (bool_decide (is_Some (files w !! batch_file))), w).

(** [not data] on a list *)
Definition py_not {A} (l : list A) : bool :=
  match l with [] => true | _ => false end.

Definition save_batch (data : list json) (batch_number : Z)
    : M (option DataFrame) :=
  if py_not data then
    run logger WARNING (BatchNoData batch_number);
    ret None
  else
    let filtered_data := List.filter is_not_none data in
    if py_not filtered_data then
      run logger WARNING (BatchAllFailed batch_number);
      ret None
    else
      do df <- json_normalize filtered_data;
      let batch_file := batch_file_name batch_number in
      run to_csv df batch_file;
      run logger INFO (BatchSaved batch_number (length (rows df)) batch_file);
      ret (Some df).

(** Reading the sequence number back from the name of an artifact. *)

Definition digit_of (c : ascii) : option N :=
  let n := N_of_ascii c in
  if ((48 <=? n) && (n <=? 57))%N then Some (n - 48)%N else None.

(** The number written by the leading decimal digits of [s], after
    [acc]. *)
Fixpoint read_digits (s : string) (acc : N) : N :=
  match s with
  | EmptyString => acc
  | String c s' =>
      match digit_of c with
      | Some d => read_digits s' (10 * acc + d)%N
      | None => acc
      end
  end.

Definition read_int (s : string) : Z :=
  match s with
  | EmptyString => 0
  | String c s' =>
      if Ascii.eqb c "-" then - Z.of_N (read_digits s' 0)
      else Z.of_N (read_digits s 0)
  end.

Fixpoint string_drop (n : nat) (s : string) : string :=
  match n, s with
  | O, _ => s
  | S n', String _ s' => string_drop n' s'
  | S _, EmptyString => EmptyString
  end.

Definition read_batch_number (batch_file : string) : Z :=
  read_int (string_drop 6 batch_file).

(** ** The coordinators *)

(** [list(range(lo, hi))] *)
Definition py_range (lo hi : Z) : list Z :=
  map (fun k => lo + Z.of_nat k) (seq 0 (Z.to_nat (hi - lo))).

(** [l[start:stop]]: negative indices count from the end, both ends are
    clipped to the list. *)
Definition py_slice {A} (l : list A) (start stop : Z) : list A :=
  let len := Z.of_nat (length l) in
  let clip i := if i <? 0 then Z.max 0 (len + i) else Z.min i len in
  take (Z.to_nat (clip stop - clip start)) (drop (Z.to_nat (clip start)) l).

(** [for x in l: body], threading the variables the body assigns. *)
Fixpoint for_each {A S} (l : list A) (body : A -> S -> M S) (s : S) : M S :=
  match l with
  | [] => ret s
  | x :: l' =>
      do s' <- body x s;
      for_each l' body s'
  end.

(** [(total_urls + BATCH_SIZE - 1) // BATCH_SIZE].  Floor division, as
    [Z.div]; Python raises [ZeroDivisionError] for a batch size of zero,
    which the properties of the coordinators exclude. *)
Definition num_batches_of (cfg : Config) (total_urls : Z) : Z :=
  (total_urls + BATCH_SIZE cfg - 1) / BATCH_SIZE cfg.

(** [i * BATCH_SIZE] *)
Definition start_idx_of (cfg : Config) (i : Z) : Z := i * BATCH_SIZE cfg.

(** [min((i + 1) * BATCH_SIZE, total_urls)] *)
Definition end_idx_of (cfg : Config) (total_urls i : Z) : Z :=
  Z.min ((i + 1) * BATCH_SIZE cfg) total_urls.

(** [df_urls['url'][start_idx:end_idx]] *)
Definition batch_urls_of (cfg : Config) (df_urls : list string) (i : Z)
    : list string :=
  py_slice df_urls (start_idx_of cfg i)
    (end_idx_of cfg (Z.of_nat (length df_urls)) i).

(** One iteration of the loop of [process_all_batches]. *)
Definition process_all_batches_body (cfg : Config) (session : Session)
    (df_urls : list string) (num_batches : Z) (i : Z)
    (all_dataframes : list DataFrame) : M (list DataFrame) :=
  let total_urls := Z.of_nat (length df_urls) in
  let start_idx := start_idx_of cfg i in
  let end_idx := end_idx_of cfg total_urls i in
  let batch_number := i + 1 in
  run logger INFO (StartingBatch batch_number num_batches start_idx end_idx);
  let batch_urls := batch_urls_of cfg df_urls i in
  do data <- fetch_batch session batch_urls batch_number;
  do df_batch <- save_batch data batch_number;
  let all_dataframes :=
    match df_batch with
    | Some df => all_dataframes ++ [df]
    | None => all_dataframes
    end in
  run (if i <? num_batches - 1 then
         run logger INFO Pausing;
         sleep 5
       else ret tt);
  ret all_dataframes.

Definition process_all_batches (cfg : Config) (session : Session)
    (df_urls : list string) : M (list DataFrame) :=
  let total_urls := Z.of_nat (length df_urls) in
  let num_batches := num_batches_of cfg total_urls in
  run logger INFO (ProcessingUrls total_urls num_batches (BATCH_SIZE cfg));
  for_each (py_range 0 num_batches)
    (process_all_batches_body cfg session df_urls num_batches) [].

(** One iteration of the loop of [resume_from_batch]; the [continue] of
    the source ends the iteration. *)
Definition resume_from_batch_body (cfg : Config) (session : Session)
    (df_urls : list string) (num_batches : Z) (i : Z) (_ : unit) : M unit :=
  let total_urls := Z.of_nat (length df_urls) in
  let start_idx := start_idx_of cfg i in
  let end_idx := end_idx_of cfg total_urls i in
  let batch_number := i + 1 in
  let batch_file := batch_file_name batch_number in
  do known <- file_exists batch_file;
  if known then
    logger INFO (BatchExists batch_number)
  else
    run logger INFO (ProcessingBatch batch_number num_batches start_idx end_idx);
    let batch_urls := batch_urls_of cfg df_urls i in
    do data <- fetch_batch session batch_urls batch_number;
    run save_batch data batch_number;
    if i <? num_batches - 1 then sleep 5 else ret tt.

Definition resume_from_batch (cfg : Config) (session : Session)
    (df_urls : list string) (start_batch : Z) : M unit :=
  let total_urls := Z.of_nat (length df_urls) in
  let num_batches := num_batches_of cfg total_urls in
  run logger INFO (ResumingFrom start_batch num_batches);
  for_each (py_range (start_batch - 1) num_batches)
    (resume_from_batch_body cfg session df_urls num_batches) tt.

(** ** The event loop: the tasks of one [fetch_batch], interleaved

    [asyncio.gather] runs the [fetch_with_retry] coroutines of a batch
    concurrently on one event loop.  A coroutine only gives up control
    at an [await]: waiting for a permit, waiting for the response, and
    sleeping.  Each task is therefore a small machine over the states
    below, and the loop picks any task that can move. *)

(** [fetch] on a session that answers [o]: what it returns and the
    effects it records. *)
Definition fetch_result (url : string) (o : get_outcome) : raised json :=
  fst (fetch (fun _ _ => o) url (mkWorld 0 ∅ [])).

Definition fetch_events (url : string) (o : get_outcome) : list event :=
  trace (snd (fetch (fun _ _ => o) url (mkWorld 0 ∅ []))).

(** Where a [fetch_with_retry] coroutine is suspended, with the loop
    variable [attempt] and the number [n] of iterations of
    [range(retries)] not yet started. *)
Inductive task_state : Type :=
| Waiting (n : nat) (attempt : Z)     (* before [async with semaphore] *)
| InFlight (n : nat) (attempt : Z)    (* permit held, request issued *)
| Sleeping (n : nat) (attempt : Z)    (* in [asyncio.sleep(2 ** attempt)] *)
| Finished (result : json)            (* returned *)
| Crashed (e : exn).                  (* raised *)

(** A task: the URL it was created for, its state, and the outcomes its
    requests have received so far (oldest first). *)
Record task : Type := mkTask {
  task_url : string;
  task_st : task_state;
  task_seen : list get_outcome
}.

(** The state a task resumes in after [fetch] has returned or raised. *)
Definition after_fetch (retries : Z) (n : nat) (attempt : Z)
    (r : raised json) : task_state :=
  match r with
  | Raises e => Crashed e
  | Returns result =>
      if is_not_none result then Finished result
      else if attempt <? retries - 1 then Sleeping n attempt
      else Waiting n (attempt + 1)
  end.

(** The effects recorded between the return of [fetch] and the next
    suspension. *)
Definition after_fetch_events (retries : Z) (url : string) (attempt : Z)
    (r : raised json) : list event :=
  match r with
  | Raises e => []
  | Returns result =>
      if is_not_none result then []
      else if attempt <? retries - 1 then
        [ELog DEBUG (RetryAfter (attempt + 1) retries url (2 ^ attempt));
         ESleep (2 ^ attempt)]
      else []
  end.

(** One move of one task, with the permits of the semaphore before and
    after it.  [asyncio.Semaphore.acquire] only proceeds when the
    counter is positive. *)
Inductive task_step (retries : Z)
    : nat * task -> list event -> nat * task -> Prop :=
| step_exhausted url seen attempt permits :
    task_step retries
      (permits, mkTask url (Waiting 0 attempt) seen)
      [ELog ERROR (FailedAfterRetries retries url)]
      (permits, mkTask url (Finished PyNone) seen)
| step_acquire url seen n attempt permits :
    task_step retries
      (S permits, mkTask url (Waiting (S n) attempt) seen)
      [EAcquire; EGet url]
      (permits, mkTask url (InFlight n attempt) seen)
| step_response url seen n attempt permits o :
    task_step retries
      (permits, mkTask url (InFlight n attempt) seen)
      (List.skipn 2 (fetch_events url o) ++
       after_fetch_events retries url attempt (fetch_result url o))
      (S permits,
       mkTask url (after_fetch retries n attempt (fetch_result url o))
         (seen ++ [o]))
| step_wake url seen n attempt permits :
    task_step retries
      (permits, mkTask url (Sleeping n attempt) seen)
      []
      (permits, mkTask url (Waiting n (attempt + 1)) seen).

(** The semaphore, the tasks in the order they were handed to
    [asyncio.gather], and the effects recorded so far, each with the
    position of the task that caused it. *)
Record pool : Type := mkPool {
  permits : nat;
  tasks : list task;
  pool_trace : list (nat * event)
}.

Inductive pool_step (retries : Z) : pool -> pool -> Prop :=
| pool_step_task P i t evs permits' t' :
    tasks P !! i = Some t ->
    task_step retries (permits P, t) evs (permits', t') ->
    pool_step retries P
      (mkPool permits' (<[i := t']> (tasks P))
         (pool_trace P ++ map (pair i) evs)).

(** The pool [fetch_batch] starts: a fresh semaphore and one task per
    URL, at the head of its loop. *)
Definition init_pool (capacity : nat) (retries : Z) (urls : list string)
    : pool :=
  mkPool capacity
    (map (fun url => mkTask (full_url url) (Waiting (Z.to_nat retries) 0) [])
       urls)
    [].

Definition reachable (capacity : nat) (retries : Z) (urls : list string)
    (P : pool) : Prop :=
  rtc (pool_step retries) (init_pool capacity retries urls) P.

Definition task_result (t : task) : option json :=
  match task_st t with
  | Finished result => Some result
  | _ => None
  end.

(** What [await asyncio.gather] returns once every task has returned:
    the results in the order of the tasks. *)
Definition gather_results (P : pool) : option (list json) :=
  mapM task_result (tasks P).

Definition is_in_flight (t : task) : bool :=
  match task_st t with InFlight _ _ => true | _ => false end.

Definition is_sleeping (t : task) : bool :=
  match task_st t with Sleeping _ _ => true | _ => false end.

(** The number of tasks with a request on the wire. *)
Definition in_flight (P : pool) : nat :=
  length (List.filter is_in_flight (tasks P)).

(** The permits task [i] holds according to the recorded effects:
    acquisitions minus releases. *)
Fixpoint held_by (i : nat) (tr : list (nat * event)) : Z :=
  match tr with
  | [] => 0
  | (j, EAcquire) :: tr' => (if (i =? j)%nat then 1 else 0) + held_by i tr'
  | (j, ERelease) :: tr' => (if (i =? j)%nat then -1 else 0) + held_by i tr'
  | _ :: tr' => held_by i tr'
  end.

(** The permits held by all tasks together. *)
Fixpoint held (tr : list (nat * event)) : Z :=
  match tr with
  | [] => 0
  | (_, EAcquire) :: tr' => 1 + held tr'
  | (_, ERelease) :: tr' => -1 + held tr'
  | _ :: tr' => held tr'
  end.

(** ** Reading a trace *)

Definition is_get (e : event) : bool :=
  match e with EGet _ => true | _ => false end.

Definition is_sleep (e : event) : bool :=
  match e with ESleep _ => true | _ => false end.

Definition is_cooldown (e : event) : bool :=
  match e with ESleep s => s =? 5 | _ => false end.

(** The requests and the sleeps of a trace, in order. *)
Definition network_and_sleeps (tr : list event) : list event :=
  List.filter (fun e => is_get e || is_sleep e) tr.

Definition gets (tr : list event) : list event := List.filter is_get tr.

Definition sleeps (tr : list event) : list Z :=
  omap (fun e => match e with ESleep s => Some s | _ => None end) tr.

Definition cooldowns (tr : list event) : nat :=
  length (List.filter is_cooldown tr).

(** The record with which a coordinator opens batch [n]: the batch is
    started, processed after a resume, or found on disk and skipped. *)
Definition batch_marker (e : event) : option Z :=
  match e with
  | ELog _ (StartingBatch n _ _ _) => Some n
  | ELog _ (ProcessingBatch n _ _ _) => Some n
  | ELog _ (BatchExists n) => Some n
  | _ => None
  end.

Definition is_marker (e : event) : bool :=
  match batch_marker e with Some _ => true | None => false end.

(** Effects that neither open a batch nor are a cooldown. *)
Definition quiet (e : event) : bool :=
  negb (is_marker e) && negb (is_cooldown e).

(** The batches a run of [process_all_batches] starts: sequence number
    and range. *)
Definition started_batches (tr : list event) : list (Z * Z * Z) :=
  omap (fun e => match e with
                 | ELog _ (StartingBatch n _ start_idx end_idx) =>
                     Some (n, start_idx, end_idx)
                 | _ => None
                 end) tr.

(** The cooldowns between the start of a trace and its first marker. *)
Fixpoint cooldowns_until_marker (tr : list event) : nat :=
  match tr with
  | [] => 0
  | e :: tr' =>
      if is_marker e then 0%nat
      else ((if is_cooldown e then 1 else 0) + cooldowns_until_marker tr')%nat
  end.

(** A trace is paced according to [expected] when every marker [e] with
    [expected e = Some k] is followed by exactly [k] cooldowns before
    the next marker (or the end of the run). *)
Fixpoint paced (expected : event -> option nat) (tr : list event) : bool :=
  match tr with
  | [] => true
  | e :: tr' =>
      match expected e with
      | Some k => (cooldowns_until_marker tr' =? k)%nat && paced expected tr'
      | None => paced expected tr'
      end
  end.

(** The pacing of the design document: one cooldown after every batch,
    "whether Persisted or Skipped", except the final one. *)
Definition spec_pacing (num_batches : Z) (e : event) : option nat :=
  match batch_marker e with
  | Some n => Some (if n <? num_batches then 1%nat else 0%nat)
  | None => None
  end.

(** The pacing of the script: as above for a batch that is fetched, no
    cooldown after a batch that is skipped. *)
Definition script_pacing (num_batches : Z) (e : event) : option nat :=
  match e with
  | ELog _ (BatchExists _) => Some 0%nat
  | _ => spec_pacing num_batches e
  end.

(** The effects recorded between two states of the world. *)
Definition events_since (w w' : World) : list event :=
  drop (length (trace w)) (trace w').

(** ** The outcome taxonomy of the design document

    The document describes [fetch] as returning a tagged outcome; these
    definitions follow its words, to be compared with [fetch]. *)

Inductive failure_reason : Type :=
| Timeout | HTTPError | ContentTypeMismatch | TransportError.

Inductive FetchOutcome : Type :=
| Success (payload : json)
| Failure (reason : failure_reason).

Definition spec_reason_of_exn (e : exn) : failure_reason :=
  if isinstance_TimeoutError e then Timeout else TransportError.

(** "non-success status code -> Failure(HTTPError); success status but
    content-type is not the expected type -> Failure(ContentTypeMismatch);
    timeout -> Failure(Timeout); any transport-level exception ->
    Failure(TransportError); otherwise Success", with HTTPError being
    "non-2xx". *)
Definition spec_fetch_outcome (o : get_outcome) : FetchOutcome :=
  match o with
  | GetRaises e => Failure (spec_reason_of_exn e)
  | GetResponds r =>
      if negb ((200 <=? status r) && (status r <? 300)) then
        Failure HTTPError
      else if negb (str_contains "application/json"
                      (headers_get_content_type r)) then
        Failure ContentTypeMismatch
      else
        match body r with
        | BodyJson v => Success v
        | BodyRaises e => Failure (spec_reason_of_exn e)
        end
  end.

(** The reason a log record of [fetch] names. *)
Definition reason_of_event (e : event) : option failure_reason :=
  match e with
  | ELog _ (NonStatusResponse _ _) => Some HTTPError
  | ELog _ (NonJsonResponse _) => Some ContentTypeMismatch
  | ELog _ (TimeoutFor _) => Some Timeout
  | ELog _ (RequestFailed _ _) => Some TransportError
  | ELog _ (UnexpectedError _ _) => Some TransportError
  | _ => None
  end.

(** The outcome of [fetch] as its caller and its log together show it:
    the reason of the failure record when there is one, the returned
    document otherwise. *)
Definition observed_outcome (url : string) (o : get_outcome)
    : option FetchOutcome :=
  match fetch_result url o with
  | Raises _ => None
  | Returns v =>
      match omap reason_of_event (fetch_events url o) with
      | reason :: _ => Some (Failure reason)
      | [] => Some (Success v)
      end
  end.

(** The exception raised inside the [try] block of [fetch]: by the
    request itself or, once the status and the content type have been
    accepted, by reading the body. *)
Definition raised_in_try (o : get_outcome) : option exn :=
  match o with
  | GetRaises e => Some e
  | GetResponds r =>
      if (status r =? 200) &&
         str_contains "application/json" (headers_get_content_type r)
      then match body r with
           | BodyRaises e => Some e
           | BodyJson _ => None
           end
      else None
  end.

(** What the [k]-th request issued from state [w] makes [fetch] return. *)
Definition attempt_outcome (session : Session) (url : string) (w : World)
    (k : nat) : raised json :=
  fetch_result url (session url (calls w + k)%nat).

(** ** Running the event loop

    An executable scheduler: a schedule names, move after move, the task
    the loop resumes and the answer its request receives if it is
    waiting for one. *)

Definition task_move (retries : Z) (permits : nat) (t : task)
    (o : get_outcome) : option (list event * nat * task) :=
  let url := task_url t in
  match task_st t with
  | Waiting O attempt =>
      Some ([ELog ERROR (FailedAfterRetries retries url)], permits,
            mkTask url (Finished PyNone) (task_seen t))
  | Waiting (S n) attempt =>
      match permits with
      | O => None
      | S permits' =>
          Some ([EAcquire; EGet url], permits',
                mkTask url (InFlight n attempt) (task_seen t))
      end
  | InFlight n attempt =>
      Some (List.skipn 2 (fetch_events url o) ++
            after_fetch_events retries url attempt (fetch_result url o),
            S permits,
            mkTask url (after_fetch retries n attempt (fetch_result url o))
              (task_seen t ++ [o]))
  | Sleeping n attempt =>
      Some ([], permits, mkTask url (Waiting n (attempt + 1)) (task_seen t))
  | Finished _ | Crashed _ => None
  end.

Definition pool_move (retries : Z) (P : pool) (i : nat) (o : get_outcome)
    : option pool :=
  match tasks P !! i with
  | None => None
  | Some t =>
      match task_move retries (permits P) t o with
      | None => None
      | Some (evs, permits', t') =>
          Some (mkPool permits' (<[i := t']> (tasks P))
                  (pool_trace P ++ map (pair i) evs))
      end
  end.

Fixpoint run_schedule (retries : Z) (schedule : list (nat * get_outcome))
    (P : pool) : option pool :=
  match schedule with
  | [] => Some P
  | (i, o) :: schedule' =>
      match pool_move retries P i o with
      | None => None
      | Some P' => run_schedule retries schedule' P'
      end
  end.

(** ** Invariants of the event loop *)

(** The permits a task holds: one while its request is on the wire. *)
Definition holds_permit (t : task) : Z :=
  if is_in_flight t then 1 else 0.

(** Acquisitions minus releases in a list of effects. *)
Fixpoint net_acquired (evs : list event) : Z :=
  match evs with
  | [] => 0
  | EAcquire :: evs' => 1 + net_acquired evs'
  | ERelease :: evs' => -1 + net_acquired evs'
  | _ :: evs' => net_acquired evs'
  end.

Definition answers_none (url : string) (o : get_outcome) : Prop :=
  fetch_result url o = Returns PyNone.

(** How the state of a task follows from the answers it has received:
    while it runs, every answer so far made [fetch] return [None]; when
    it has finished, its result is what [fetch] returned for the last
    answer, the earlier ones having given [None] -- or it is [None]
    after answers that all gave [None]. *)
Definition task_consistent (t : task) : Prop :=
  match task_st t with
  | Waiting _ _ | InFlight _ _ | Sleeping _ _ =>
      Forall (answers_none (task_url t)) (task_seen t)
  | Finished result =>
      (result = PyNone /\ Forall (answers_none (task_url t)) (task_seen t)) \/
      (exists seen o,
         task_seen t = seen ++ [o] /\
         Forall (answers_none (task_url t)) seen /\
         fetch_result (task_url t) o = Returns result /\
         is_not_none result = true)
  | Crashed _ => False
  end.

(** The requests task [i] has issued according to the recorded effects. *)
Definition requests_of (i : nat) (tr : list (nat * event)) : list string :=
  omap (fun ie => match ie with
                  | (j, EGet url) => if (i =? j)%nat then Some url else None
                  | _ => None
                  end) tr.

Definition is_acquire (e : event) : bool :=
  match e with EAcquire => true | _ => false end.

Definition is_release (e : event) : bool :=
  match e with ERelease => true | _ => false end.

(** The number of effects of kind [p] that task [i] has caused. *)
Definition count_of (i : nat) (p : event -> bool) (tr : list (nat * event))
    : nat :=
  length (List.filter (fun ie => (i =? fst ie)%nat && p (snd ie)) tr).

Record pool_inv (capacity : nat) (urls : list string) (P : pool) : Prop :=
  mkPoolInv {
    inv_permits : (permits P + in_flight P)%nat = capacity;
    inv_held : held (pool_trace P) = Z.of_nat (in_flight P);
    inv_held_by :
      forall i t, tasks P !! i = Some t ->
                  held_by i (pool_trace P) = holds_permit t;
    inv_urls : map task_url (tasks P) = map full_url urls;
    inv_requests :
      forall i t, tasks P !! i = Some t ->
                  Forall (fun url => url = task_url t)
                    (requests_of i (pool_trace P));
    inv_counts :
      forall i t, tasks P !! i = Some t ->
                  count_of i is_acquire (pool_trace P) =
                    count_of i is_get (pool_trace P) /\
                  count_of i is_release (pool_trace P) =
                    length (task_seen t) /\
                  Z.of_nat (count_of i is_get (pool_trace P)) =
                    Z.of_nat (length (task_seen t)) + holds_permit t;
    inv_consistent : Forall task_consistent (tasks P)
  }.

(** The identifiers of a batch whose result is not [None], each with
    its result, in the order of the batch. *)
Definition successes (urls : list string) (results : list json)
    : list (string * json) :=
  List.filter (fun p => is_not_none (snd p)) (zip urls results).

(** The time slept in a trace. *)
Definition total_sleep (tr : list event) : Z :=
  fold_right Z.add 0 (sleeps tr).

(** The requests a task issues when it asks [k] times for [url]. *)
Definition requests_for (url : string) (k : nat) : list event :=
  replicate k (EGet (full_url url)).

(** Whether [save_batch] gets through [data]: every result other than
    [None] is a [dict], so that [pd.json_normalize] does not raise. *)
Definition savable (data : list json) : bool :=
  forallb is_dict (List.filter is_not_none data).

(** A server whose JSON bodies are documents (or [null]): whatever
    [fetch] returns for one of its answers is [None] or a [dict]. *)
Definition serves_documents (session : Session) : Prop :=
  forall url k v,
    fetch_result url (session url k) = Returns v ->
    is_none v || is_dict v = true.

(** The table [save_batch] writes for the results of a batch: none when
    no result is left after the [None]s are dropped, and none when one
    of those left is not a [dict]. *)
Definition table_of (data : list json) : option DataFrame :=
  let filtered_data := List.filter is_not_none data in
  if py_not filtered_data then None
  else if forallb is_dict filtered_data then Some (mkDataFrame filtered_data)
  else None.

(** The output directory after [save_batch] has handled [data] as batch
    [batch_number]. *)
Definition write_table (fs : gmap string DataFrame) (batch_number : Z)
    (data : list json) : gmap string DataFrame :=
  match table_of data with
  | Some df => <[batch_file_name batch_number := df]> fs
  | None => fs
  end.

(** The output directory after the batches [batches], each an index of
    the loop with the results fetched for it, have been saved in turn. *)
Definition write_tables (fs : gmap string DataFrame)
    (batches : list (Z * list json)) : gmap string DataFrame :=
  fold_left (fun fs b => write_table fs (fst b + 1) (snd b)) batches fs.

(** The batches a run of [resume_from_batch] skips and the batches it
    fetches, by sequence number, as its log tells. *)
Definition skipped_batches (tr : list event) : list Z :=
  omap (fun e => match e with
                 | ELog _ (BatchExists n) => Some n
                 | _ => None
                 end) tr.

Definition processed_batches (tr : list event) : list Z :=
  omap (fun e => match e with
                 | ELog _ (ProcessingBatch n _ _ _) => Some n
                 | _ => None
                 end) tr.

(** [batch_file.exists()] for the artifact of loop index [i], in the
    directory [fs]. *)
Definition on_disk (fs : gmap string DataFrame) (i : Z) : bool :=
  bool_decide (is_Some (fs !! batch_file_name (i + 1))).

(** What [fetch_batch] returns for [urls], and the number of requests
    it issues, when [c] requests have been issued before it: the
    session answers by URL and by the number of the request, and
    [fetch_batch] reads nothing else of the state. *)
Definition batch_results (session : Session) (urls : list string) (c : nat)
    : list json :=
  match fst (fetch_batch session urls 0 (mkWorld c ∅ [])) with
  | Returns results => results
  | Raises _ => []
  end.

Definition batch_requests (session : Session) (urls : list string) (c : nat)
    : nat :=
  (calls (snd (fetch_batch session urls 0 (mkWorld c ∅ []))) - c)%nat.

(** The batches [process_all_batches] fetches from the loop indices
    [l], one after the other, when [c] requests have been issued
    before: each index with the results fetched for it.  The loop ends
    with the first batch that [save_batch] raises on. *)
Fixpoint fetched (session : Session) (urls_of : Z -> list string)
    (l : list Z) (c : nat) : list (Z * list json) :=
  match l with
  | [] => []
  | i :: l' =>
      let data := batch_results session (urls_of i) c in
      (i, data) ::
      if savable data
      then fetched session urls_of l'
             (c + batch_requests session (urls_of i) c)
      else []
  end.

(** The same for [resume_from_batch], in the directory [fs]: an index
    whose artifact is there is skipped ([None]), the others are
    fetched. *)
Fixpoint resumed (session : Session) (urls_of : Z -> list string)
    (fs : gmap string DataFrame) (l : list Z) (c : nat)
    : list (Z * option (list json)) :=
  match l with
  | [] => []
  | i :: l' =>
      if on_disk fs i then (i, None) :: resumed session urls_of fs l' c
      else
        let data := batch_results session (urls_of i) c in
        (i, Some data) ::
        if savable data
        then resumed session urls_of (write_table fs (i + 1) data) l'
               (c + batch_requests session (urls_of i) c)
        else []
  end.

(** The batches fetched among the indices visited, and whether
    [save_batch] got through all of them. *)
Definition fetched_of (visits : list (Z * option (list json)))
    : list (Z * list json) :=
  omap (fun v => match snd v with
                 | Some data => Some (fst v, data)
                 | None => None
                 end) visits.

Definition all_saved (batches : list (Z * list json)) : bool :=
  forallb (fun b => savable (snd b)) batches.

(** The number of batches a run has opened, by its log. *)
Definition opened (tr : list event) : Z :=
  Z.of_nat (length (List.filter is_marker tr)).

(** The moves a task can still make at most: an iteration of the loop
    of [fetch_with_retry] is at most an acquisition, a response and a
    wake-up, and leaving the loop is one more move. *)
Definition task_measure (t : task) : nat :=
  match task_st t with
  | Waiting n _ => (3 * n + 1)%nat
  | InFlight n _ => (3 * n + 3)%nat
  | Sleeping n _ => (3 * n + 2)%nat
  | Finished _ | Crashed _ => 0%nat
  end.

Definition pool_measure (P : pool) : nat :=
  sum_list (map task_measure (tasks P)).

(** Log lines aside: the effects of a run that reach the semaphore, the
    network and the clock. *)
Definition is_log (e : event) : bool :=
  match e with ELog _ _ => true | _ => false end.

Definition without_logs (tr : list event) : list event :=
  List.filter (fun e => negb (is_log e)) tr.

(** Two states of the script that differ at most in the log lines
    recorded. *)
Definition same_but_logs (w1 w2 : World) : Prop :=
  calls w1 = calls w2 /\ files w1 = files w2 /\
  without_logs (trace w1) = without_logs (trace w2).

(** Two coroutines that, from states equal up to log lines, end alike:
    both return, with results related by [Q], or both raise the same
    exception, in states equal up to log lines. *)
Definition agree {A B} (Q : A -> B -> Prop) (m1 : M A) (m2 : M B) : Prop :=
  forall w1 w2, same_but_logs w1 w2 ->
    match m1 w1, m2 w2 with
    | (Returns a, w1'), (Returns b, w2') => Q a b /\ same_but_logs w1' w2'
    | (Raises e1, w1'), (Raises e2, w2') => e1 = e2 /\ same_but_logs w1' w2'
    | _, _ => False
    end.

(** ** [merge_all_batches]

    The merge reads [OUTPUT_DIR] as [save_batch] left it and writes one
    file, named relative to the working directory of the process.  It
    is modelled as a function of the directory that gives the lines it
    logs, the file it writes and what it returns or raises.  A file of
    the directory holds the table written to it.  What [pd.read_csv]
    makes of the CSV text of a table -- the same rows with the values
    typed anew, or an exception such as [EmptyDataError] for a table
    without columns -- is not computed here: it is the parameter
    [parse] of the merge. *)

(** [s.endswith(suffix)] *)
Fixpoint ends_with (suffix s : string) : bool :=
  String.eqb suffix s ||
  match s with
  | EmptyString => false
  | String _ s' => ends_with suffix s'
  end.

(** Whether a file name matches the pattern ["batch_*.csv"]: the star
    stands for any run of characters, the empty one included. *)
Definition matches_batch_csv (name : string) : bool :=
  String.prefix "batch_" name && ends_with ".csv" (string_drop 6 name).

(** The order [sorted] puts the paths of one directory in: that of
    their names, compared character by character. *)
Definition name_le (s1 s2 : string) : Prop := String.leb s1 s2 = true.

#[global] Instance name_le_dec : RelDecision name_le :=
  fun s1 s2 => decide (String.leb s1 s2 = true).

(** [sorted(OUTPUT_DIR.glob("batch_*.csv"))], as file names *)
Definition batch_files_of (fs : gmap string DataFrame) : list string :=
  merge_sort name_le
    (List.filter matches_batch_csv (map fst (map_to_list fs))).

(** [pd.read_csv(batch_file, ...)]: what [parse] makes of the table
    written to the file; a file that is not there raises
    ([FileNotFoundError], which the glob excludes). *)
Definition read_csv (parse : DataFrame -> raised DataFrame)
    (fs : gmap string DataFrame) (batch_file : string) : raised DataFrame :=
  match fs !! batch_file with
  | Some written => parse written
  | None => Raises OtherException
  end.

(** The loop over [batch_files]: the tables read, each with the name
    of its file, up to the first file [read_csv] raises on. *)
Fixpoint read_batches (parse : DataFrame -> raised DataFrame)
    (fs : gmap string DataFrame) (batch_files : list string)
    : list (string * DataFrame) * option exn :=
  match batch_files with
  | [] => ([], None)
  | batch_file :: rest =>
      match read_csv parse fs batch_file with
      | Raises e => ([], Some e)
      | Returns df =>
          let r := read_batches parse fs rest in
          ((batch_file, df) :: fst r, snd r)
      end
  end.

(** [pd.concat(dfs, ignore_index=True)]: the rows of the tables, one
    table after the other. *)
Definition pd_concat (dfs : list DataFrame) : DataFrame :=
  mkDataFrame (concat (map rows dfs)).

(** [df.drop_duplicates()]: a row is dropped when a row before it in the
    table is the same; [same_row] is the comparison of two rows that
    pandas makes, on the values as they were read back. *)
Fixpoint drop_duplicate_rows (same_row : json -> json -> bool)
    (before : list json) (l : list json) : list json :=
  match l with
  | [] => []
  | r :: l' =>
      if existsb (same_row r) before
      then drop_duplicate_rows same_row (r :: before) l'
      else r :: drop_duplicate_rows same_row (r :: before) l'
  end.

Definition drop_duplicates (same_row : json -> json -> bool) (df : DataFrame)
    : DataFrame :=
  mkDataFrame (drop_duplicate_rows same_row [] (rows df)).

(** One constructor per message template of [merge_all_batches]. *)
Inductive merge_message : Type :=
| MergeRule
| MergingAllBatches
| NoBatchFiles
| FoundBatchFiles (n : nat)
| LoadedBatch (name : string) (n_rows : nat)
| TotalRows (n : nat)
| DuplicatesRemoved (n : Z)
| FinalFileSaved (final_file : string) (n_rows : nat).

(** What a call of [merge_all_batches] does: the lines it logs, the file
    it writes with [to_csv], and the value it returns or the exception
    it raises. *)
Record merge_run : Type := mkMergeRun {
  merge_log : list (log_level * merge_message);
  merge_written : option (string * DataFrame);
  merge_returns : raised (option DataFrame)
}.

Definition merge_all_batches (same_row : json -> json -> bool)
    (parse : DataFrame -> raised DataFrame) (fs : gmap string DataFrame)
    : merge_run :=
  let banner :=
    [(INFO, MergeRule); (INFO, MergingAllBatches); (INFO, MergeRule)] in
  let batch_files := batch_files_of fs in
  if py_not batch_files then
    mkMergeRun (banner ++ [(ERROR, NoBatchFiles)]) None (Returns None)
  else
    let found := [(INFO, FoundBatchFiles (length batch_files))] in
    let read := read_batches parse fs batch_files in
    let loaded :=
      map (fun p => (INFO, LoadedBatch (fst p) (length (rows (snd p)))))
        (fst read) in
    match snd read with
    | Some e => mkMergeRun (banner ++ found ++ loaded) None (Raises e)
    | None =>
        let dfs := map snd (fst read) in
        let df_final := pd_concat dfs in
        let df_final_clean := drop_duplicates same_row df_final in
        let duplicates_removed :=
          Z.of_nat (length (rows df_final)) -
          Z.of_nat (length (rows df_final_clean)) in
        let final_file := "all_works_of_art_le_louvre_uncleaned.csv" in
        mkMergeRun
          (banner ++ found ++ loaded ++
           [(INFO, TotalRows (length (rows df_final)));
            (INFO, DuplicatesRemoved duplicates_removed);
            (INFO, FinalFileSaved final_file (length (rows df_final_clean)))])
          (Some (final_file, df_final_clean))
          (Returns (Some df_final_clean))
    end.

(** The sequence numbers of the batches, among [batches] (index and
    results), for which [save_batch] writes an artifact. *)
Definition saved_batches (batches : list (Z * list json)) : list Z :=
  omap (fun b => match table_of (snd b) with
                | Some _ => Some (fst b + 1)
                | None => None
                end) batches.

(** ** The main block

    [process_all_batches], then [merge_all_batches], inside one
    [try ... except Exception].  The lines of the three loggers are
    kept in the order they are written. *)

(** What the handler of the main block catches: an exception that left
    the run or the merge, or the [AttributeError] of [df_final.shape]
    on [None]. *)
Inductive fatal : Type :=
| FatalRaised (e : exn)
| FatalAttributeError.

(** One constructor per message template of the main block; the shape
    is reported by its number of rows, columns not being modelled. *)
Inductive main_message : Type :=
| StartingFullScraping
| MainRule
| ScrapingCompleted
| FinalDatasetShape (n_rows : nat)
| FatalError (e : fatal).

Inductive main_line : Type :=
| OfRun (e : event)
| OfMerge (level : log_level) (msg : merge_message)
| OfMain (level : log_level) (msg : main_message).

Record main_run : Type := mkMainRun {
  main_lines : list main_line;
  main_files : gmap string DataFrame;
  main_written : option (string * DataFrame)
}.

Definition main (cfg : Config) (same_row : json -> json -> bool)
    (parse : DataFrame -> raised DataFrame) (session : Session)
    (df_urls : list string) (w : World) : main_run :=
  let starting := [OfMain INFO StartingFullScraping] in
  match process_all_batches cfg session df_urls w with
  | (Raises e, w') =>
      mkMainRun
        (starting ++ map OfRun (events_since w w') ++
         [OfMain ERROR (FatalError (FatalRaised e))])
        (files w') None
  | (Returns _, w') =>
      let merged := merge_all_batches same_row parse (files w') in
      let before_merge := starting ++ map OfRun (events_since w w') in
      let merge_lines :=
        map (fun l => OfMerge (fst l) (snd l)) (merge_log merged) in
      let completed :=
        [OfMain INFO MainRule; OfMain INFO ScrapingCompleted] in
      match merge_returns merged with
      | Raises e =>
          mkMainRun
            (before_merge ++ merge_lines ++
             [OfMain ERROR (FatalError (FatalRaised e))])
            (files w') (merge_written merged)
      | Returns None =>
          mkMainRun
            (before_merge ++ merge_lines ++ completed ++
             [OfMain ERROR (FatalError FatalAttributeError)])
            (files w') (merge_written merged)
      | Returns (Some df_final) =>
          mkMainRun
            (before_merge ++ merge_lines ++ completed ++
             [OfMain INFO (FinalDatasetShape (length (rows df_final)));
              OfMain INFO MainRule])
            (files w') (merge_written merged)
      end
  end.

(** The attempts of a task and its budget: the answers received, the
    request on the wire and the iterations of [range(retries)] not yet
    started add up to [retries]. *)
Definition task_budget (retries : Z) (t : task) : Prop :=
  match task_st t with
  | Waiting n _ | Sleeping n _ =>
      (length (task_seen t) + n = Z.to_nat retries)%nat
  | InFlight n _ =>
      (length (task_seen t) + 1 + n = Z.to_nat retries)%nat
  | Finished _ =>
      (length (task_seen t) <= Z.to_nat retries)%nat /\
      (1 <= retries -> (1 <= length (task_seen t))%nat)
  | Crashed _ => True
  end.

(** ** Sample data *)

(** The scenario of the design document: twelve identifiers in batches
    of five. *)
Definition twelve_urls : list string :=
  ["/ark:/53355/cl01"; "/ark:/53355/cl02"; "/ark:/53355/cl03";
   "/ark:/53355/cl04"; "/ark:/53355/cl05"; "/ark:/53355/cl06";
   "/ark:/53355/cl07"; "/ark:/53355/cl08"; "/ark:/53355/cl09";
   "/ark:/53355/cl10"; "/ark:/53355/cl11"; "/ark:/53355/cl12"].

Definition batches_of_five : Config :=
  {| BATCH_SIZE := 5; MAX_CONCURRENT_REQUESTS := 50; REQUEST_TIMEOUT := 30 |}.

Definition empty_world : World := mkWorld 0 ∅ [].

Definition sample_document : json :=
  JObj [("arkId", JStr "cl010062370"); ("title", JStr "La Joconde")].

Definition other_document : json :=
  JObj [("arkId", JStr "cl010065532"); ("title", JStr "Le Radeau de la Meduse")].

(** A 204 answer with a JSON body: a success status that is not 200. *)
Definition no_content_response : response :=
  mkResponse 204 (Some "application/json") (BodyJson sample_document).

(** A server that answers every request with the same document, and one
    that refuses every connection. *)
Definition always_answers : Session :=
  fun _ _ =>
    GetResponds
      (mkResponse 200 (Some "application/json; charset=utf-8")
         (BodyJson sample_document)).

Definition always_fails : Session := fun _ _ => GetRaises ClientError.

(** Output directories left by an earlier run: only the first batch, and
    all three batches of the twelve identifiers. *)
Definition first_batch_on_disk : World :=
  mkWorld 0 {[ batch_file_name 1 := mkDataFrame [sample_document] ]} [].

Definition three_batches_on_disk : World :=
  mkWorld 0
    (<[ batch_file_name 1 := mkDataFrame [sample_document] ]>
       (<[ batch_file_name 2 := mkDataFrame [sample_document] ]>
          {[ batch_file_name 3 := mkDataFrame [other_document] ]}))
    [].

Definition two_urls : list string :=
  ["/ark:/53355/cl010062370"; "/ark:/53355/cl010065532"].

Definition answers_with (doc : json) : get_outcome :=
  GetResponds
    (mkResponse 200 (Some "application/json; charset=utf-8") (BodyJson doc)).

(** Both requests are sent; the second is answered first, then the
    first one times out and its task goes to sleep. *)
Definition first_sleeps_schedule : list (nat * get_outcome) :=
  [(0%nat, GetRaises TimeoutError); (1%nat, GetRaises TimeoutError);
   (1%nat, answers_with other_document);
   (0%nat, GetRaises TimeoutError)].

(** Both requests are sent; the second is answered before the first. *)
Definition second_finishes_first_schedule : list (nat * get_outcome) :=
  [(0%nat, GetRaises TimeoutError); (1%nat, GetRaises TimeoutError);
   (1%nat, answers_with other_document);
   (0%nat, answers_with sample_document)].

(** A server on which the third and the ninth identifier always fail. *)
Definition third_and_ninth_fail : Session :=
  fun url _ =>
    if String.eqb url (full_url "/ark:/53355/cl03") ||
       String.eqb url (full_url "/ark:/53355/cl09")
    then GetRaises ClientError
    else answers_with (JObj [("url", JStr url)]).

(** * Properties *)

(** ** [fetch] *)

Ltac unfold_m :=
  cbv beta iota zeta delta
    [bind ret raise emit logger sleep try_except async_with_semaphore
     session_get response_json to_csv file_exists fst snd
     calls files trace].

#[local] Arguments str_contains : simpl never.

(** [fetch] asks the session once, and everything else it does is a
    function of the answer. *)
Lemma fetch_run session url w :
  fetch session url w =
    (fetch_result url (session url (calls w)),
     mkWorld (S (calls w)) (files w)
       (trace w ++ fetch_events url (session url (calls w)))).
Proof.
  unfold fetch_result, fetch_events, fetch, fetch_handlers.
  destruct w as [k fs tr]. unfold_m.
  destruct (session url k) as [e|r]; unfold_m.
  - destruct e; simpl; rewrite <- ?app_assoc; reflexivity.
  - destruct r as [st ct bd]; simpl.
    destruct (st =? 200); simpl; [|rewrite <- ?app_assoc; reflexivity].
    destruct (str_contains _ _); simpl; [|rewrite <- ?app_assoc; reflexivity].
    destruct bd as [v|e]; simpl; [rewrite <- ?app_assoc; reflexivity|].
    destruct e; simpl; rewrite <- ?app_assoc; reflexivity.
Qed.

Lemma fetch_result_returns url o : exists v, fetch_result url o = Returns v.
Proof.
  unfold fetch_result, fetch, fetch_handlers. unfold_m.
  destruct o as [e|[st ct bd]]; simpl.
  - destruct e; simpl; eauto.
  - destruct (st =? 200); simpl; eauto.
    destruct (str_contains _ _); simpl; eauto.
    destruct bd as [v|e]; simpl; eauto.
    destruct e; simpl; eauto.
Qed.

(** The permit is taken first and given back last, and the request is
    the first thing done under it. *)
Lemma fetch_events_shape url o :
  exists logs,
    fetch_events url o = [EAcquire; EGet url] ++ logs ++ [ERelease] /\
    Forall (fun e => exists l m, e = ELog l m) logs.
Proof.
  unfold fetch_events, fetch, fetch_handlers. unfold_m.
  destruct o as [e|[st ct bd]]; simpl.
  - destruct e; simpl; eexists [_]; split; try reflexivity;
      repeat constructor; eauto.
  - destruct (st =? 200); simpl;
      [|eexists [_]; split; try reflexivity; repeat constructor; eauto].
    destruct (str_contains _ _); simpl;
      [|eexists [_]; split; try reflexivity; repeat constructor; eauto].
    destruct bd as [v|e]; simpl;
      [exists []; split; [reflexivity|constructor]|].
    destruct e; simpl; eexists [_]; split; try reflexivity;
      repeat constructor; eauto.
Qed.

(** ** [fetch_with_retry] *)

Lemma events_since_app w k fs evs :
  events_since w (mkWorld k fs (trace w ++ evs)) = evs.
Proof. unfold events_since. simpl. apply drop_app_length. Qed.

Lemma events_since_refl w : events_since w w = [].
Proof. unfold events_since. apply drop_all. Qed.

(** One iteration of the loop, in terms of the answer of the session. *)
Lemma retry_loop_S session url retries n attempt w :
  retry_loop session url retries (S n) attempt w =
    let o := session url (calls w) in
    let w1 := mkWorld (S (calls w)) (files w) (trace w ++ fetch_events url o) in
    match fetch_result url o with
    | Raises e => (Raises e, w1)
    | Returns result =>
        if is_not_none result then (Returns result, w1)
        else
          retry_loop session url retries n (attempt + 1)
            (mkWorld (S (calls w)) (files w)
               (trace w ++ fetch_events url o ++
                after_fetch_events retries url attempt (Returns result)))
    end.
Proof.
  simpl. unfold bind at 1. rewrite fetch_run.
  destruct (fetch_result url (session url (calls w))) as [v|e]; [|reflexivity].
  simpl. destruct (is_not_none v); [reflexivity|].
  destruct (attempt <? retries - 1); unfold_m; simpl;
    rewrite <- ?app_assoc; simpl; rewrite ?app_nil_r; reflexivity.
Qed.

Lemma retry_loop_O session url retries attempt w :
  retry_loop session url retries 0 attempt w =
    (Returns PyNone,
     mkWorld (calls w) (files w)
       (trace w ++ [ELog ERROR (FailedAfterRetries retries url)])).
Proof. reflexivity. Qed.

Ltac fetch_cases o :=
  unfold fetch_result, fetch_events, fetch, fetch_handlers; unfold_m;
  let e := fresh "e" in
  let st := fresh "st" in
  let ct := fresh "ct" in
  let bd := fresh "bd" in
  let v := fresh "v" in
  destruct o as [e|[st ct bd]]; simpl;
  [destruct e
  |destruct (st =? 200) eqn:?; simpl;
   [destruct (str_contains "application/json" _) eqn:?; simpl;
    [destruct bd as [v|e]; [|destruct e]|]|]]; simpl.

Lemma network_and_sleeps_fetch url o :
  network_and_sleeps (fetch_events url o) = [EGet url].
Proof. fetch_cases o; reflexivity. Qed.

Lemma gets_fetch url o : gets (fetch_events url o) = [EGet url].
Proof. fetch_cases o; reflexivity. Qed.

Lemma sleeps_fetch url o : sleeps (fetch_events url o) = [].
Proof. fetch_cases o; reflexivity. Qed.

Lemma network_and_sleeps_app tr1 tr2 :
  network_and_sleeps (tr1 ++ tr2) =
    network_and_sleeps tr1 ++ network_and_sleeps tr2.
Proof. apply List.filter_app. Qed.

Lemma gets_app tr1 tr2 : gets (tr1 ++ tr2) = gets tr1 ++ gets tr2.
Proof. apply List.filter_app. Qed.

Lemma sleeps_app tr1 tr2 : sleeps (tr1 ++ tr2) = sleeps tr1 ++ sleeps tr2.
Proof. apply omap_app. Qed.

Lemma is_not_none_false v : is_not_none v = false -> v = PyNone.
Proof. destruct v; simpl; intros H; (reflexivity || discriminate). Qed.

Lemma observed_outcome_eq url o :
  observed_outcome url o =
    Some
      match o with
      | GetRaises e => Failure (spec_reason_of_exn e)
      | GetResponds r =>
          if negb (status r =? 200) then Failure HTTPError
          else if negb (str_contains "application/json"
                          (headers_get_content_type r))
          then Failure ContentTypeMismatch
          else match body r with
               | BodyJson v => Success v
               | BodyRaises e => Failure (spec_reason_of_exn e)
               end
      end.
Proof.
  unfold observed_outcome. fetch_cases o; reflexivity.
Qed.

Lemma fetch_result_eq url o :
  fetch_result url o =
    Returns
      match o with
      | GetRaises _ => PyNone
      | GetResponds r =>
          if negb (status r =? 200) then PyNone
          else if negb (str_contains "application/json"
                          (headers_get_content_type r))
          then PyNone
          else match body r with
               | BodyJson v => v
               | BodyRaises _ => PyNone
               end
      end.
Proof. fetch_cases o; reflexivity. Qed.

(** The attempts that make the loop go on: [fetch] returns [None] for
    every failure it logs, and also for a response that is accepted
    and whose body is the JSON value [null], for which it logs
    nothing. *)
Lemma attempt_none_iff url o :
  fetch_result url o = Returns PyNone <->
  (exists reason, observed_outcome url o = Some (Failure reason)) \/
  observed_outcome url o = Some (Success PyNone).
Proof.
  rewrite fetch_result_eq, observed_outcome_eq.
  destruct o as [e|[st ct bd]]; simpl.
  - split; [intros _; left; eauto|reflexivity].
  - destruct (negb (st =? 200)); simpl;
      [split; [intros _; left; eauto|reflexivity]|].
    destruct (negb (str_contains _ _)); simpl;
      [split; [intros _; left; eauto|reflexivity]|].
    destruct bd as [v|e]; [|split; [intros _; left; eauto|reflexivity]].
    split.
    + intros [= ->]. right. reflexivity.
    + intros [[reason H]|H]; [discriminate H|].
      injection H as ->. reflexivity.
Qed.

Ltac settle_attempts :=
  intros; unfold PyNone in *;
  repeat match goal with
         | H : Returns _ = Returns _ |- _ => injection H as H; subst
         end;
  simpl in *; repeat split; try reflexivity; try discriminate; try congruence.

(** The loop of [fetch_with_retry] with the default budget, attempt by
    attempt. *)
Lemma fetch_with_retry_three (session : Session) (url : string) (w : World) :
  exists v w',
    fetch_with_retry session url 3 w = (Returns v, w') /\
    files w' = files w /\
    (calls w' <= calls w + 3)%nat /\
    length (gets (events_since w w')) = (calls w' - calls w)%nat /\
    (forall v0,
       attempt_outcome session url w 0 = Returns v0 ->
       is_not_none v0 = true ->
       v = v0 /\
       network_and_sleeps (events_since w w') = [EGet url]) /\
    (forall v1,
       attempt_outcome session url w 0 = Returns PyNone ->
       attempt_outcome session url w 1 = Returns v1 ->
       is_not_none v1 = true ->
       v = v1 /\
       network_and_sleeps (events_since w w') =
         [EGet url; ESleep (2 ^ 0); EGet url]) /\
    (forall v2,
       attempt_outcome session url w 0 = Returns PyNone ->
       attempt_outcome session url w 1 = Returns PyNone ->
       attempt_outcome session url w 2 = Returns v2 ->
       is_not_none v2 = true ->
       v = v2 /\
       network_and_sleeps (events_since w w') =
         [EGet url; ESleep (2 ^ 0); EGet url; ESleep (2 ^ 1); EGet url] /\
       sleeps (events_since w w') = [1; 2] /\
       1 + 2 = 3) /\
    (attempt_outcome session url w 0 = Returns PyNone ->
     attempt_outcome session url w 1 = Returns PyNone ->
     attempt_outcome session url w 2 = Returns PyNone ->
     v = PyNone /\
     attempt_outcome session url w 2 = Returns v /\
     network_and_sleeps (events_since w w') =
       [EGet url; ESleep (2 ^ 0); EGet url; ESleep (2 ^ 1); EGet url] /\
     last (events_since w w') = Some (ELog ERROR (FailedAfterRetries 3 url))).
Proof.
  unfold attempt_outcome, fetch_with_retry.
  change (Z.to_nat 3) with 3%nat.
  replace (calls w + 0)%nat with (calls w) by lia.
  replace (calls w + 1)%nat with (S (calls w)) by lia.
  replace (calls w + 2)%nat with (S (S (calls w))) by lia.
  rewrite retry_loop_S. cbv zeta.
  destruct (fetch_result_returns url (session url (calls w))) as [v0 H0].
  rewrite H0. destruct (is_not_none v0) eqn:N0.
  { eexists _, _. split; [reflexivity|]. simpl calls. simpl files.
    rewrite events_since_app, gets_fetch, network_and_sleeps_fetch.
    repeat split; try (simpl; lia); settle_attempts. }
  apply is_not_none_false in N0 as ->.
  rewrite retry_loop_S. cbv zeta. simpl calls. simpl files. simpl trace.
  destruct (fetch_result_returns url (session url (S (calls w)))) as [v1 H1].
  rewrite H1. destruct (is_not_none v1) eqn:N1.
  { eexists _, _. split; [reflexivity|]. simpl calls. simpl files.
    rewrite <- ?app_assoc.
    rewrite events_since_app, !gets_app, !network_and_sleeps_app,
      !gets_fetch, !network_and_sleeps_fetch.
    repeat split; try (simpl; lia); settle_attempts. }
  apply is_not_none_false in N1 as ->.
  rewrite retry_loop_S. cbv zeta. simpl calls. simpl files. simpl trace.
  destruct (fetch_result_returns url (session url (S (S (calls w))))) as [v2 H2].
  rewrite H2. destruct (is_not_none v2) eqn:N2.
  { eexists _, _. split; [reflexivity|]. simpl calls. simpl files.
    rewrite <- ?app_assoc.
    rewrite events_since_app, !gets_app, !sleeps_app, !network_and_sleeps_app,
      !gets_fetch, !sleeps_fetch, !network_and_sleeps_fetch.
    repeat split; try (simpl; lia); settle_attempts. }
  apply is_not_none_false in N2 as ->.
  rewrite retry_loop_O. simpl calls. simpl files. simpl trace.
  eexists _, _. split; [reflexivity|]. simpl calls. simpl files.
  rewrite <- ?app_assoc.
  rewrite events_since_app, !gets_app, !network_and_sleeps_app,
    !gets_fetch, !network_and_sleeps_fetch.
  repeat split; try (simpl; lia); settle_attempts.
  repeat (rewrite last_app || rewrite last_cons). reflexivity.
Qed.

(** C2, as stated, fails: the loop does not test whether an attempt
    succeeded but whether its result [is not None].  A response with
    status 200 and a JSON content type whose body is [null] is a
    success that carries [None]: [fetch] logs no failure for it, and
    [fetch_with_retry] nevertheless asks again, three times in all. *)
Lemma fetch_with_retry_retries_null_document :
  ~ (forall session url w payload,
       observed_outcome url (session url (calls w)) = Some (Success payload) ->
       exists w',
         fetch_with_retry session url 3 w = (Returns payload, w') /\
         calls w' = S (calls w)).
Proof.
  intros H.
  destruct (H (fun _ _ => answers_with JNull)
              "https://collections.louvre.fr/ark:/53355/cl010062370.json"
              empty_world JNull eq_refl) as (w' & Hrun & Hcalls).
  vm_compute in Hrun. injection Hrun as <-. discriminate Hcalls.
Qed.

(** C2, amended.  With the default budget of three attempts,
    [fetch_with_retry] returns a value, issues at most three requests
    and returns the first result that is not [None] without issuing
    another one.  Before attempt [k+1] it sleeps [2^k]: a result on the
    third attempt has slept [2^0] then [2^1], three units in all.  When
    the three attempts all return [None] it returns [None] -- the
    result of the last attempt --, logs the terminal failure, and no
    sleep follows the last request.  An attempt returns [None] exactly
    when [fetch] logs a failure for it or when the response is accepted
    and its body is [null]: such a response is retried like a
    failure. *)
Theorem fetch_with_retry_policy (session : Session) (url : string) (w : World) :
  exists v w',
    fetch_with_retry session url 3 w = (Returns v, w') /\
    files w' = files w /\
    (calls w' <= calls w + 3)%nat /\
    length (gets (events_since w w')) = (calls w' - calls w)%nat /\
    (forall v0,
       attempt_outcome session url w 0 = Returns v0 ->
       is_not_none v0 = true ->
       v = v0 /\
       network_and_sleeps (events_since w w') = [EGet url]) /\
    (forall v1,
       attempt_outcome session url w 0 = Returns PyNone ->
       attempt_outcome session url w 1 = Returns v1 ->
       is_not_none v1 = true ->
       v = v1 /\
       network_and_sleeps (events_since w w') =
         [EGet url; ESleep (2 ^ 0); EGet url]) /\
    (forall v2,
       attempt_outcome session url w 0 = Returns PyNone ->
       attempt_outcome session url w 1 = Returns PyNone ->
       attempt_outcome session url w 2 = Returns v2 ->
       is_not_none v2 = true ->
       v = v2 /\
       network_and_sleeps (events_since w w') =
         [EGet url; ESleep (2 ^ 0); EGet url; ESleep (2 ^ 1); EGet url] /\
       sleeps (events_since w w') = [1; 2] /\
       1 + 2 = 3) /\
    (attempt_outcome session url w 0 = Returns PyNone ->
     attempt_outcome session url w 1 = Returns PyNone ->
     attempt_outcome session url w 2 = Returns PyNone ->
     v = PyNone /\
     attempt_outcome session url w 2 = Returns v /\
     network_and_sleeps (events_since w w') =
       [EGet url; ESleep (2 ^ 0); EGet url; ESleep (2 ^ 1); EGet url] /\
     last (events_since w w') = Some (ELog ERROR (FailedAfterRetries 3 url))) /\
    (forall k,
       attempt_outcome session url w k = Returns PyNone <->
       (exists reason,
          observed_outcome url (session url (calls w + k)%nat) =
            Some (Failure reason)) \/
       observed_outcome url (session url (calls w + k)%nat) =
         Some (Success PyNone)).
Proof.
  destruct (fetch_with_retry_three session url w)
    as (v & w' & H1 & H2 & H3 & H4 & H5 & H6 & H7 & H8).
  exists v, w'. do 8 (split; [assumption|]).
  intros k. apply attempt_none_iff.
Qed.

(** C10. With a budget of zero or less the loop body is never entered:
    no permit is taken, no request is issued and nothing is slept; the
    only effect is the final error record, and the result is [None]. *)
Theorem fetch_with_retry_no_budget (session : Session) (url : string)
    (retries : Z) (w : World) :
  retries <= 0 ->
  fetch_with_retry session url retries w =
    (Returns PyNone,
     mkWorld (calls w) (files w)
       (trace w ++ [ELog ERROR (FailedAfterRetries retries url)])).
Proof.
  intros Hr. unfold fetch_with_retry.
  replace (Z.to_nat retries) with 0%nat by lia.
  apply retry_loop_O.
Qed.

Lemma fetch_with_retry_no_budget_witness :
  fetch_with_retry (fun _ _ => GetRaises ClientError) "/ark:/53355/cl010062370"
      0 (mkWorld 0 ∅ []) =
    (Returns PyNone,
     mkWorld 0 ∅
       [ELog ERROR (FailedAfterRetries 0 "/ark:/53355/cl010062370")]).
Proof.
  apply (fetch_with_retry_no_budget _ _ 0 (mkWorld 0 ∅ [])). lia.
Defined.

(** ** The classification of responses by [fetch] *)

(** C3, as stated, fails: [fetch] reports an HTTP failure for every
    status other than 200, so a 2xx status such as 204 is reported as a
    failure although it is not "non-2xx". *)
Lemma fetch_http_error_not_exactly_non_2xx :
  ~ (forall url r,
       observed_outcome url (GetResponds r) = Some (Failure HTTPError) <->
       ~ (200 <= status r < 300)).
Proof.
  intros H.
  destruct (H "https://collections.louvre.fr/ark:/53355/cl010062370.json"
              no_content_response) as [H1 _].
  apply H1; [reflexivity|]. simpl. lia.
Qed.

Ltac classify :=
  simpl; repeat split; intros;
  repeat match goal with
         | H : exists _, _ |- _ => destruct H
         | H : _ /\ _ |- _ => destruct H
         | H : GetResponds _ = GetResponds _ |- _ => injection H as H
         | H : Some _ = Some _ |- _ => injection H as H
         | H : Success _ = Success _ |- _ => injection H as H
         | H : BodyJson _ = BodyJson _ |- _ => injection H as H
         end;
  subst; simpl in *; try discriminate; try congruence;
  try (eexists; repeat split; simpl; eauto; congruence).

(** C3, amended.  [fetch] always returns and never lets an exception of
    the request escape.  What it returns is the parsed document or
    [None]: every failure returns the same [None], and the reason is
    only in the log record.  That record names an HTTP failure exactly
    when the status is not 200; a content-type failure exactly when the
    status is 200 and the [Content-Type] header does not contain
    [application/json]; a timeout, resp. a transport failure, exactly
    when the request or the reading of the body raises an exception of
    the timeout class, resp. any other exception.  Otherwise no failure
    is recorded and the parsed body is returned. *)
Theorem fetch_total_and_classified (session : Session) (url : string)
    (w : World) :
  let o := session url (calls w) in
  exists v w',
    fetch session url w = (Returns v, w') /\
    (observed_outcome url o = Some (Failure HTTPError) <->
     exists r, o = GetResponds r /\ status r <> 200) /\
    (observed_outcome url o = Some (Failure ContentTypeMismatch) <->
     exists r, o = GetResponds r /\ status r = 200 /\
       str_contains "application/json" (headers_get_content_type r) = false) /\
    (observed_outcome url o = Some (Failure Timeout) <->
     exists e, raised_in_try o = Some e /\ isinstance_TimeoutError e = true) /\
    (observed_outcome url o = Some (Failure TransportError) <->
     exists e, raised_in_try o = Some e /\ isinstance_TimeoutError e = false) /\
    (forall d,
       observed_outcome url o = Some (Success d) <->
       exists r, o = GetResponds r /\ status r = 200 /\
         str_contains "application/json" (headers_get_content_type r) = true /\
         body r = BodyJson d) /\
    (forall reason,
       observed_outcome url o = Some (Failure reason) -> v = PyNone) /\
    (forall d, observed_outcome url o = Some (Success d) -> v = d).
Proof.
  intros o. rewrite fetch_run. fold o.
  rewrite fetch_result_eq, observed_outcome_eq.
  eexists _, _. split; [reflexivity|].
  unfold raised_in_try, spec_reason_of_exn.
  destruct o as [e|[st ct bd]]; simpl.
  - destruct e; classify.
  - destruct (Z.eqb_spec st 200) as [->|Hne]; simpl.
    + destruct (str_contains _ _) eqn:Hct; simpl.
      * destruct bd as [d0|e]; [|destruct e]; classify.
      * classify.
    + classify.
Qed.

(** ** What a batch does to the world *)

Lemma pow2_not_cooldown attempt : (2 ^ attempt =? 5) = false.
Proof.
  apply Z.eqb_neq. intros H.
  destruct (Z.lt_ge_cases attempt 0) as [Hn|Hn].
  - rewrite Z.pow_neg_r in H by assumption. discriminate.
  - destruct (Z.lt_ge_cases attempt 3) as [Hs|Hl].
    + assert (attempt = 0 \/ attempt = 1 \/ attempt = 2) as [->|[->| ->]]
        by lia; discriminate.
    + pose proof (Z.pow_le_mono_r 2 3 attempt ltac:(lia) Hl) as Hp.
      change (2 ^ 3) with 8 in Hp. lia.
Qed.

Lemma quiet_fetch_events url o : Forall (fun e => quiet e = true) (fetch_events url o).
Proof. fetch_cases o; repeat constructor. Qed.

Lemma quiet_after_fetch_events retries url attempt r :
  Forall (fun e => quiet e = true) (after_fetch_events retries url attempt r).
Proof.
  unfold after_fetch_events. destruct r as [v|e]; [|constructor].
  destruct (is_not_none v); [constructor|].
  destruct (attempt <? retries - 1); repeat constructor.
  unfold quiet. simpl. rewrite pow2_not_cooldown. reflexivity.
Qed.

(** The loop of [fetch_with_retry] returns, issues one request per
    iteration it runs, leaves the files alone and records only quiet
    effects. *)
Lemma retry_loop_run session url retries n attempt w :
  exists v k evs,
    retry_loop session url retries n attempt w =
      (Returns v, mkWorld (calls w + k) (files w) (trace w ++ evs)) /\
    (k <= n)%nat /\
    length (gets evs) = k /\
    Forall (fun e => quiet e = true) evs.
Proof.
  revert attempt w. induction n as [|n IH]; intros attempt w.
  - rewrite retry_loop_O. eexists _, 0%nat, _.
    rewrite Nat.add_0_r. split; [reflexivity|].
    repeat split; [lia|repeat constructor].
  - rewrite retry_loop_S. cbv zeta.
    destruct (fetch_result_returns url (session url (calls w))) as [v Hv].
    rewrite Hv. destruct (is_not_none v) eqn:Hnn.
    + eexists _, 1%nat, _. rewrite Nat.add_1_r. split; [reflexivity|].
      rewrite gets_fetch. repeat split; [lia|apply quiet_fetch_events].
    + edestruct (IH (attempt + 1)) as (v' & k & evs & -> & Hk & Hg & Hq).
      simpl calls. simpl files. simpl trace.
      exists v', (S k),
        (fetch_events url (session url (calls w)) ++
         after_fetch_events retries url attempt (Returns v) ++ evs).
      split.
      { f_equal. f_equal; [lia|]. rewrite <- !app_assoc. reflexivity. }
      repeat split; [lia| |].
      * rewrite !gets_app, gets_fetch.
        replace (gets (after_fetch_events _ _ _ _)) with (@nil event);
          [simpl; congruence|].
        unfold after_fetch_events. rewrite Hnn.
        destruct (attempt <? retries - 1); reflexivity.
      * rewrite !Forall_app. repeat split;
          [apply quiet_fetch_events|apply quiet_after_fetch_events|exact Hq].
Qed.

Lemma gather_retry_run session retries (urls : list string) w :
  exists results k evs,
    gather (map (fun url => fetch_with_retry session (full_url url) retries)
              urls) w =
      (Returns results, mkWorld (calls w + k) (files w) (trace w ++ evs)) /\
    length results = length urls /\
    length (gets evs) = k /\
    Forall (fun e => quiet e = true) evs.
Proof.
  revert w. induction urls as [|url urls IH]; intros w.
  - exists [], 0%nat, []. simpl. unfold ret.
    rewrite Nat.add_0_r, app_nil_r. destruct w. repeat split. constructor.
  - simpl. unfold bind at 1. unfold fetch_with_retry.
    destruct (retry_loop_run session (full_url url) retries
                (Z.to_nat retries) 0 w) as (v & k & evs & -> & _ & Hg & Hq).
    unfold bind at 1.
    edestruct IH as (rs & k' & evs' & -> & Hl & Hg' & Hq').
    simpl calls. simpl files. simpl trace. unfold ret.
    exists (v :: rs), (k + k')%nat, (evs ++ evs'). split.
    { f_equal. f_equal; [lia|]. rewrite <- !app_assoc. reflexivity. }
    repeat split.
    + simpl. congruence.
    + rewrite gets_app, length_app. congruence.
    + apply Forall_app. split; assumption.
Qed.

(** [fetch_batch] returns one result per URL, in a world that differs
    by the requests issued and by quiet effects only. *)
Lemma fetch_batch_run session (urls : list string) batch_number w :
  exists results k evs,
    fetch_batch session urls batch_number w =
      (Returns results, mkWorld (calls w + k) (files w) (trace w ++ evs)) /\
    length results = length urls /\
    length (gets evs) = k /\
    Forall (fun e => quiet e = true) evs.
Proof.
  unfold fetch_batch. cbv zeta. unfold bind at 1. unfold logger, emit.
  unfold bind at 1.
  edestruct (gather_retry_run session 3 urls) as (rs & k & evs & -> & Hl & Hg & Hq).
  simpl calls. simpl files. simpl trace.
  unfold bind, ret. simpl.
  eexists rs, k, _. split.
  { rewrite <- !app_assoc. reflexivity. }
  repeat split; [exact Hl| |].
  - simpl. rewrite gets_app, length_app. simpl. lia.
  - constructor; [reflexivity|]. apply Forall_app. split; [exact Hq|].
    repeat constructor.
Qed.

(** ** The retry budget in general *)

Lemma sum_pow2 m :
  fold_right Z.add 0 (map (fun j => 2 ^ Z.of_nat j) (seq 0 m)) =
    2 ^ Z.of_nat m - 1.
Proof.
  induction m as [|m IH]; [reflexivity|].
  rewrite seq_S, map_app, fold_right_app. simpl.
  assert (forall (l : list Z) x,
            fold_right Z.add x l = fold_right Z.add 0 l + x) as Hshift.
  { induction l as [|y l IHl]; intros x; simpl; [lia|]. rewrite IHl. lia. }
  rewrite Hshift, IH.
  replace (Z.of_nat (S m)) with (Z.of_nat m + 1) by lia.
  rewrite Z.pow_add_r by lia. lia.
Qed.

(** The loop from iteration [attempt], with [n] iterations left of a
    budget [retries = attempt + n]. *)
Lemma retry_loop_backoff session url retries n :
  forall attempt w,
    (0 < n)%nat -> attempt + Z.of_nat n = retries ->
    exists v k evs,
      retry_loop session url retries n attempt w =
        (Returns v, mkWorld (calls w + k) (files w) (trace w ++ evs)) /\
      (1 <= k <= n)%nat /\
      gets evs = replicate k (EGet url) /\
      sleeps evs =
        map (fun j => 2 ^ (attempt + Z.of_nat j)) (seq 0 (k - 1)) /\
      (forall j, (j < k - 1)%nat ->
         fetch_result url (session url (calls w + j)%nat) = Returns PyNone) /\
      (is_not_none v = true ->
       fetch_result url (session url (calls w + (k - 1))%nat) = Returns v) /\
      (is_not_none v = false -> k = n /\ v = PyNone).
Proof.
  induction n as [|n IH]; intros attempt w Hn Hbudget; [lia|].
  rewrite retry_loop_S. cbv zeta.
  destruct (fetch_result_returns url (session url (calls w))) as [v Hv].
  rewrite Hv. destruct (is_not_none v) eqn:Hnn.
  - exists v, 1%nat, (fetch_events url (session url (calls w))).
    rewrite Nat.add_1_r, gets_fetch, sleeps_fetch. simpl.
    repeat split; try reflexivity; try lia; try congruence.
    intros _. rewrite Nat.add_0_r. exact Hv.
  - apply is_not_none_false in Hnn as ->.
    destruct n as [|n].
    + (* the last attempt: no sleep, the loop ends *)
      assert ((attempt <? retries - 1) = false) as Hlast
        by (apply Z.ltb_ge; lia).
      rewrite retry_loop_O. unfold after_fetch_events. simpl.
      rewrite Hlast. simpl.
      exists PyNone, 1%nat,
        (fetch_events url (session url (calls w)) ++
         [ELog ERROR (FailedAfterRetries retries url)]).
      split.
      { rewrite Nat.add_1_r, app_nil_r, <- app_assoc. reflexivity. }
      rewrite gets_app, sleeps_app, gets_fetch, sleeps_fetch. simpl.
      repeat split; try reflexivity; try lia. discriminate.
    + assert ((attempt <? retries - 1) = true) as Hmore
        by (apply Z.ltb_lt; lia).
      edestruct (IH (attempt + 1)) as (v' & k & evs & -> & Hk & Hg & Hs & Hf & Hok & Hko);
        [lia|lia|].
      simpl calls. simpl files. simpl trace.
      exists v', (S k),
        (fetch_events url (session url (calls w)) ++
         after_fetch_events retries url attempt (Returns PyNone) ++ evs).
      split.
      { f_equal. f_equal; [lia|]. rewrite <- !app_assoc. reflexivity. }
      unfold after_fetch_events. simpl. rewrite Hmore.
      rewrite !gets_app, !sleeps_app, gets_fetch, sleeps_fetch, Hg, Hs. simpl.
      split; [lia|]. split; [reflexivity|]. split.
      { replace (k - 0)%nat with (S (k - 1)) by lia. simpl.
        rewrite Z.add_0_r. f_equal.
        rewrite <- seq_shift, map_map. apply map_ext. intros j.
        f_equal. lia. }
      split.
      { intros j Hj. destruct j as [|j].
        - rewrite Nat.add_0_r. exact Hv.
        - replace (calls w + S j)%nat with (S (calls w) + j)%nat by lia.
          apply Hf. lia. }
      split.
      { intros Hnn. replace (calls w + (k - 0))%nat
          with (S (calls w) + (k - 1))%nat by lia.
        apply Hok. exact Hnn. }
      intros Hnn. destruct (Hko Hnn) as [-> ->]. split; reflexivity.
Qed.

(** X1.  For every budget of at least one attempt, [fetch_with_retry]
    issues between one and [retries] requests, all for its URL.  Before
    each request but the first it sleeps, for 1, 2, 4, ... seconds: after
    [k] requests it has slept [2^(k-1) - 1] seconds in all, at most
    [2^(retries-1) - 1].  It stops at the first attempt whose result is
    not [None]; it returns [None] only when the budget is used up. *)
Theorem fetch_with_retry_backoff (session : Session) (url : string)
    (retries : Z) (w : World) :
  1 <= retries ->
  exists v w' k,
    fetch_with_retry session url retries w = (Returns v, w') /\
    (1 <= k <= Z.to_nat retries)%nat /\
    calls w' = (calls w + k)%nat /\
    files w' = files w /\
    gets (events_since w w') = replicate k (EGet url) /\
    sleeps (events_since w w') =
      map (fun j => 2 ^ Z.of_nat j) (seq 0 (k - 1)) /\
    total_sleep (events_since w w') = 2 ^ (Z.of_nat k - 1) - 1 /\
    total_sleep (events_since w w') <= 2 ^ (retries - 1) - 1 /\
    (forall j, (j < k - 1)%nat ->
       attempt_outcome session url w j = Returns PyNone) /\
    (is_not_none v = true ->
     attempt_outcome session url w (k - 1) = Returns v) /\
    (is_not_none v = false -> k = Z.to_nat retries /\ v = PyNone).
Proof.
  intros Hr. unfold fetch_with_retry, attempt_outcome.
  destruct (retry_loop_backoff session url retries (Z.to_nat retries) 0 w)
    as (v & k & evs & -> & Hk & Hg & Hs & Hf & Hok & Hko); [lia|lia|].
  eexists v, _, k. split; [reflexivity|].
  rewrite events_since_app. simpl calls. simpl files.
  assert (sleeps evs = map (fun j => 2 ^ Z.of_nat j) (seq 0 (k - 1))) as Hs'.
  { rewrite Hs. apply map_ext. intros j. reflexivity. }
  assert (total_sleep evs = 2 ^ (Z.of_nat k - 1) - 1) as Ht.
  { unfold total_sleep. rewrite Hs', sum_pow2. do 2 f_equal. lia. }
  repeat split; try assumption; try lia; try apply Hko; try assumption.
  rewrite Ht.
  pose proof (Z.pow_le_mono_r 2 (Z.of_nat k - 1) (retries - 1)) as Hp. lia.
Qed.

Lemma fetch_with_retry_backoff_witness :
  exists v w' k,
    fetch_with_retry always_fails "https://collections.louvre.fr/x.json" 5
      empty_world = (Returns v, w') /\
    (1 <= k <= 5)%nat /\
    total_sleep (events_since empty_world w') <= 15.
Proof.
  destruct (fetch_with_retry_backoff always_fails
              "https://collections.louvre.fr/x.json" 5 empty_world)
    as (v & w' & k & Hrun & Hk & _ & _ & _ & _ & _ & Hle & _); [lia|].
  exists v, w', k. split; [exact Hrun|]. split; [exact Hk|exact Hle].
Defined.

(** ** One call of [fetch] *)

(** X2.  Whatever the server does, one call of [fetch] takes the permit
    first, issues exactly one request, for its URL, and gives the permit
    back as its last effect -- also when the request or the reading of
    the body raises -- and it never touches the output directory.  In
    between it records nothing exactly when the response has status
    200 and a JSON content type and its body parses: it then returns
    the parsed body, which is [None] when the body is [null].  In every
    other case it returns [None] and records exactly one warning or
    error line.  So [None] comes without any log line exactly for an
    accepted response whose body is [null]. *)
Theorem fetch_one_request_under_permit (session : Session) (url : string)
    (w : World) :
  let accepted v :=
    exists r,
      session url (calls w) = GetResponds r /\ status r = 200 /\
      str_contains "application/json" (headers_get_content_type r) = true /\
      body r = BodyJson v in
  exists v logs,
    fetch session url w =
      (Returns v,
       mkWorld (S (calls w)) (files w)
         (trace w ++ [EAcquire; EGet url] ++ logs ++ [ERelease])) /\
    ((logs = [] /\ accepted v) \/
     (exists level msg,
        logs = [ELog level msg] /\ v = PyNone /\
        (level = WARNING \/ level = ERROR) /\
        forall d, ~ accepted d)) /\
    (v = PyNone /\ logs = [] <-> accepted PyNone).
Proof.
  intros accepted. subst accepted. cbv beta. rewrite fetch_run.
  destruct (session url (calls w)) as [e|[st ct bd]] eqn:Ho.
  - destruct e; eexists _, [_]; (split; [reflexivity|]);
      (split;
       [right; eexists _, _; repeat split; auto;
        intros d (r & Hr & _); discriminate Hr
       |split; [intros [_ H]; discriminate H
               |intros (r & Hr & _); discriminate Hr]]).
  - unfold fetch_result, fetch_events, fetch, fetch_handlers. unfold_m. simpl.
    destruct (Z.eqb_spec st 200) as [Hst|Hst]; simpl.
    2: { eexists _, [_]. split; [reflexivity|]. split.
         - right. eexists _, _. repeat split; auto.
           intros d (r & [= <-] & Hs & _). simpl in Hs. contradiction.
         - split; [intros [_ H]; discriminate H|].
           intros (r & [= <-] & Hs & _). simpl in Hs. contradiction. }
    destruct (str_contains _ _) eqn:Hct; simpl.
    2: { eexists _, [_]. split; [reflexivity|]. split.
         - right. eexists _, _. repeat split; auto.
           intros d (r & [= <-] & _ & Hc & _).
           rewrite Hct in Hc. discriminate Hc.
         - split; [intros [_ H]; discriminate H|].
           intros (r & [= <-] & _ & Hc & _).
           rewrite Hct in Hc. discriminate Hc. }
    destruct bd as [v|e]; simpl.
    + exists v, []. split; [reflexivity|]. split.
      * left. split; [reflexivity|].
        eexists. repeat split; [exact Hst|exact Hct].
      * split.
        -- intros [-> _]. eexists. repeat split; [exact Hst|exact Hct].
        -- intros (r & [= <-] & _ & _ & Hb). simpl in Hb.
           injection Hb as ->. split; reflexivity.
    + destruct e; eexists _, [_]; (split; [reflexivity|]);
        (split;
         [right; eexists _, _; repeat split; auto;
          intros d (r & [= <-] & _ & _ & Hb); discriminate Hb
         |split; [intros [_ H]; discriminate H
                 |intros (r & [= <-] & _ & _ & Hb); discriminate Hb]]).
Qed.

(** ** The requests of a batch and of a run *)

Lemma sum_list_bounds (ks : list nat) :
  Forall (fun k => 1 <= k <= 3)%nat ks ->
  (length ks <= sum_list ks <= 3 * length ks)%nat.
Proof.
  induction 1 as [|k ks Hk _ IH]; simpl; lia.
Qed.

Lemma retry_loop_quiet session url retries n attempt w v c fs evs :
  retry_loop session url retries n attempt w =
    (Returns v, mkWorld c fs (trace w ++ evs)) ->
  Forall (fun e => quiet e = true) evs.
Proof.
  intros H.
  destruct (retry_loop_run session url retries n attempt w)
    as (v' & k & evs' & Hrun & _ & _ & Hq).
  rewrite Hrun in H. injection H as _ _ _ Htr.
  apply app_inv_head in Htr. subst evs'. exact Hq.
Qed.

Lemma gather_requests session (urls : list string) w :
  exists results evs ks,
    gather (map (fun url => fetch_with_retry session (full_url url) 3) urls) w =
      (Returns results,
       mkWorld (calls w + sum_list ks) (files w) (trace w ++ evs)) /\
    length results = length urls /\
    length ks = length urls /\
    Forall (fun k => 1 <= k <= 3)%nat ks /\
    gets evs = concat (zip_with requests_for urls ks) /\
    Forall (fun e => quiet e = true) evs.
Proof.
  revert w. induction urls as [|url urls IH]; intros w.
  - exists [], [], []. simpl. unfold ret.
    rewrite Nat.add_0_r, app_nil_r. destruct w. repeat split; constructor.
  - simpl. unfold bind at 1. unfold fetch_with_retry.
    destruct (retry_loop_backoff session (full_url url) 3 3 0 w)
      as (v & k & evs & Hloop & Hk & Hg & _); [lia|lia|].
    pose proof (retry_loop_quiet _ _ _ _ _ _ _ _ _ _ Hloop) as Hq.
    change (Z.to_nat 3) with 3%nat. rewrite Hloop.
    unfold bind at 1.
    edestruct IH as (rs & evs' & ks & -> & Hl & Hlk & Hks & Hg' & Hq').
    simpl calls. simpl files. simpl trace. unfold ret.
    exists (v :: rs), (evs ++ evs'), (k :: ks). split.
    { f_equal. f_equal; [simpl; lia|]. rewrite <- app_assoc. reflexivity. }
    repeat split; simpl; try congruence.
    + constructor; [lia|exact Hks].
    + rewrite gets_app, Hg, Hg'. reflexivity.
    + apply Forall_app. split; assumption.
Qed.

Lemma fetch_batch_requests session (urls : list string) batch_number w :
  exists results evs ks,
    fetch_batch session urls batch_number w =
      (Returns results,
       mkWorld (calls w + sum_list ks) (files w) (trace w ++ evs)) /\
    length results = length urls /\
    length ks = length urls /\
    Forall (fun k => 1 <= k <= 3)%nat ks /\
    gets evs = concat (zip_with requests_for urls ks) /\
    Forall (fun e => quiet e = true) evs.
Proof.
  unfold fetch_batch. cbv zeta. unfold bind at 1. unfold logger, emit.
  unfold bind at 1.
  edestruct (gather_requests session urls)
    as (rs & evs & ks & -> & Hl & Hlk & Hks & Hg & Hq).
  simpl calls. simpl files. simpl trace.
  unfold bind, ret. simpl.
  eexists rs, _, ks. split.
  { rewrite <- !app_assoc. reflexivity. }
  repeat split; try assumption.
  - simpl. rewrite gets_app. simpl. rewrite app_nil_r. exact Hg.
  - constructor; [reflexivity|]. apply Forall_app. split; [exact Hq|].
    repeat constructor.
Qed.

(** X3.  [fetch_batch] returns one result per URL of the batch and
    issues, for each URL, between one and three requests to
    [https://collections.louvre.fr<url>.json] and no other request:
    between [len(urls)] and [3 * len(urls)] in all.  (Under the schedule
    of [gather] that runs the tasks one after the other, the requests
    come in the order of the batch; the bound under every interleaving
    is proved on the event loop, further down.)  It writes no file, and
    for an empty batch it does nothing but record its two log lines. *)
Theorem fetch_batch_request_budget (session : Session) (urls : list string)
    (batch_number : Z) (w : World) :
  exists results w' ks,
    fetch_batch session urls batch_number w = (Returns results, w') /\
    length results = length urls /\
    length ks = length urls /\
    Forall (fun k => 1 <= k <= 3)%nat ks /\
    gets (events_since w w') = concat (zip_with requests_for urls ks) /\
    calls w' = (calls w + sum_list ks)%nat /\
    (length urls <= calls w' - calls w <= 3 * length urls)%nat /\
    files w' = files w /\
    (urls = [] ->
     results = [] /\ calls w' = calls w /\
     events_since w w' =
       [ELog INFO (BatchFetching batch_number 0);
        ELog INFO (BatchStats batch_number 0 0)]).
Proof.
  destruct (fetch_batch_requests session urls batch_number w)
    as (rs & evs & ks & Hrun & Hl & Hlk & Hks & Hg & _).
  eexists rs, _, ks. split; [exact Hrun|].
  rewrite events_since_app. simpl calls. simpl files.
  pose proof (sum_list_bounds ks Hks) as Hb.
  do 7 (split; [first [assumption | reflexivity | lia]|]).
  intros ->.
  destruct rs; [|discriminate Hl]. destruct ks; [|discriminate Hlk].
  split; [reflexivity|]. split; [simpl; lia|].
  unfold fetch_batch in Hrun. cbv zeta in Hrun.
  simpl in Hrun. unfold bind, logger, emit, ret in Hrun. simpl in Hrun.
  injection Hrun as _ Htr. rewrite <- app_assoc in Htr.
  apply app_inv_head in Htr. subst evs. reflexivity.
Qed.

(** ** The partition into batches *)

Lemma py_range_length lo hi : length (py_range lo hi) = Z.to_nat (hi - lo).
Proof. unfold py_range. rewrite length_map, length_seq. reflexivity. Qed.

Lemma py_range_snoc lo hi :
  lo <= hi -> py_range lo (hi + 1) = py_range lo hi ++ [hi].
Proof.
  intros H. unfold py_range.
  replace (Z.to_nat (hi + 1 - lo)) with (S (Z.to_nat (hi - lo))) by lia.
  rewrite seq_S, map_app. simpl. do 2 f_equal. lia.
Qed.

Lemma py_range_empty lo hi : hi <= lo -> py_range lo hi = [].
Proof.
  intros H. unfold py_range.
  replace (Z.to_nat (hi - lo)) with 0%nat by lia. reflexivity.
Qed.

Lemma py_range_cons lo hi :
  lo < hi -> py_range lo hi = lo :: py_range (lo + 1) hi.
Proof.
  intros H. unfold py_range.
  replace (Z.to_nat (hi - lo)) with (S (Z.to_nat (hi - (lo + 1)))) by lia.
  simpl. f_equal; [lia|].
  rewrite <- seq_shift, map_map. apply map_ext. intros k. lia.
Qed.

Lemma elem_of_py_range lo hi i : i ∈ py_range lo hi <-> lo <= i < hi.
Proof.
  unfold py_range. rewrite list_elem_of_fmap. split.
  - intros (k & -> & Hk). apply elem_of_seq in Hk. lia.
  - intros H. exists (Z.to_nat (i - lo)). split; [lia|].
    apply elem_of_seq. lia.
Qed.

(** Inside the list a slice is the plain [take] of a [drop]. *)
Lemma py_slice_inside {A} (l : list A) start stop :
  0 <= start <= stop -> stop <= Z.of_nat (length l) ->
  py_slice l start stop =
    take (Z.to_nat (stop - start)) (drop (Z.to_nat start) l).
Proof.
  intros H1 H2. unfold py_slice.
  destruct (Z.ltb_spec stop 0); [lia|].
  destruct (Z.ltb_spec start 0); [lia|].
  rewrite !Z.min_l by lia. reflexivity.
Qed.

(** [num_batches] is the ceiling of [total_urls / BATCH_SIZE]. *)
Lemma num_batches_ceil cfg total_urls :
  0 < BATCH_SIZE cfg ->
  (num_batches_of cfg total_urls - 1) * BATCH_SIZE cfg < total_urls /\
  total_urls <= num_batches_of cfg total_urls * BATCH_SIZE cfg.
Proof.
  intros HB. unfold num_batches_of.
  pose proof (Z.div_mod (total_urls + BATCH_SIZE cfg - 1) (BATCH_SIZE cfg)).
  pose proof (Z.mod_pos_bound (total_urls + BATCH_SIZE cfg - 1)
                (BATCH_SIZE cfg) HB).
  nia.
Qed.

Lemma num_batches_nonneg cfg total_urls :
  0 < BATCH_SIZE cfg -> 0 <= total_urls ->
  0 <= num_batches_of cfg total_urls.
Proof.
  intros HB HN. unfold num_batches_of. apply Z.div_pos; lia.
Qed.

Lemma batch_bounds cfg total_urls i :
  0 < BATCH_SIZE cfg -> 0 <= i < num_batches_of cfg total_urls ->
  0 <= start_idx_of cfg i /\
  start_idx_of cfg i < end_idx_of cfg total_urls i /\
  end_idx_of cfg total_urls i <= total_urls /\
  end_idx_of cfg total_urls i - start_idx_of cfg i <= BATCH_SIZE cfg.
Proof.
  intros HB Hi. destruct (num_batches_ceil cfg total_urls HB) as [H1 H2].
  unfold start_idx_of, end_idx_of. nia.
Qed.

Lemma batch_urls_inside cfg (df_urls : list string) i :
  0 < BATCH_SIZE cfg ->
  0 <= i < num_batches_of cfg (Z.of_nat (length df_urls)) ->
  batch_urls_of cfg df_urls i =
    take (Z.to_nat (end_idx_of cfg (Z.of_nat (length df_urls)) i
                    - start_idx_of cfg i))
      (drop (Z.to_nat (start_idx_of cfg i)) df_urls).
Proof.
  intros HB Hi.
  destruct (batch_bounds cfg (Z.of_nat (length df_urls)) i HB Hi)
    as (H1 & H2 & H3 & H4).
  unfold batch_urls_of. apply py_slice_inside; lia.
Qed.

(** The first [k] batches, concatenated, are the first
    [min(k * BATCH_SIZE, total_urls)] URLs. *)
Lemma batches_prefix cfg (df_urls : list string) (k : nat) :
  0 < BATCH_SIZE cfg ->
  Z.of_nat k <= num_batches_of cfg (Z.of_nat (length df_urls)) ->
  concat (map (batch_urls_of cfg df_urls) (py_range 0 (Z.of_nat k))) =
    take (Z.to_nat (Z.min (Z.of_nat k * BATCH_SIZE cfg)
                      (Z.of_nat (length df_urls)))) df_urls.
Proof.
  intros HB. induction k as [|k IH]; intros Hk.
  - simpl. rewrite Z.min_l by lia. reflexivity.
  - replace (Z.of_nat (S k)) with (Z.of_nat k + 1) by lia.
    rewrite py_range_snoc by lia.
    rewrite map_app, concat_app, IH by lia. simpl. rewrite app_nil_r.
    rewrite batch_urls_inside by lia.
    destruct (batch_bounds cfg (Z.of_nat (length df_urls)) (Z.of_nat k) HB)
      as (H1 & H2 & H3 & H4); [lia|].
    unfold start_idx_of, end_idx_of in *.
    rewrite (Z.min_l (Z.of_nat k * _)) by lia.
    rewrite take_take_drop. f_equal. lia.
Qed.

(** ** Artifact names *)

Lemma string_app_assoc (s1 s2 s3 : string) :
  (s1 +:+ s2) +:+ s3 = s1 +:+ (s2 +:+ s3).
Proof.
  induction s1 as [|c s1 IH]; [reflexivity|].
  change (String c ((s1 +:+ s2) +:+ s3) = String c (s1 +:+ (s2 +:+ s3))).
  f_equal. exact IH.
Qed.

Lemma digit_of_pretty d : (d < 10)%N -> digit_of (pretty_N_char d) = Some d.
Proof.
  intros H.
  assert (d = 0 \/ d = 1 \/ d = 2 \/ d = 3 \/ d = 4 \/ d = 5 \/ d = 6 \/
          d = 7 \/ d = 8 \/ d = 9)%N as Hd by lia.
  repeat (destruct Hd as [->|Hd]; [reflexivity|]). subst d. reflexivity.
Qed.

Lemma read_digits_pretty_go x :
  forall s, read_digits (pretty_N_go x s) 0 = read_digits s x.
Proof.
  induction (N.lt_wf_0 x) as [x _ IH]. intros s.
  destruct (N.eq_dec x 0%N) as [->|Hx].
  - rewrite pretty_N_go_0. reflexivity.
  - rewrite pretty_N_go_step by lia.
    rewrite IH by (apply N.div_lt; lia).
    simpl. rewrite digit_of_pretty by (apply N.mod_lt; lia).
    f_equal. pose proof (N.div_mod x 10). lia.
Qed.

Lemma pretty_N_go_app x : forall s t, pretty_N_go x s +:+ t = pretty_N_go x (s +:+ t).
Proof.
  induction (N.lt_wf_0 x) as [x _ IH]. intros s t.
  destruct (N.eq_dec x 0%N) as [->|Hx].
  - rewrite !pretty_N_go_0. reflexivity.
  - rewrite (pretty_N_go_step x s), (pretty_N_go_step x (s +:+ t)) by lia.
    rewrite IH by (apply N.div_lt; lia). reflexivity.
Qed.

Lemma read_digits_pretty (k : N) : read_digits (pretty k +:+ ".csv") 0 = k.
Proof.
  unfold pretty, pretty_N. destruct (decide (k = 0%N)) as [->|Hk].
  - reflexivity.
  - rewrite pretty_N_go_app, read_digits_pretty_go. reflexivity.
Qed.

Lemma read_digits_zeros n s :
  read_digits (string_of_list_ascii (replicate n "0"%char) +:+ s) 0 =
    read_digits s 0.
Proof. induction n as [|n IH]; [reflexivity|exact IH]. Qed.

Lemma read_digits_zfill width (k : N) :
  read_digits (zfill width (pretty k) +:+ ".csv") 0 = k.
Proof.
  unfold zfill. rewrite string_app_assoc, read_digits_zeros.
  apply read_digits_pretty.
Qed.

Lemma pretty_N_no_dash (k : N) s : pretty k <> String "-" s.
Proof.
  unfold pretty, pretty_N. destruct (decide (k = 0%N)); [discriminate|].
  apply (pretty_N_go_ne_dash k "" s). discriminate.
Qed.

Lemma read_int_zfill width (k : N) :
  read_int (zfill width (pretty k) +:+ ".csv") = Z.of_N k.
Proof.
  pose proof (read_digits_zfill width k) as Hread.
  unfold zfill in *.
  destruct (width - String.length (pretty k))%nat as [|n].
  - simpl in *. destruct (pretty k) as [|c r] eqn:E.
    + simpl in *. rewrite <- Hread. reflexivity.
    + simpl. destruct (Ascii.eqb_spec c "-") as [->|Hc].
      * exfalso. exact (pretty_N_no_dash k r E).
      * simpl in Hread. rewrite Hread. reflexivity.
  - simpl in *. rewrite Hread. reflexivity.
Qed.

(** The sequence number can be read back from the name. *)
Lemma read_batch_number_name batch_number :
  read_batch_number (batch_file_name batch_number) = batch_number.
Proof.
  unfold read_batch_number, batch_file_name.
  change (read_int (format_04d batch_number +:+ ".csv") = batch_number).
  unfold format_04d. destruct (Z.ltb_spec batch_number 0).
  - change (- Z.of_N (read_digits
                        (zfill 3 (pretty (Z.to_N (- batch_number))) +:+ ".csv")
                        0) = batch_number).
    rewrite read_digits_zfill. lia.
  - rewrite read_int_zfill. lia.
Qed.

(** Distinct sequence numbers name distinct artifacts. *)
Lemma batch_file_name_inj n m :
  batch_file_name n = batch_file_name m -> n = m.
Proof.
  intros H. rewrite <- (read_batch_number_name n), H.
  apply read_batch_number_name.
Qed.

(** ** [save_batch] *)

Lemma py_not_nil {A} (l : list A) : py_not l = true <-> l = [].
Proof. destruct l; simpl; split; congruence. Qed.

Lemma filter_not_none_nil data :
  py_not data = true -> py_not (List.filter is_not_none data) = true.
Proof. intros ->%py_not_nil. reflexivity. Qed.

(** The three outcomes of [save_batch]: no entry other than [None] is
    left; every entry left is a [dict]; one of them is not. *)
Lemma save_batch_run data batch_number w :
  save_batch data batch_number w =
    let filtered_data := List.filter is_not_none data in
    if py_not filtered_data then
      (Returns None,
       mkWorld (calls w) (files w)
         (trace w ++
          [ELog WARNING
             (if py_not data then BatchNoData batch_number
              else BatchAllFailed batch_number)]))
    else if forallb is_dict filtered_data then
      (Returns (Some (mkDataFrame filtered_data)),
       mkWorld (calls w)
         (<[batch_file_name batch_number := mkDataFrame filtered_data]>
            (files w))
         (trace w ++
          [ELog INFO
             (BatchSaved batch_number (length filtered_data)
                (batch_file_name batch_number))]))
    else (Raises TypeError, w).
Proof.
  unfold save_batch, json_normalize. cbv zeta.
  destruct (py_not data) eqn:Hd.
  - rewrite filter_not_none_nil by assumption. reflexivity.
  - destruct (py_not (List.filter is_not_none data)); [reflexivity|].
    destruct (forallb is_dict (List.filter is_not_none data)); reflexivity.
Qed.

Lemma filter_not_none_nil_iff data :
  List.filter is_not_none data = [] <-> Forall (fun d => d = PyNone) data.
Proof.
  induction data as [|d data IH]; simpl.
  - split; intros; [constructor|reflexivity].
  - destruct d; simpl; rewrite ?Forall_cons; unfold PyNone;
      try (split; [discriminate|intros [? ?]; discriminate]).
    rewrite IH. tauto.
Qed.

(** [save_batch] in terms of the table it writes. *)
Lemma save_batch_table data batch_number w :
  exists evs,
    save_batch data batch_number w =
      ((if savable data then Returns (table_of data) else Raises TypeError),
       mkWorld (calls w) (write_table (files w) batch_number data)
         (trace w ++ evs)) /\
    Forall (fun e => quiet e = true) evs /\ gets evs = [] /\
    without_logs evs = [] /\
    (savable data = true -> length evs = 1%nat).
Proof.
  rewrite save_batch_run. cbv zeta. unfold write_table, table_of, savable.
  cbv zeta.
  destruct (py_not (List.filter is_not_none data)) eqn:Hn.
  - apply py_not_nil in Hn. rewrite Hn. simpl.
    eexists [_]. split; [reflexivity|].
    destruct (py_not data); repeat split; repeat constructor.
  - destruct (forallb is_dict (List.filter is_not_none data)).
    + eexists [_]. split; [reflexivity|]. repeat split; repeat constructor.
    + exists []. rewrite app_nil_r. destruct w. simpl.
      split; [reflexivity|]. repeat split; try constructor. discriminate.
Qed.

(** C5, as stated, fails: [save_batch] does not look at the output
    directory before it writes, and an artifact that exists for the
    sequence number is replaced. *)
Lemma save_batch_overwrites :
  ~ (forall data batch_number w df,
       files w !! batch_file_name batch_number = Some df ->
       files (snd (save_batch data batch_number w))
         !! batch_file_name batch_number = Some df).
Proof.
  intros H.
  specialize (H [other_document] 1
                (mkWorld 0 {[batch_file_name 1 := mkDataFrame [sample_document]]} [])
                (mkDataFrame [sample_document])).
  rewrite save_batch_run in H. simpl in H.
  rewrite lookup_insert_eq in H.
  specialize (H (lookup_singleton_eq _ _)).
  discriminate H.
Qed.

(** C5, amended.  [save_batch] names the artifact after the sequence
    number padded with zeros to four digits, and no other sequence
    number has that name.  When at least one entry is not [None] and
    every such entry is a JSON object, it writes the table there,
    creating the file or replacing what it held, and touches no other
    file.  When no entry other than [None] is left it writes nothing
    and the directory is as before.  When an entry other than [None]
    is not a JSON object, [pd.json_normalize] raises [TypeError] before
    anything is written or logged: the state is as before. *)
Theorem save_batch_writes_named_artifact (data : list json)
    (batch_number : Z) (w : World) :
  let filtered_data := List.filter is_not_none data in
  batch_file_name batch_number =
    "batch_" +:+ format_04d batch_number +:+ ".csv" /\
  batch_file_name 1 = "batch_0001.csv" /\
  batch_file_name 42 = "batch_0042.csv" /\
  (forall m, batch_file_name m = batch_file_name batch_number ->
             m = batch_number) /\
  (filtered_data <> [] -> forallb is_dict filtered_data = true ->
   exists w',
     save_batch data batch_number w =
       (Returns (Some (mkDataFrame filtered_data)), w') /\
     files w' !! batch_file_name batch_number =
       Some (mkDataFrame filtered_data) /\
     forall f, f <> batch_file_name batch_number ->
       files w' !! f = files w !! f) /\
  (filtered_data = [] ->
   exists w',
     save_batch data batch_number w = (Returns None, w') /\
     files w' = files w) /\
  (forallb is_dict filtered_data = false ->
   save_batch data batch_number w = (Raises TypeError, w)).
Proof.
  intros filtered_data. subst filtered_data.
  rewrite save_batch_run. cbv zeta.
  split; [reflexivity|]. split; [reflexivity|]. split; [reflexivity|].
  split; [intros m; apply batch_file_name_inj|].
  destruct (py_not (List.filter is_not_none data)) eqn:Hf.
  - apply py_not_nil in Hf. rewrite Hf.
    split; [intros Hne; contradiction|].
    split; [intros _; eexists; split; reflexivity|].
    simpl. discriminate.
  - assert (List.filter is_not_none data <> []) as Hne.
    { intros E. apply py_not_nil in E. congruence. }
    split; [|split; [intros E; contradiction|]].
    + intros _ ->. eexists. split; [reflexivity|]. simpl. split.
      * apply lookup_insert_eq.
      * intros f Hf'. apply lookup_insert_ne. congruence.
    + intros ->. reflexivity.
Qed.

(** C6.  [save_batch] keeps exactly the entries that are not [None], in
    their order: a failed fetch contributes no row.  When none is left
    it returns [None] and the output directory is unchanged, so no
    artifact is created for the sequence number.  It returns exactly
    when every entry is [None] or a JSON object; for an entry that is
    neither, [pd.json_normalize] raises [TypeError] and the state is
    unchanged, so that no row is written either. *)
Theorem save_batch_drops_failures (data : list json) (batch_number : Z)
    (w : World) :
  exists r w',
    save_batch data batch_number w = (r, w') /\
    (forall df,
       r = Returns (Some df) ->
       rows df = List.filter is_not_none data /\
       Forall (fun d => d <> PyNone) (rows df) /\
       files w' !! batch_file_name batch_number = Some df) /\
    (Forall (fun d => d = PyNone) data ->
     r = Returns None /\ files w' = files w /\
     (files w !! batch_file_name batch_number = None ->
      files w' !! batch_file_name batch_number = None)) /\
    (r = Returns None <-> Forall (fun d => d = PyNone) data) /\
    ((exists v, r = Returns v) <->
     Forall (fun d => d = PyNone \/ is_dict d = true) data) /\
    (forall e, r = Raises e -> e = TypeError /\ w' = w).
Proof.
  pose proof (filter_not_none_nil_iff data) as Hnil.
  assert (Hdict : forallb is_dict (List.filter is_not_none data) = true <->
                  Forall (fun d => d = PyNone \/ is_dict d = true) data).
  { rewrite forallb_forall, Forall_forall. split.
    - intros H d Hd. destruct (is_not_none d) eqn:Hnn.
      + right. apply H, List.filter_In. split; [|exact Hnn].
        apply list_elem_of_In. exact Hd.
      + left. apply is_not_none_false. exact Hnn.
    - intros H d Hd. apply List.filter_In in Hd as [Hd Hnn].
      apply list_elem_of_In in Hd.
      destruct (H d Hd) as [->|Hdict]; [discriminate Hnn|exact Hdict]. }
  rewrite save_batch_run. cbv zeta.
  destruct (py_not (List.filter is_not_none data)) eqn:Hf.
  - eexists _, _. split; [reflexivity|].
    apply py_not_nil in Hf.
    assert (Forall (fun d => d = PyNone) data) as Hall by (apply Hnil, Hf).
    repeat split; intros; simpl; try discriminate; try tauto; eauto.
    eapply Forall_impl; [exact Hall|]. intros d ->. left. reflexivity.
  - assert (List.filter is_not_none data <> []) as Hne.
    { intros E. apply py_not_nil in E. congruence. }
    destruct (forallb is_dict (List.filter is_not_none data)) eqn:Hd.
    + eexists _, _. split; [reflexivity|].
      repeat split; intros; simpl in *; try tauto; try discriminate; eauto.
      * match goal with H : Returns _ = Returns _ |- _ =>
          injection H as <- end. reflexivity.
      * match goal with H : Returns _ = Returns _ |- _ =>
          injection H as <- end. simpl.
        apply List.Forall_forall. intros d Hd'.
        apply List.filter_In in Hd' as [_ Hd']. intros ->. discriminate.
      * match goal with H : Returns _ = Returns _ |- _ =>
          injection H as <- end. apply lookup_insert_eq.
    + eexists _, _. split; [reflexivity|].
      repeat split; intros; simpl in *; try tauto; try discriminate.
      * match goal with H : exists _, _ |- _ => destruct H as [? H] end.
        discriminate.
      * match goal with H : Forall _ data |- _ => apply Hdict in H end.
        discriminate.
      * congruence.
Qed.

(** ** What [fetch_batch] depends on

    [fetch_batch] reads the number of requests issued so far, which the
    session answers by, and nothing else of the state. *)

Lemma retry_loop_by_calls session url retries n :
  forall attempt w1 w2,
    calls w1 = calls w2 ->
    fst (retry_loop session url retries n attempt w1) =
      fst (retry_loop session url retries n attempt w2) /\
    calls (snd (retry_loop session url retries n attempt w1)) =
      calls (snd (retry_loop session url retries n attempt w2)).
Proof.
  induction n as [|n IH]; intros attempt w1 w2 Hc.
  - rewrite !retry_loop_O. simpl. auto.
  - rewrite !retry_loop_S. cbv zeta. rewrite <- Hc.
    destruct (fetch_result url (session url (calls w1))) as [v|e];
      [|simpl; auto].
    destruct (is_not_none v); [simpl; auto|].
    apply IH. reflexivity.
Qed.

Lemma gather_cons {A} (t : M A) (ts : list (M A)) w :
  gather (t :: ts) w =
    match t w with
    | (Returns r, w1) =>
        match gather ts w1 with
        | (Returns rs, w2) => (Returns (r :: rs), w2)
        | (Raises e, w2) => (Raises e, w2)
        end
    | (Raises e, w1) => (Raises e, w1)
    end.
Proof.
  simpl. unfold bind, ret. destruct (t w) as [[r|e] w1]; [|reflexivity].
  destruct (gather ts w1) as [[rs|e] w2]; reflexivity.
Qed.

Lemma gather_by_calls session retries (urls : list string) :
  forall w1 w2,
    calls w1 = calls w2 ->
    fst (gather (map (fun url => fetch_with_retry session (full_url url)
                                   retries) urls) w1) =
      fst (gather (map (fun url => fetch_with_retry session (full_url url)
                                     retries) urls) w2) /\
    calls (snd (gather (map (fun url => fetch_with_retry session
                                          (full_url url) retries) urls) w1)) =
      calls (snd (gather (map (fun url => fetch_with_retry session
                                            (full_url url) retries) urls) w2)).
Proof.
  induction urls as [|url urls IH]; intros w1 w2 Hc; [simpl; auto|].
  cbn [map]. rewrite !gather_cons.
  pose proof (retry_loop_by_calls session (full_url url) retries
                (Z.to_nat retries) 0 w1 w2 Hc) as [Hv Hk].
  change (retry_loop session (full_url url) retries (Z.to_nat retries) 0)
    with (fetch_with_retry session (full_url url) retries) in Hv, Hk.
  destruct (fetch_with_retry session (full_url url) retries w1)
    as [[v1|e1] w1'];
    destruct (fetch_with_retry session (full_url url) retries w2)
      as [[v2|e2] w2']; simpl in Hv, Hk; try discriminate Hv.
  - injection Hv as <-.
    specialize (IH w1' w2' Hk). destruct IH as [IHv IHk].
    destruct (gather _ w1') as [[rs1|x1] w1''];
      destruct (gather _ w2') as [[rs2|x2] w2'']; simpl in *;
      try discriminate IHv; split; congruence.
  - injection Hv as ->. split; [reflexivity|exact Hk].
Qed.

(** [fetch_batch], step by step. *)
Lemma fetch_batch_eq session (urls : list string) batch_number w :
  fetch_batch session urls batch_number w =
    match
      gather (map (fun url => fetch_with_retry session (full_url url) 3) urls)
        (mkWorld (calls w) (files w)
           (trace w ++ [ELog INFO (BatchFetching batch_number (length urls))]))
    with
    | (Returns results, w1) =>
        (Returns results,
         mkWorld (calls w1) (files w1)
           (trace w1 ++
            [ELog INFO
               (BatchStats batch_number (count_not_none results)
                  (Z.of_nat (length results) - count_not_none results))]))
    | (Raises e, w1) => (Raises e, w1)
    end.
Proof.
  unfold fetch_batch. cbv zeta. rewrite length_map.
  unfold bind, logger, emit, ret.
  destruct (gather _ _) as [[results|e] w1]; reflexivity.
Qed.

Lemma fetch_batch_by_calls session (urls : list string) n1 n2 w1 w2 :
  calls w1 = calls w2 ->
  fst (fetch_batch session urls n1 w1) = fst (fetch_batch session urls n2 w2) /\
  calls (snd (fetch_batch session urls n1 w1)) =
    calls (snd (fetch_batch session urls n2 w2)).
Proof.
  intros Hc. rewrite !fetch_batch_eq.
  match goal with
  | |- context [gather ?ts ?W1] =>
      match goal with
      | |- context [gather ts ?W2] =>
          tryif constr_eq W1 W2 then fail else
            pose proof (gather_by_calls session 3 urls W1 W2 Hc) as [Hv Hk]
      end
  end.
  destruct (gather _ _) as [[rs1|e1] w1'] in Hv, Hk |- *;
    destruct (gather _ _) as [[rs2|e2] w2'] in Hv, Hk |- *;
    simpl in *; try discriminate Hv; split; congruence.
Qed.

(** [fetch_batch] returns [batch_results] after [batch_requests]
    requests, whatever the files, the trace and the batch number. *)
Lemma fetch_batch_tie session (urls : list string) batch_number w :
  exists evs ks,
    fetch_batch session urls batch_number w =
      (Returns (batch_results session urls (calls w)),
       mkWorld (calls w + batch_requests session urls (calls w)) (files w)
         (trace w ++ evs)) /\
    Forall (fun e => quiet e = true) evs /\
    length (batch_results session urls (calls w)) = length urls /\
    batch_requests session urls (calls w) = sum_list ks /\
    length ks = length urls /\
    Forall (fun k => 1 <= k <= 3)%nat ks /\
    gets evs = concat (zip_with requests_for urls ks).
Proof.
  destruct (fetch_batch_requests session urls batch_number w)
    as (data & evs & ks & E & Hl & Hlk & Hks & Hg & Hq).
  destruct (fetch_batch_run session urls 0 (mkWorld (calls w) ∅ []))
    as (data0 & k0 & evs0 & E0 & _).
  pose proof (fetch_batch_by_calls session urls batch_number 0 w
                (mkWorld (calls w) ∅ []) eq_refl) as [Hv Hc].
  rewrite E, E0 in Hv, Hc. simpl in Hv, Hc. injection Hv as <-.
  assert (batch_results session urls (calls w) = data) as Er
    by (unfold batch_results; rewrite E0; reflexivity).
  assert (batch_requests session urls (calls w) = sum_list ks) as Ek
    by (unfold batch_requests; rewrite E0; simpl; lia).
  exists evs, ks. rewrite Er, Ek. repeat split; assumption.
Qed.

(** What a coroutine of [fetch_with_retry] returns is [None] or what
    [fetch] made of one of the answers of the session. *)
Lemma retry_loop_result session url retries n :
  forall attempt w v w',
    retry_loop session url retries n attempt w = (Returns v, w') ->
    v = PyNone \/ exists k, fetch_result url (session url k) = Returns v.
Proof.
  induction n as [|n IH]; intros attempt w v w'.
  - rewrite retry_loop_O. intros [= <- _]. left. reflexivity.
  - rewrite retry_loop_S. cbv zeta.
    destruct (fetch_result url (session url (calls w))) as [v0|e] eqn:Hv;
      [|discriminate].
    destruct (is_not_none v0).
    + intros [= <- _]. right. eauto.
    + apply IH.
Qed.

Lemma gather_results_of session retries (urls : list string) :
  forall w results w',
    gather (map (fun url => fetch_with_retry session (full_url url) retries)
              urls) w = (Returns results, w') ->
    Forall (fun v => v = PyNone \/
                     exists url k, fetch_result url (session url k) = Returns v)
      results.
Proof.
  induction urls as [|url urls IH]; intros w results w'.
  - simpl. unfold ret. intros [= <- _]. constructor.
  - cbn [map]. rewrite gather_cons.
    destruct (fetch_with_retry session (full_url url) retries w)
      as [[v|e] w1] eqn:E1; [|discriminate].
    destruct (gather _ w1) as [[rs|e] w2] eqn:E2; [|discriminate].
    intros [= <- _]. constructor.
    + apply retry_loop_result in E1 as [->|[k Hk]]; [left; reflexivity|].
      right. eauto.
    + eapply IH. exact E2.
Qed.

(** On a server of documents, [save_batch] gets through every batch. *)
Lemma serves_documents_savable session (urls : list string) c :
  serves_documents session -> savable (batch_results session urls c) = true.
Proof.
  intros Hdoc. unfold batch_results. rewrite fetch_batch_eq.
  destruct (gather _ _) as [[results|e] w1] eqn:E; [|reflexivity].
  cbn [fst]. apply gather_results_of in E.
  unfold savable. apply forallb_forall. intros v Hv.
  apply List.filter_In in Hv as [Hin Hnn].
  rewrite Forall_forall in E. apply list_elem_of_In in Hin.
  destruct (E v Hin) as [->|(url & k & Hk)]; [discriminate Hnn|].
  specialize (Hdoc url k v Hk). unfold is_not_none in Hnn.
  destruct (is_none v); [discriminate Hnn|exact Hdoc].
Qed.

(** ** Pacing *)

Section Pacing.
Variable expected : event -> option nat.
Hypothesis expected_marker :
  forall e, is_marker e = false -> expected e = None.

Lemma cooldowns_until_marker_app l rest :
  Forall (fun e => is_marker e = false) l ->
  cooldowns_until_marker (l ++ rest) =
    (cooldowns l + cooldowns_until_marker rest)%nat.
Proof.
  induction 1 as [|e l He _ IH]; [reflexivity|].
  simpl. rewrite He, IH. unfold cooldowns. simpl.
  destruct (is_cooldown e); simpl; lia.
Qed.

Lemma paced_app l rest :
  Forall (fun e => is_marker e = false) l ->
  paced expected (l ++ rest) = paced expected rest.
Proof.
  induction 1 as [|e l He _ IH]; [reflexivity|].
  simpl. rewrite (expected_marker e He). exact IH.
Qed.

Lemma cooldowns_until_marker_head rest :
  match rest with [] => True | e :: _ => is_marker e = true end ->
  cooldowns_until_marker rest = 0%nat.
Proof. destruct rest as [|e rest]; [reflexivity|]. simpl. intros ->. reflexivity. Qed.

(** One iteration of a coordinator loop: the marker, the effects of
    the batch, the cooldown if any, then the remaining iterations. *)
Lemma paced_iteration m k body tail rest :
  expected m = Some k ->
  Forall (fun e => is_marker e = false) (body ++ tail) ->
  cooldowns (body ++ tail) = k ->
  match rest with [] => True | e :: _ => is_marker e = true end ->
  paced expected rest = true ->
  paced expected (m :: (body ++ tail) ++ rest) = true.
Proof.
  intros Hm Hbt Hk Hhead Hrest. simpl. rewrite Hm.
  rewrite cooldowns_until_marker_app by assumption.
  rewrite cooldowns_until_marker_head by assumption.
  rewrite paced_app by assumption.
  rewrite Hrest, Hk, Nat.add_0_r, Nat.eqb_refl. reflexivity.
Qed.
End Pacing.

Lemma quiet_no_marker evs :
  Forall (fun e => quiet e = true) evs ->
  Forall (fun e => is_marker e = false) evs.
Proof.
  intros H. eapply Forall_impl; [exact H|].
  intros e. unfold quiet. destruct (is_marker e); simpl; congruence.
Qed.

Lemma quiet_no_cooldown evs :
  Forall (fun e => quiet e = true) evs -> cooldowns evs = 0%nat.
Proof.
  unfold cooldowns. induction 1 as [|e l He _ IH]; [reflexivity|].
  simpl. unfold quiet in He. destruct (is_cooldown e); simpl.
  - rewrite andb_false_r in He. discriminate.
  - exact IH.
Qed.

Lemma cooldowns_app l1 l2 :
  cooldowns (l1 ++ l2) = (cooldowns l1 + cooldowns l2)%nat.
Proof. unfold cooldowns. rewrite List.filter_app, length_app. reflexivity. Qed.

Lemma started_batches_app l1 l2 :
  started_batches (l1 ++ l2) = started_batches l1 ++ started_batches l2.
Proof. apply omap_app. Qed.

Lemma started_batches_no_marker evs :
  Forall (fun e => is_marker e = false) evs -> started_batches evs = [].
Proof.
  induction 1 as [|e l He _ IH]; [reflexivity|].
  destruct e as [| | | |lv []]; try discriminate He;
    change (started_batches l = []); exact IH.
Qed.

Lemma spec_pacing_marker num_batches e :
  is_marker e = false -> spec_pacing num_batches e = None.
Proof.
  unfold is_marker, spec_pacing. destruct (batch_marker e); congruence.
Qed.

Lemma script_pacing_marker num_batches e :
  is_marker e = false -> script_pacing num_batches e = None.
Proof.
  intros H. unfold script_pacing.
  rewrite (spec_pacing_marker _ _ H).
  destruct e as [| | | |lv []]; simpl in *; try reflexivity; discriminate.
Qed.

(** ** Lists, sums and the output directory *)

Lemma sum_list_append (l1 l2 : list nat) :
  sum_list (l1 ++ l2) = (sum_list l1 + sum_list l2)%nat.
Proof. induction l1 as [|x l1 IH]; simpl; [reflexivity|]. rewrite IH. lia. Qed.

Lemma omap_cons_option_list {A B} (f : A -> option B) x l :
  omap f (x :: l) = option_list (f x) ++ omap f l.
Proof. simpl. destruct (f x); reflexivity. Qed.


Lemma NoDup_py_range lo hi : NoDup (py_range lo hi).
Proof.
  unfold py_range. apply NoDup_fmap_2; [|apply NoDup_seq].
  intros a b H. lia.
Qed.

Lemma for_each_cons {A S} (body : A -> S -> M S) x l s w :
  for_each (x :: l) body s w =
    match body x s w with
    | (Returns s', w') => for_each l body s' w'
    | (Raises e, w') => (Raises e, w')
    end.
Proof. reflexivity. Qed.

Lemma write_table_lookup fs batch_number data f :
  write_table fs batch_number data !! f =
    if decide (f = batch_file_name batch_number) then
      match table_of data with
      | Some df => Some df
      | None => fs !! f
      end
    else fs !! f.
Proof.
  unfold write_table. destruct (table_of data) as [df|].
  - destruct (decide (f = batch_file_name batch_number)) as [->|Hne].
    + apply lookup_insert_eq.
    + apply lookup_insert_ne. congruence.
  - destruct (decide _); reflexivity.
Qed.

Lemma write_tables_cons fs b batches :
  write_tables fs (b :: batches) =
    write_tables (write_table fs (fst b + 1) (snd b)) batches.
Proof. reflexivity. Qed.

Lemma write_tables_other batches : forall fs f,
  (forall b, b ∈ batches -> f <> batch_file_name (fst b + 1)) ->
  write_tables fs batches !! f = fs !! f.
Proof.
  induction batches as [|b batches IH]; intros fs f H; [reflexivity|].
  rewrite write_tables_cons, IH.
  - rewrite write_table_lookup.
    destruct (decide _) as [E|_]; [|reflexivity].
    exfalso. apply (H b); [left|exact E].
  - intros b' Hb'. apply H. right. exact Hb'.
Qed.

Lemma write_tables_lookup batches : forall fs i data,
  NoDup (map fst batches) ->
  (i, data) ∈ batches ->
  write_tables fs batches !! batch_file_name (i + 1) =
    match table_of data with
    | Some df => Some df
    | None => fs !! batch_file_name (i + 1)
    end.
Proof.
  induction batches as [|[j d] batches IH]; intros fs i data Hnd Hin.
  - inversion Hin.
  - simpl in Hnd. apply NoDup_cons in Hnd as [Hj Hnd].
    rewrite write_tables_cons. cbn [fst snd].
    apply elem_of_cons in Hin as [[= <- <-]|Hin].
    + rewrite write_tables_other.
      * rewrite write_table_lookup, decide_True by reflexivity. reflexivity.
      * intros [k d'] Hk E. apply batch_file_name_inj in E. simpl in E.
        apply Hj. apply list_elem_of_fmap. exists (k, d').
        split; [simpl; lia|exact Hk].
    + rewrite (IH _ i data Hnd Hin).
      rewrite write_table_lookup.
      destruct (decide _) as [E|_]; [|reflexivity].
      exfalso. apply batch_file_name_inj in E.
      apply Hj. apply list_elem_of_fmap. exists (i, data).
      split; [simpl; lia|exact Hin].
Qed.

Lemma on_disk_write_table fs i data j :
  i <> j ->
  on_disk (write_table fs (i + 1) data) j = on_disk fs j.
Proof.
  intros Hne. unfold on_disk. rewrite write_table_lookup.
  destruct (decide _) as [E|_]; [|reflexivity].
  apply batch_file_name_inj in E. lia.
Qed.

(** Batches laid end to end: the requests of the batches are the
    requests of the concatenated list. *)
Lemma requests_of_batches {I} (urls_of : I -> list string) (l : list I)
    (kss : list (list nat)) :
  Forall2 (fun i ks => length ks = length (urls_of i) /\
                       Forall (fun k => 1 <= k <= 3)%nat ks) l kss ->
  concat (zip_with (fun i ks => concat (zip_with requests_for (urls_of i) ks))
            l kss) =
    concat (zip_with requests_for (concat (map urls_of l)) (concat kss)) /\
  length (concat kss) = length (concat (map urls_of l)) /\
  Forall (fun k => 1 <= k <= 3)%nat (concat kss).
Proof.
  induction 1 as [|i ks l kss [Hlen Hks] _ (IH1 & IH2 & IH3)]; simpl.
  - repeat split. constructor.
  - rewrite IH1, zip_with_app by (symmetry; exact Hlen).
    rewrite concat_app, !length_app, IH2, Hlen.
    repeat split. apply Forall_app. split; assumption.
Qed.

(** ** The batches of a run

    [fetched] lists the batches of a run in closed form; these are its
    shape: a prefix of the loop indices, every batch but the last one
    saved, and all of the indices when the last one is saved too. *)

Lemma all_saved_cons b bs :
  all_saved (b :: bs) = savable (snd b) && all_saved bs.
Proof. reflexivity. Qed.

Lemma fetched_shape session urls_of l :
  forall c,
    let bs := fetched session urls_of l c in
    map fst bs = take (length bs) l /\
    (length bs <= length l)%nat /\
    (forall j b, bs !! j = Some b -> (S j < length bs)%nat ->
                 savable (snd b) = true) /\
    (all_saved bs = true -> length bs = length l) /\
    (all_saved bs = false ->
     exists b, last bs = Some b /\ savable (snd b) = false).
Proof.
  induction l as [|i l IH]; intros c bs; subst bs.
  - simpl. repeat split; try lia; try discriminate.
  - cbn [fetched].
    set (data := batch_results session (urls_of i) c).
    destruct (savable data) eqn:Hs.
    + specialize (IH (c + batch_requests session (urls_of i) c)%nat).
      cbv zeta in IH. destruct IH as (I1 & I2 & I3 & I4 & I5).
      set (bs := fetched session urls_of l _) in *.
      rewrite all_saved_cons. cbn [snd length map fst take].
      rewrite Hs, I1. cbn [andb].
      split; [reflexivity|]. split; [lia|]. split; [|split].
      * intros [|j] b Hj Hlt.
        -- injection Hj as <-. exact Hs.
        -- apply (I3 j b Hj). lia.
      * intros H. rewrite (I4 H). reflexivity.
      * intros H. destruct (I5 H) as (b & Hlast & Hb).
        exists b. split; [|exact Hb].
        destruct bs as [|b0 bs0]; [discriminate Hlast|].
        exact Hlast.
    + cbn [length map fst take]. rewrite all_saved_cons. cbn [snd].
      rewrite Hs. cbn [andb]. rewrite take_0.
      split; [reflexivity|]. split; [lia|]. split; [|split].
      * intros [|j] b Hj Hlt; simpl in Hlt; [lia|discriminate Hj].
      * discriminate.
      * intros _. exists (i, data). split; [reflexivity|exact Hs].
Qed.

Lemma serves_documents_all_saved session urls_of l :
  serves_documents session ->
  forall c, all_saved (fetched session urls_of l c) = true.
Proof.
  intros Hdoc. induction l as [|i l IH]; intros c; [reflexivity|].
  cbn [fetched]. rewrite all_saved_cons. cbn [snd].
  rewrite (serves_documents_savable session (urls_of i) c Hdoc).
  apply IH.
Qed.

(** The results of a batch of a run are those [fetch_batch] returns for
    its identifiers from the number of requests issued before it. *)
Lemma batch_results_returned session (urls : list string) c batch_number w :
  calls w = c ->
  fst (fetch_batch session urls batch_number w) =
    Returns (batch_results session urls c).
Proof.
  intros <-.
  destruct (fetch_batch_tie session urls batch_number w) as (evs & ks & -> & _).
  reflexivity.
Qed.


(** ** [process_all_batches] *)

(** Iteration [i]: the marker, the quiet effects of the batch, and the
    pause unless the batch is the last; when [save_batch] raises, the
    iteration ends there, after the fetch and before any pause. *)
Lemma process_all_batches_body_run cfg session (df_urls : list string)
    num_batches i all_dataframes w :
  let urls := batch_urls_of cfg df_urls i in
  let data := batch_results session urls (calls w) in
  exists evs ks,
    process_all_batches_body cfg session df_urls num_batches i
        all_dataframes w =
      ((if savable data
        then Returns (all_dataframes ++ option_list (table_of data))
        else Raises TypeError),
       mkWorld (calls w + batch_requests session urls (calls w))
         (write_table (files w) (i + 1) data)
         (trace w ++
          ELog INFO
            (StartingBatch (i + 1) num_batches (start_idx_of cfg i)
               (end_idx_of cfg (Z.of_nat (length df_urls)) i))
          :: (evs ++
              if savable data && (i <? num_batches - 1)
              then [ELog INFO Pausing; ESleep 5]
              else []))) /\
    Forall (fun e => quiet e = true) evs /\
    length data = length urls /\
    batch_requests session urls (calls w) = sum_list ks /\
    length ks = length urls /\
    Forall (fun k => 1 <= k <= 3)%nat ks /\
    gets evs = concat (zip_with requests_for urls ks).
Proof.
  intros urls data. unfold process_all_batches_body. cbv zeta.
  unfold bind at 1. unfold logger at 1, emit at 1.
  unfold bind at 1.
  edestruct (fetch_batch_tie session (batch_urls_of cfg df_urls i) (i + 1))
    as (evs & ks & -> & Hq & Hl & Hk & Hlk & Hks & Hg).
  cbn [calls files trace] in *. fold urls in Hl, Hk, Hlk, Hg |- *.
  fold data in Hl |- *.
  unfold bind at 1.
  edestruct (save_batch_table data (i + 1)) as (sevs & -> & Hsq & Hsg & _).
  cbn [calls files trace].
  exists (evs ++ sevs), ks. split.
  - destruct (savable data); cbn [andb].
    + destruct (table_of data) as [df|]; destruct (i <? num_batches - 1);
        unfold_m; simpl; rewrite <- !app_assoc; simpl;
        rewrite ?app_nil_r; reflexivity.
    + rewrite <- !app_assoc. simpl. rewrite ?app_nil_r. reflexivity.
  - split; [apply Forall_app; split; assumption|].
    repeat split; try assumption.
    rewrite gets_app, Hsg, app_nil_r. exact Hg.
Qed.

(** The loop of [process_all_batches] over the indices [l], in terms of
    the batches [fetched]. *)
Lemma process_all_batches_loop cfg session (df_urls : list string)
    num_batches l :
  forall all_dataframes w,
    let urls_of := batch_urls_of cfg df_urls in
    let marker i :=
      ELog INFO
        (StartingBatch (i + 1) num_batches (start_idx_of cfg i)
           (end_idx_of cfg (Z.of_nat (length df_urls)) i)) in
    let pauses b := savable (snd b) && (fst b <? num_batches - 1) in
    let bs := fetched session urls_of l (calls w) in
    exists w' evs kss,
      for_each l (process_all_batches_body cfg session df_urls num_batches)
          all_dataframes w =
        ((if all_saved bs
          then Returns (all_dataframes ++ omap (fun b => table_of (snd b)) bs)
          else Raises TypeError), w') /\
      trace w' = trace w ++ evs /\
      calls w' = (calls w + sum_list (concat kss))%nat /\
      files w' = write_tables (files w) bs /\
      Forall2 (fun b ks =>
                 length (snd b) = length (urls_of (fst b)) /\
                 length ks = length (urls_of (fst b)) /\
                 Forall (fun k => 1 <= k <= 3)%nat ks) bs kss /\
      gets evs =
        concat (zip_with
                  (fun b ks =>
                     concat (zip_with requests_for (urls_of (fst b)) ks))
                  bs kss) /\
      started_batches evs =
        map (fun i => (i + 1, start_idx_of cfg i,
                       end_idx_of cfg (Z.of_nat (length df_urls)) i))
          (map fst bs) /\
      match evs with [] => l = [] | e :: _ => is_marker e = true end /\
      cooldowns evs = length (List.filter pauses bs) /\
      (forall expected,
         (forall e, is_marker e = false -> expected e = None) ->
         (forall b, b ∈ bs ->
            expected (marker (fst b)) =
              Some (if pauses b then 1%nat else 0%nat)) ->
         paced expected evs = true).
Proof.
  induction l as [|i l IH]; intros acc w urls_of marker pauses bs;
    subst bs.
  - exists w, [], []. simpl. unfold ret.
    rewrite !app_nil_r, Nat.add_0_r. repeat split; constructor.
  - rewrite for_each_cons.
    destruct (process_all_batches_body_run cfg session df_urls num_batches i
                acc w) as (q & ks & -> & Hq & Hl & Hk & Hlk & Hks & Hg).
    cbn [fetched]. fold urls_of in Hl, Hk, Hlk, Hg |- *.
    set (data := batch_results session (urls_of i) (calls w)) in *.
    set (tail := if savable data && (i <? num_batches - 1)
                 then [ELog INFO Pausing; ESleep 5] else []).
    assert (Forall (fun e => is_marker e = false) (q ++ tail)) as Hnm.
    { apply Forall_app. split; [apply quiet_no_marker, Hq|].
      subst tail. destruct (savable data && (i <? num_batches - 1));
        repeat constructor. }
    assert (cooldowns (q ++ tail) =
            if savable data && (i <? num_batches - 1) then 1%nat else 0%nat)
      as Hcd.
    { rewrite cooldowns_app, (quiet_no_cooldown q Hq). subst tail.
      destruct (savable data && (i <? num_batches - 1)); reflexivity. }
    destruct (savable data) eqn:Hs.
    + match goal with
      | |- context [for_each l _ ?acc1 ?w1] =>
          destruct (IH acc1 w1)
            as (w' & evs & kss & -> & Ht & Hc & Hf & H2 & Hge & Hst & Hh &
                Hcl & Hp)
      end.
      cbn [calls files trace] in *.
      set (bs := fetched session urls_of l _) in *.
      exists w', (marker i :: (q ++ tail) ++ evs), (ks :: kss).
      rewrite all_saved_cons. cbn [snd]. rewrite Hs. cbn [andb].
      split.
      { rewrite omap_cons_option_list. cbn [snd].
        rewrite <- !app_assoc. reflexivity. }
      split.
      { rewrite Ht. cbn [trace]. rewrite <- ?app_assoc. simpl.
        rewrite <- ?app_assoc. reflexivity. }
      split.
      { rewrite Hc. simpl. rewrite sum_list_append. lia. }
      split; [rewrite Hf; reflexivity|].
      split; [constructor; [repeat split; assumption|exact H2]|].
      split.
      { change (gets (marker i :: ?X)) with (gets X).
        rewrite !gets_app, Hge. cbn [zip_with concat fst].
        rewrite Hg. f_equal.
        subst tail. destruct (true && (i <? num_batches - 1));
          simpl; rewrite app_nil_r; reflexivity. }
      split.
      { change (started_batches (marker i :: ?X)) with
          ((i + 1, start_idx_of cfg i,
            end_idx_of cfg (Z.of_nat (length df_urls)) i)
           :: started_batches X).
        rewrite started_batches_app, (started_batches_no_marker _ Hnm), Hst.
        reflexivity. }
      split; [reflexivity|].
      split.
      { change (cooldowns (marker i :: ?X)) with (cooldowns X).
        rewrite cooldowns_app, Hcd, Hcl. cbn [List.filter].
        unfold pauses at 1. cbn [fst snd]. rewrite Hs.
        destruct (true && (i <? num_batches - 1)); reflexivity. }
      intros expected Hexp Hm.
      apply paced_iteration with
        (k := if true && (i <? num_batches - 1) then 1%nat else 0%nat);
        try assumption.
      * pose proof (Hm (i, data)) as Hmi. cbn [fst snd] in Hmi.
        rewrite Hmi by left. unfold pauses. cbn [fst snd].
        rewrite Hs. reflexivity.
      * destruct evs; [exact I|exact Hh].
      * apply Hp; [exact Hexp|]. intros b Hb. apply Hm. right. exact Hb.
    + subst tail. cbn [andb] in Hnm, Hcd |- *.
      exists (mkWorld (calls w + batch_requests session (urls_of i) (calls w))
                (write_table (files w) (i + 1) data)
                (trace w ++ marker i :: (q ++ []))),
        (marker i :: (q ++ []) ++ []), [ks].
      rewrite all_saved_cons. cbn [snd]. rewrite Hs. cbn [andb].
      split; [reflexivity|].
      split; [cbn [trace]; rewrite !app_nil_r; reflexivity|].
      split.
      { cbn [calls]. simpl. rewrite app_nil_r. lia. }
      split; [reflexivity|].
      split; [repeat constructor; assumption|].
      split.
      { change (gets (marker i :: ?X)) with (gets X).
        rewrite !app_nil_r. cbn [zip_with concat fst].
        rewrite Hg, !app_nil_r. reflexivity. }
      split.
      { change (started_batches (marker i :: ?X)) with
          ((i + 1, start_idx_of cfg i,
            end_idx_of cfg (Z.of_nat (length df_urls)) i)
           :: started_batches X).
        rewrite app_nil_r, (started_batches_no_marker _ Hnm). reflexivity. }
      split; [reflexivity|].
      split.
      { change (cooldowns (marker i :: ?X)) with (cooldowns X).
        rewrite app_nil_r, Hcd. cbn [List.filter].
        unfold pauses. cbn [fst snd]. rewrite Hs. reflexivity. }
      intros expected Hexp Hm.
      apply (paced_iteration expected Hexp (marker i) 0%nat q [] []);
        try assumption.
      * pose proof (Hm (i, data)) as Hmi. cbn [fst snd] in Hmi.
        rewrite Hmi by left. unfold pauses. cbn [fst snd].
        rewrite Hs. reflexivity.
      * exact I.
      * reflexivity.
Qed.

(** [process_all_batches] is its loop after the opening log line. *)
Lemma process_all_batches_run cfg session (df_urls : list string) w :
  let num_batches := num_batches_of cfg (Z.of_nat (length df_urls)) in
  let urls_of := batch_urls_of cfg df_urls in
  let marker i :=
    ELog INFO
      (StartingBatch (i + 1) num_batches (start_idx_of cfg i)
         (end_idx_of cfg (Z.of_nat (length df_urls)) i)) in
  let pauses b := savable (snd b) && (fst b <? num_batches - 1) in
  let bs := fetched session urls_of (py_range 0 num_batches) (calls w) in
  exists w' evs kss,
    process_all_batches cfg session df_urls w =
      ((if all_saved bs
        then Returns (omap (fun b => table_of (snd b)) bs)
        else Raises TypeError), w') /\
    events_since w w' =
      ELog INFO (ProcessingUrls (Z.of_nat (length df_urls)) num_batches
                   (BATCH_SIZE cfg)) :: evs /\
    calls w' = (calls w + sum_list (concat kss))%nat /\
    files w' = write_tables (files w) bs /\
    Forall2 (fun b ks =>
               length (snd b) = length (urls_of (fst b)) /\
               length ks = length (urls_of (fst b)) /\
               Forall (fun k => 1 <= k <= 3)%nat ks) bs kss /\
    gets evs =
      concat (zip_with
                (fun b ks =>
                   concat (zip_with requests_for (urls_of (fst b)) ks))
                bs kss) /\
    started_batches evs =
      map (fun i => (i + 1, start_idx_of cfg i,
                     end_idx_of cfg (Z.of_nat (length df_urls)) i))
        (map fst bs) /\
    cooldowns evs = length (List.filter pauses bs) /\
    (forall expected,
       (forall e, is_marker e = false -> expected e = None) ->
       (forall b, b ∈ bs ->
          expected (marker (fst b)) =
            Some (if pauses b then 1%nat else 0%nat)) ->
       paced expected evs = true).
Proof.
  intros num_batches urls_of marker pauses bs.
  unfold process_all_batches. cbv zeta.
  fold num_batches. unfold bind at 1. unfold logger, emit.
  match goal with
  | |- context [for_each ?l _ ?acc ?w1] =>
      destruct (process_all_batches_loop cfg session df_urls num_batches l
                  acc w1)
        as (w' & evs & kss & -> & Ht & Hc & Hf & H2 & Hg & Hs & _ & Hcd & Hp)
  end.
  cbn [calls files trace] in *.
  exists w', evs, kss.
  split; [reflexivity|]. split.
  { unfold events_since. rewrite Ht, <- app_assoc. apply drop_app_length. }
  repeat split; assumption.
Qed.

Lemma py_range_lookup lo hi j x :
  py_range lo hi !! j = Some x -> x = lo + Z.of_nat j /\ x < hi.
Proof.
  unfold py_range. rewrite list_lookup_fmap.
  destruct (seq 0 (Z.to_nat (hi - lo)) !! j) as [k|] eqn:E; [|discriminate].
  apply lookup_seq in E as [-> Hj]. simpl. intros [= <-]. lia.
Qed.

Lemma take_py_range lo hi (k : nat) :
  (k <= length (py_range lo hi))%nat ->
  take k (py_range lo hi) = py_range lo (lo + Z.of_nat k).
Proof.
  rewrite py_range_length. intros Hk. unfold py_range.
  rewrite <- fmap_take, take_seq.
  replace (k `min` Z.to_nat (hi - lo))%nat with k by lia.
  do 2 f_equal. lia.
Qed.

(** In a run over consecutive indices, batch number [j] of the run is
    the batch of index [lo + j], and it is followed by a pause exactly
    when it is not the last batch of the run. *)
Lemma fetched_range_positions session urls_of lo hi c :
  let bs := fetched session urls_of (py_range lo hi) c in
  forall j b, bs !! j = Some b ->
    fst b = lo + Z.of_nat j /\
    savable (snd b) && (fst b <? hi - 1) = bool_decide (S j < length bs)%nat.
Proof.
  intros bs j b Hj.
  destruct (fetched_shape session urls_of (py_range lo hi) c)
    as (Hfst & Hlen & Hmid & Hall & Hlast).
  fold bs in Hfst, Hlen, Hmid, Hall, Hlast.
  pose proof (lookup_lt_Some _ _ _ Hj) as Hlt.
  assert (py_range lo hi !! j = Some (fst b)) as Hr.
  { rewrite <- (lookup_take_lt _ (length bs)) by exact Hlt.
    rewrite <- Hfst, list_lookup_fmap, Hj. reflexivity. }
  apply py_range_lookup in Hr as [Hb Hhi].
  split; [exact Hb|].
  rewrite py_range_length in Hlen, Hall.
  destruct (decide (S j < length bs)%nat) as [Hin|Hend].
  - rewrite bool_decide_eq_true_2 by exact Hin.
    rewrite (Hmid j b Hj Hin). apply Z.ltb_lt. lia.
  - rewrite bool_decide_eq_false_2 by exact Hend.
    destruct (all_saved bs) eqn:Ha.
    + specialize (Hall eq_refl).
      apply andb_false_iff. right. apply Z.ltb_ge. lia.
    + destruct (Hlast eq_refl) as (b' & Hb' & Hs).
      rewrite last_lookup in Hb'.
      replace (Nat.pred (length bs)) with j in Hb' by lia.
      rewrite Hj in Hb'. injection Hb' as <-. rewrite Hs. reflexivity.
Qed.

Lemma filter_all {A} (f : A -> bool) (l : list A) :
  (forall x, x ∈ l -> f x = true) -> List.filter f l = l.
Proof.
  induction l as [|x l IH]; intros H; [reflexivity|].
  simpl. rewrite (H x) by left. f_equal. apply IH.
  intros y Hy. apply H. right. exact Hy.
Qed.

Lemma filter_all_but_last {A} (f : A -> bool) (l : list A) :
  (forall j x, l !! j = Some x -> f x = bool_decide (S j < length l)%nat) ->
  length (List.filter f l) = (length l - 1)%nat.
Proof.
  destruct l as [|x0 l0] using rev_ind; [reflexivity|]. clear IHl0.
  intros H. rewrite List.filter_app, !length_app. simpl.
  rewrite filter_all.
  - rewrite (H (length l0) x0).
    + rewrite bool_decide_eq_false_2; [simpl; lia|].
      rewrite length_app. simpl. lia.
    + rewrite lookup_app_r, Nat.sub_diag by lia. reflexivity.
  - intros x Hx. apply list_elem_of_lookup in Hx as [j Hj].
    rewrite (H j x).
    + apply bool_decide_eq_true_2. rewrite length_app. simpl.
      apply lookup_lt_Some in Hj. lia.
    + rewrite lookup_app_l; [exact Hj|]. apply lookup_lt_Some in Hj. exact Hj.
Qed.

Lemma last_batch_size total_urls batch_size num_batches :
  0 < batch_size -> 0 < total_urls ->
  (num_batches - 1) * batch_size < total_urls <= num_batches * batch_size ->
  total_urls - (num_batches - 1) * batch_size =
    if total_urls mod batch_size =? 0 then batch_size
    else total_urls mod batch_size.
Proof.
  intros HB HN Hc.
  pose proof (Z.div_mod total_urls batch_size ltac:(lia)) as Hdm.
  pose proof (Z.mod_pos_bound total_urls batch_size HB) as Hm.
  destruct (Z.eqb_spec (total_urls mod batch_size) 0) as [E|E].
  - rewrite E in Hdm.
    assert (num_batches = total_urls / batch_size) by nia. nia.
  - assert (num_batches = total_urls / batch_size + 1) by nia. nia.
Qed.

(** C4.  For a positive batch size the plan of the coordinator is
    [ceil(N / BATCH_SIZE)] batches, numbered from 1 in the order of the
    list; batch [i+1] is the half-open range
    [[i * BATCH_SIZE, min((i+1) * BATCH_SIZE, N))]; each range starts
    where the previous one ends, and the batches concatenated are the
    identifier list.  The last batch holds [N mod BATCH_SIZE]
    identifiers, or [BATCH_SIZE] when [N] is a multiple of it.  A run of
    [process_all_batches] starts the batches of the plan in order: all
    of them when it returns, which it does whenever the server answers
    with JSON objects; a run that ends in the [TypeError] of
    [save_batch] has started a prefix of the plan. *)
Theorem batch_partition (cfg : Config) (session : Session)
    (df_urls : list string) (w : World) :
  0 < BATCH_SIZE cfg ->
  let total_urls := Z.of_nat (length df_urls) in
  let num_batches := num_batches_of cfg total_urls in
  let plan :=
    map (fun i => (i + 1, i * BATCH_SIZE cfg,
                   Z.min ((i + 1) * BATCH_SIZE cfg) total_urls))
      (py_range 0 num_batches) in
  let outcome := process_all_batches cfg session df_urls w in
  let started := started_batches (events_since w (snd outcome)) in
  ((num_batches - 1) * BATCH_SIZE cfg < total_urls /\
   total_urls <= num_batches * BATCH_SIZE cfg) /\
  length (py_range 0 num_batches) = Z.to_nat num_batches /\
  (started = take (length started) plan /\
   ((exists all_dataframes, fst outcome = Returns all_dataframes) ->
    started = plan) /\
   (forall e, fst outcome = Raises e -> e = TypeError) /\
   (serves_documents session ->
    (exists all_dataframes, fst outcome = Returns all_dataframes) /\
    started = plan)) /\
  concat (map (batch_urls_of cfg df_urls) (py_range 0 num_batches)) =
    df_urls /\
  (forall i, 0 <= i < num_batches ->
     let start_idx := i * BATCH_SIZE cfg in
     let end_idx := Z.min ((i + 1) * BATCH_SIZE cfg) total_urls in
     batch_urls_of cfg df_urls i =
       take (Z.to_nat (end_idx - start_idx)) (drop (Z.to_nat start_idx) df_urls) /\
     0 <= start_idx < end_idx /\ end_idx <= total_urls /\
     Z.of_nat (length (batch_urls_of cfg df_urls i)) = end_idx - start_idx /\
     (i + 1 < num_batches ->
      end_idx = (i + 1) * BATCH_SIZE cfg /\
      Z.of_nat (length (batch_urls_of cfg df_urls i)) = BATCH_SIZE cfg)) /\
  (0 < total_urls ->
   Z.of_nat (length (batch_urls_of cfg df_urls (num_batches - 1))) =
     if total_urls mod BATCH_SIZE cfg =? 0 then BATCH_SIZE cfg
     else total_urls mod BATCH_SIZE cfg).
Proof.
  intros HB total_urls num_batches plan outcome started.
  pose proof (num_batches_ceil cfg total_urls HB) as Hceil. fold num_batches in Hceil.
  pose proof (num_batches_nonneg cfg total_urls HB ltac:(lia)) as Hnn.
  fold num_batches in Hnn.
  assert (Hbatch : forall i, 0 <= i < num_batches ->
            batch_urls_of cfg df_urls i =
              take (Z.to_nat (Z.min ((i + 1) * BATCH_SIZE cfg) total_urls
                              - i * BATCH_SIZE cfg))
                (drop (Z.to_nat (i * BATCH_SIZE cfg)) df_urls) /\
            Z.of_nat (length (batch_urls_of cfg df_urls i)) =
              Z.min ((i + 1) * BATCH_SIZE cfg) total_urls - i * BATCH_SIZE cfg).
  { intros i Hi.
    pose proof (batch_urls_inside cfg df_urls i HB Hi) as E.
    destruct (batch_bounds cfg total_urls i HB Hi) as (H1 & H2 & H3 & H4).
    unfold start_idx_of, end_idx_of in *. fold total_urls in E.
    split; [exact E|]. rewrite E, length_take, length_drop. lia. }
  split; [exact Hceil|].
  split; [rewrite py_range_length; f_equal; lia|].
  split.
  { destruct (process_all_batches_run cfg session df_urls w)
      as (w' & evs & kss & Hrun & Hev & _ & _ & _ & _ & Hs & _).
    fold total_urls num_batches in Hrun, Hs.
    set (bs := fetched session (batch_urls_of cfg df_urls)
                 (py_range 0 num_batches) (calls w)) in *.
    destruct (fetched_shape session (batch_urls_of cfg df_urls)
                (py_range 0 num_batches) (calls w))
      as (Hfst & _ & _ & Hall & _).
    fold bs in Hfst, Hall.
    assert (started =
            map (fun i => (i + 1, i * BATCH_SIZE cfg,
                           Z.min ((i + 1) * BATCH_SIZE cfg) total_urls))
              (map fst bs)) as Hst.
    { subst started outcome. rewrite Hrun. cbn [snd]. rewrite Hev.
      exact Hs. }
    assert (all_saved bs = true -> started = plan) as Hplan.
    { intros Ha. rewrite Hst, Hfst, (Hall Ha), firstn_all. reflexivity. }
    split.
    { rewrite Hst at 1. rewrite Hst, !length_map, Hfst at 1.
      subst plan. rewrite <- fmap_take. reflexivity. }
    subst outcome. rewrite Hrun. cbn [fst].
    destruct (all_saved bs) eqn:Ha.
    - split; [intros _; apply Hplan; reflexivity|].
      split; [intros e [=]|].
      intros _. split; [eexists; reflexivity|apply Hplan; reflexivity].
    - split; [intros [dfs [=]]|].
      split; [intros e [= <-]; reflexivity|].
      intros Hdoc.
      subst bs.
      rewrite (serves_documents_all_saved session _ _ Hdoc) in Ha.
      discriminate Ha. }
  split.
  { pose proof (batches_prefix cfg df_urls (Z.to_nat num_batches) HB) as E.
    rewrite Z2Nat.id in E by lia. fold total_urls num_batches in E.
    rewrite E by lia. apply take_ge. lia. }
  split.
  { intros i Hi start_idx end_idx. subst start_idx end_idx.
    destruct (Hbatch i Hi) as [E L].
    destruct (batch_bounds cfg total_urls i HB Hi) as (H1 & H2 & H3 & H4).
    unfold start_idx_of, end_idx_of in *.
    repeat split; try assumption; try lia; nia. }
  intros HN.
  destruct (Hbatch (num_batches - 1)) as [_ L]; [nia|].
  rewrite L. replace (num_batches - 1 + 1) with num_batches by lia.
  rewrite Z.min_r by lia.
  apply last_batch_size; lia.
Qed.

Lemma batch_partition_witness :
  concat (map (batch_urls_of batches_of_five twelve_urls) [0; 1; 2]) =
    twelve_urls /\
  Z.of_nat (length (batch_urls_of batches_of_five twelve_urls 2)) = 2.
Proof.
  destruct (batch_partition batches_of_five (fun _ _ => GetRaises ClientError)
              twelve_urls empty_world)
    as (_ & _ & _ & Hconcat & _ & Hlast).
  - reflexivity.
  - split; [exact Hconcat|]. apply Hlast. reflexivity.
Defined.

(** ** [resume_from_batch] *)

(** A batch whose artifact is on disk is skipped: the only effect of
    the iteration is the record that says so. *)
Lemma resume_body_skips cfg session (df_urls : list string) num_batches i w :
  is_Some (files w !! batch_file_name (i + 1)) ->
  resume_from_batch_body cfg session df_urls num_batches i tt w =
    (Returns tt,
     mkWorld (calls w) (files w)
       (trace w ++ [ELog INFO (BatchExists (i + 1))])).
Proof.
  intros H. unfold resume_from_batch_body. cbv zeta.
  unfold bind at 1. unfold file_exists.
  rewrite bool_decide_eq_true_2 by assumption. reflexivity.
Qed.

(** A batch without artifact is fetched and saved, and followed by a
    sleep of 5 unless it is the last; when [save_batch] raises, the
    iteration ends there, without the sleep. *)
Lemma resume_from_batch_body_run cfg session (df_urls : list string)
    num_batches i w :
  files w !! batch_file_name (i + 1) = None ->
  let urls := batch_urls_of cfg df_urls i in
  let data := batch_results session urls (calls w) in
  exists evs ks,
    resume_from_batch_body cfg session df_urls num_batches i tt w =
      ((if savable data then Returns tt else Raises TypeError),
       mkWorld (calls w + batch_requests session urls (calls w))
         (write_table (files w) (i + 1) data)
         (trace w ++
          ELog INFO
            (ProcessingBatch (i + 1) num_batches (start_idx_of cfg i)
               (end_idx_of cfg (Z.of_nat (length df_urls)) i))
          :: (evs ++
              if savable data && (i <? num_batches - 1)
              then [ESleep 5]
              else []))) /\
    Forall (fun e => quiet e = true) evs /\
    length data = length urls /\
    batch_requests session urls (calls w) = sum_list ks /\
    length ks = length urls /\
    Forall (fun k => 1 <= k <= 3)%nat ks /\
    gets evs = concat (zip_with requests_for urls ks).
Proof.
  intros H urls data. unfold resume_from_batch_body. cbv zeta.
  unfold bind at 1. unfold file_exists.
  rewrite bool_decide_eq_false_2 by (rewrite H; apply is_Some_None).
  unfold bind at 1. unfold logger at 1, emit at 1.
  unfold bind at 1.
  edestruct (fetch_batch_tie session (batch_urls_of cfg df_urls i) (i + 1))
    as (evs & ks & -> & Hq & Hl & Hk & Hlk & Hks & Hg).
  cbn [calls files trace] in *. fold urls in Hl, Hk, Hlk, Hg |- *.
  fold data in Hl |- *.
  unfold bind at 1.
  edestruct (save_batch_table data (i + 1)) as (sevs & -> & Hsq & Hsg & _).
  cbn [calls files trace].
  exists (evs ++ sevs), ks. split.
  - destruct (savable data); cbn [andb].
    + destruct (i <? num_batches - 1);
        unfold_m; simpl; rewrite <- !app_assoc; simpl;
        rewrite ?app_nil_r; reflexivity.
    + rewrite <- !app_assoc. simpl. rewrite ?app_nil_r. reflexivity.
  - split; [apply Forall_app; split; assumption|].
    repeat split; try assumption.
    rewrite gets_app, Hsg, app_nil_r. exact Hg.
Qed.

(** The loop of [resume_from_batch] over indices whose artifacts are all
    on disk. *)
Lemma resume_loop_all_present cfg session (df_urls : list string)
    num_batches l w :
  (forall i, i ∈ l -> is_Some (files w !! batch_file_name (i + 1))) ->
  for_each l (resume_from_batch_body cfg session df_urls num_batches) tt w =
    (Returns tt,
     mkWorld (calls w) (files w)
       (trace w ++ map (fun i => ELog INFO (BatchExists (i + 1))) l)).
Proof.
  revert w. induction l as [|i l IH]; intros w H.
  - simpl. unfold ret. rewrite app_nil_r. destruct w. reflexivity.
  - simpl for_each. unfold bind at 1.
    rewrite resume_body_skips by (apply H; left).
    rewrite IH by (intros j Hj; apply H; right; exact Hj).
    simpl. rewrite <- app_assoc. reflexivity.
Qed.

Lemma skipped_batches_app tr1 tr2 :
  skipped_batches (tr1 ++ tr2) = skipped_batches tr1 ++ skipped_batches tr2.
Proof. apply omap_app. Qed.

Lemma processed_batches_app tr1 tr2 :
  processed_batches (tr1 ++ tr2) =
    processed_batches tr1 ++ processed_batches tr2.
Proof. apply omap_app. Qed.

Lemma no_marker_not_skipped evs :
  Forall (fun e => is_marker e = false) evs -> skipped_batches evs = [].
Proof.
  induction 1 as [|e l He _ IH]; [reflexivity|].
  destruct e as [| | | |lv []]; try discriminate He;
    change (skipped_batches l = []); exact IH.
Qed.

Lemma no_marker_not_processed evs :
  Forall (fun e => is_marker e = false) evs -> processed_batches evs = [].
Proof.
  induction 1 as [|e l He _ IH]; [reflexivity|].
  destruct e as [| | | |lv []]; try discriminate He;
    change (processed_batches l = []); exact IH.
Qed.

Lemma no_marker_filter evs :
  Forall (fun e => is_marker e = false) evs -> List.filter is_marker evs = [].
Proof.
  induction 1 as [|e l He _ IH]; [reflexivity|].
  simpl. rewrite He. exact IH.
Qed.

Lemma fetched_of_cons v visits :
  fetched_of (v :: visits) =
    match snd v with
    | Some data => (fst v, data) :: fetched_of visits
    | None => fetched_of visits
    end.
Proof. unfold fetched_of. simpl. destruct (snd v); reflexivity. Qed.

(** The loop of [resume_from_batch] over the indices [l], in terms of
    the visits [resumed]. *)
Lemma resume_from_batch_loop cfg session (df_urls : list string)
    num_batches l :
  forall w,
    let urls_of := batch_urls_of cfg df_urls in
    let marker (v : Z * option (list json)) :=
      match snd v with
      | None => ELog INFO (BatchExists (fst v + 1))
      | Some _ =>
          ELog INFO
            (ProcessingBatch (fst v + 1) num_batches (start_idx_of cfg (fst v))
               (end_idx_of cfg (Z.of_nat (length df_urls)) (fst v)))
      end in
    let pauses (v : Z * option (list json)) :=
      match snd v with
      | None => false
      | Some data => savable data && (fst v <? num_batches - 1)
      end in
    let visits := resumed session urls_of (files w) l (calls w) in
    let bs := fetched_of visits in
    exists w' evs kss,
      for_each l (resume_from_batch_body cfg session df_urls num_batches)
          tt w =
        ((if all_saved bs then Returns tt else Raises TypeError), w') /\
      trace w' = trace w ++ evs /\
      calls w' = (calls w + sum_list (concat kss))%nat /\
      files w' = write_tables (files w) bs /\
      Forall2 (fun b ks =>
                 length (snd b) = length (urls_of (fst b)) /\
                 length ks = length (urls_of (fst b)) /\
                 Forall (fun k => 1 <= k <= 3)%nat ks) bs kss /\
      gets evs =
        concat (zip_with
                  (fun b ks =>
                     concat (zip_with requests_for (urls_of (fst b)) ks))
                  bs kss) /\
      opened evs = Z.of_nat (length visits) /\
      skipped_batches evs =
        omap (fun v => match snd v with
                       | None => Some (fst v + 1)
                       | Some _ => None
                       end) visits /\
      processed_batches evs = map (fun b => fst b + 1) bs /\
      match evs with [] => l = [] | e :: _ => is_marker e = true end /\
      cooldowns evs = length (List.filter pauses visits) /\
      (forall expected,
         (forall e, is_marker e = false -> expected e = None) ->
         (forall v, v ∈ visits ->
            expected (marker v) = Some (if pauses v then 1%nat else 0%nat)) ->
         paced expected evs = true).
Proof.
  induction l as [|i l IH]; intros w urls_of marker pauses visits bs;
    subst bs visits.
  - exists w, [], []. simpl. unfold ret.
    rewrite !app_nil_r, Nat.add_0_r. repeat split; constructor.
  - rewrite for_each_cons. cbn [resumed].
    destruct (on_disk (files w) i) eqn:Hon.
    + unfold on_disk in Hon. apply bool_decide_eq_true_1 in Hon.
      rewrite resume_body_skips by exact Hon.
      match goal with
      | |- context [for_each l _ tt ?w1] =>
          destruct (IH w1)
            as (w' & evs & kss & -> & Ht & Hc & Hf & H2 & Hge & Hop & Hsk &
                Hpr & Hh & Hcl & Hp)
      end.
      cbn [calls files trace] in *.
      subst urls_of. set (urls_of := batch_urls_of cfg df_urls) in *.
      set (visits := resumed session urls_of (files w) l (calls w)) in *.
      exists w', (ELog INFO (BatchExists (i + 1)) :: ([] ++ []) ++ evs), kss.
      rewrite fetched_of_cons. cbn [snd fst].
      split; [reflexivity|].
      split; [rewrite Ht, <- app_assoc; reflexivity|].
      split; [exact Hc|]. split; [exact Hf|]. split; [exact H2|].
      split; [exact Hge|].
      split.
      { change (opened (ELog INFO (BatchExists (i + 1)) :: ?X))
          with (Z.of_nat (S (length (List.filter is_marker X)))).
        unfold opened in Hop. cbn [app length]. lia. }
      split.
      { change (skipped_batches (ELog INFO (BatchExists (i + 1)) :: ?X))
          with ((i + 1) :: skipped_batches X).
        cbn [app]. rewrite Hsk. reflexivity. }
      split; [exact Hpr|].
      split; [reflexivity|].
      split; [exact Hcl|].
      intros expected Hexp Hm.
      apply (paced_iteration expected Hexp _ 0%nat [] [] evs).
      * exact (Hm (i, None) ltac:(left)).
      * constructor.
      * reflexivity.
      * destruct evs; [exact I|exact Hh].
      * apply Hp; [exact Hexp|]. intros v Hv. apply Hm. right. exact Hv.
    + unfold on_disk in Hon. apply bool_decide_eq_false_1 in Hon.
      assert (files w !! batch_file_name (i + 1) = None) as Hnone.
      { destruct (files w !! batch_file_name (i + 1)); [|reflexivity].
        exfalso. apply Hon. eauto. }
      destruct (resume_from_batch_body_run cfg session df_urls num_batches i
                  w Hnone) as (q & ks & -> & Hq & Hl & Hk & Hlk & Hks & Hg).
      fold urls_of in Hl, Hk, Hlk, Hg |- *.
      set (data := batch_results session (urls_of i) (calls w)) in *.
      set (tail := if savable data && (i <? num_batches - 1)
                   then [ESleep 5] else []).
      set (m := ELog INFO
                  (ProcessingBatch (i + 1) num_batches (start_idx_of cfg i)
                     (end_idx_of cfg (Z.of_nat (length df_urls)) i))).
      assert (Forall (fun e => is_marker e = false) (q ++ tail)) as Hnm.
      { apply Forall_app. split; [apply quiet_no_marker, Hq|].
        subst tail. destruct (savable data && (i <? num_batches - 1));
          repeat constructor. }
      assert (cooldowns (q ++ tail) =
              if savable data && (i <? num_batches - 1) then 1%nat else 0%nat)
        as Hcd.
      { rewrite cooldowns_app, (quiet_no_cooldown q Hq). subst tail.
        destruct (savable data && (i <? num_batches - 1)); reflexivity. }
      destruct (savable data) eqn:Hs.
      * match goal with
        | |- context [for_each l _ tt ?w1] =>
            destruct (IH w1)
              as (w' & evs & kss & -> & Ht & Hc & Hf & H2 & Hge & Hop & Hsk &
                  Hpr & Hh & Hcl & Hp)
        end.
        cbn [calls files trace] in *.
        subst data urls_of. set (urls_of := batch_urls_of cfg df_urls) in *.
        set (data := batch_results session (urls_of i) (calls w)) in *.
        set (visits := resumed session urls_of _ l _) in *.
        exists w', (m :: (q ++ tail) ++ evs), (ks :: kss).
        rewrite fetched_of_cons. cbn [snd fst].
        rewrite all_saved_cons. cbn [snd]. rewrite Hs. cbn [andb].
        split; [reflexivity|].
        split.
        { rewrite Ht. rewrite <- ?app_assoc. simpl.
          rewrite <- ?app_assoc. reflexivity. }
        split.
        { rewrite Hc. simpl. rewrite sum_list_append. lia. }
        split; [rewrite Hf; reflexivity|].
        split; [constructor; [repeat split; assumption|exact H2]|].
        split.
        { change (gets (m :: ?X)) with (gets X).
          rewrite !gets_app, Hge. cbn [zip_with concat fst].
          rewrite Hg. f_equal.
          subst tail. destruct (true && (i <? num_batches - 1));
            simpl; rewrite app_nil_r; reflexivity. }
        split.
        { change (opened (m :: ?X))
            with (Z.of_nat (S (length (List.filter is_marker X)))).
          rewrite List.filter_app, (no_marker_filter _ Hnm).
          unfold opened in Hop. cbn [app length]. lia. }
        split.
        { change (skipped_batches (m :: ?X)) with (skipped_batches X).
          rewrite skipped_batches_app, (no_marker_not_skipped _ Hnm), Hsk.
          reflexivity. }
        split.
        { change (processed_batches (m :: ?X))
            with ((i + 1) :: processed_batches X).
          rewrite processed_batches_app, (no_marker_not_processed _ Hnm), Hpr.
          reflexivity. }
        split; [reflexivity|].
        split.
        { change (cooldowns (m :: ?X)) with (cooldowns X).
          rewrite cooldowns_app, Hcd, Hcl. cbn [List.filter].
          unfold pauses at 1. cbn [fst snd]. rewrite Hs.
          destruct (true && (i <? num_batches - 1)); reflexivity. }
        intros expected Hexp Hm.
        apply paced_iteration with
          (k := if true && (i <? num_batches - 1) then 1%nat else 0%nat);
          try assumption.
        -- pose proof (Hm (i, Some data)) as Hmi. cbn [fst snd] in Hmi.
           unfold marker, pauses in Hmi. cbn [fst snd] in Hmi.
           rewrite Hs in Hmi. apply Hmi. left.
        -- destruct evs; [exact I|exact Hh].
        -- apply Hp; [exact Hexp|]. intros v Hv. apply Hm. right. exact Hv.
      * subst tail. cbn [andb] in Hnm, Hcd |- *.
        exists (mkWorld
                  (calls w + batch_requests session (urls_of i) (calls w))
                  (write_table (files w) (i + 1) data)
                  (trace w ++ m :: (q ++ []))),
          (m :: (q ++ []) ++ []), [ks].
        rewrite fetched_of_cons. cbn [snd fst].
        rewrite all_saved_cons. cbn [snd]. rewrite Hs. cbn [andb].
        split; [reflexivity|].
        split; [cbn [trace]; rewrite !app_nil_r; reflexivity|].
        split.
        { cbn [calls]. simpl. rewrite app_nil_r. lia. }
        split; [reflexivity|].
        split; [repeat constructor; assumption|].
        split.
        { change (gets (m :: ?X)) with (gets X).
          rewrite !app_nil_r. cbn [zip_with concat fst].
          rewrite Hg, !app_nil_r. reflexivity. }
        split.
        { change (opened (m :: ?X))
            with (Z.of_nat (S (length (List.filter is_marker X)))).
          rewrite app_nil_r, (no_marker_filter _ Hnm). reflexivity. }
        split.
        { change (skipped_batches (m :: ?X)) with (skipped_batches X).
          rewrite app_nil_r, (no_marker_not_skipped _ Hnm). reflexivity. }
        split.
        { change (processed_batches (m :: ?X))
            with ((i + 1) :: processed_batches X).
          rewrite app_nil_r, (no_marker_not_processed _ Hnm). reflexivity. }
        split; [reflexivity|].
        split.
        { change (cooldowns (m :: ?X)) with (cooldowns X).
          rewrite app_nil_r, Hcd. cbn [List.filter].
          unfold pauses. cbn [fst snd]. rewrite Hs. reflexivity. }
        intros expected Hexp Hm.
        apply (paced_iteration expected Hexp m 0%nat q [] []);
          try assumption.
        -- pose proof (Hm (i, Some data)) as Hmi. cbn [fst snd] in Hmi.
           unfold marker, pauses in Hmi. cbn [fst snd] in Hmi.
           rewrite Hs in Hmi. apply Hmi. left.
        -- exact I.
        -- reflexivity.
Qed.

(** [resume_from_batch] is its loop after the opening log line. *)
Lemma resume_from_batch_run cfg session (df_urls : list string) start_batch w :
  let num_batches := num_batches_of cfg (Z.of_nat (length df_urls)) in
  let urls_of := batch_urls_of cfg df_urls in
  let marker (v : Z * option (list json)) :=
    match snd v with
    | None => ELog INFO (BatchExists (fst v + 1))
    | Some _ =>
        ELog INFO
          (ProcessingBatch (fst v + 1) num_batches (start_idx_of cfg (fst v))
             (end_idx_of cfg (Z.of_nat (length df_urls)) (fst v)))
    end in
  let pauses (v : Z * option (list json)) :=
    match snd v with
    | None => false
    | Some data => savable data && (fst v <? num_batches - 1)
    end in
  let visits :=
    resumed session urls_of (files w) (py_range (start_batch - 1) num_batches)
      (calls w) in
  let bs := fetched_of visits in
  exists w' evs kss,
    resume_from_batch cfg session df_urls start_batch w =
      ((if all_saved bs then Returns tt else Raises TypeError), w') /\
    events_since w w' =
      ELog INFO (ResumingFrom start_batch num_batches) :: evs /\
    calls w' = (calls w + sum_list (concat kss))%nat /\
    files w' = write_tables (files w) bs /\
    Forall2 (fun b ks =>
               length (snd b) = length (urls_of (fst b)) /\
               length ks = length (urls_of (fst b)) /\
               Forall (fun k => 1 <= k <= 3)%nat ks) bs kss /\
    gets evs =
      concat (zip_with
                (fun b ks =>
                   concat (zip_with requests_for (urls_of (fst b)) ks))
                bs kss) /\
    opened evs = Z.of_nat (length visits) /\
    skipped_batches evs =
      omap (fun v => match snd v with
                     | None => Some (fst v + 1)
                     | Some _ => None
                     end) visits /\
    processed_batches evs = map (fun b => fst b + 1) bs /\
    cooldowns evs = length (List.filter pauses visits) /\
    (forall expected,
       (forall e, is_marker e = false -> expected e = None) ->
       (forall v, v ∈ visits ->
          expected (marker v) = Some (if pauses v then 1%nat else 0%nat)) ->
       paced expected evs = true).
Proof.
  intros num_batches urls_of marker pauses visits bs.
  unfold resume_from_batch. cbv zeta.
  fold num_batches. unfold bind at 1. unfold logger, emit.
  match goal with
  | |- context [for_each ?l _ tt ?w1] =>
      destruct (resume_from_batch_loop cfg session df_urls num_batches l w1)
        as (w' & evs & kss & -> & Ht & Hc & Hf & H2 & Hg & Hop & Hsk & Hpr &
            _ & Hcd & Hp)
  end.
  cbn [calls files trace] in *.
  exists w', evs, kss.
  split; [reflexivity|]. split.
  { unfold events_since. rewrite Ht, <- app_assoc. apply drop_app_length. }
  repeat split; assumption.
Qed.

(** The visits of a resumed run: a prefix of the loop indices, every
    fetched batch but the last visit saved, and all of the indices when
    every fetched batch is saved. *)
Lemma resumed_shape session urls_of l :
  forall fs c,
    let visits := resumed session urls_of fs l c in
    map fst visits = take (length visits) l /\
    (length visits <= length l)%nat /\
    (forall j v data, visits !! j = Some v -> snd v = Some data ->
                      (S j < length visits)%nat -> savable data = true) /\
    (all_saved (fetched_of visits) = true -> length visits = length l) /\
    (all_saved (fetched_of visits) = false ->
     exists v data,
       last visits = Some v /\ snd v = Some data /\ savable data = false).
Proof.
  induction l as [|i l IH]; intros fs c visits; subst visits.
  - simpl. repeat split; try lia; try discriminate.
  - cbn [resumed].
    destruct (on_disk fs i).
    + specialize (IH fs c). cbv zeta in IH.
      destruct IH as (I1 & I2 & I3 & I4 & I5).
      set (visits := resumed session urls_of fs l c) in *.
      rewrite fetched_of_cons. cbn [snd length map fst take].
      rewrite I1.
      split; [reflexivity|]. split; [lia|]. split; [|split].
      * intros [|j] v data Hj Hv Hlt.
        -- injection Hj as <-. discriminate Hv.
        -- apply (I3 j v data Hj Hv). lia.
      * intros H. rewrite (I4 H). reflexivity.
      * intros H. destruct (I5 H) as (v & data & Hlast & Hv & Hs).
        exists v, data. split; [|split; assumption].
        destruct visits as [|v0 vs0]; [discriminate Hlast|].
        exact Hlast.
    + set (data := batch_results session (urls_of i) c).
      destruct (savable data) eqn:Hs.
      * specialize (IH (write_table fs (i + 1) data)
                      (c + batch_requests session (urls_of i) c)%nat).
        cbv zeta in IH. destruct IH as (I1 & I2 & I3 & I4 & I5).
        set (visits := resumed session urls_of _ l _) in *.
        rewrite fetched_of_cons. cbn [snd length map fst take].
        rewrite all_saved_cons. cbn [snd]. rewrite Hs, I1. cbn [andb].
        split; [reflexivity|]. split; [lia|]. split; [|split].
        -- intros [|j] v d Hj Hv Hlt.
           ++ injection Hj as <-. injection Hv as <-. exact Hs.
           ++ apply (I3 j v d Hj Hv). lia.
        -- intros H. rewrite (I4 H). reflexivity.
        -- intros H. destruct (I5 H) as (v & d & Hlast & Hv & Hd).
           exists v, d. split; [|split; assumption].
           destruct visits as [|v0 vs0]; [discriminate Hlast|].
           exact Hlast.
      * rewrite fetched_of_cons. cbn [snd length map fst take fetched_of omap].
        rewrite all_saved_cons. cbn [snd]. rewrite Hs. cbn [andb].
        rewrite take_0.
        split; [reflexivity|]. split; [lia|]. split; [|split].
        -- intros [|j] v d Hj Hv Hlt; simpl in Hlt; [lia|discriminate Hj].
        -- discriminate.
        -- intros _. exists (i, Some data), data.
           split; [reflexivity|]. split; [reflexivity|exact Hs].
Qed.

Lemma elem_of_take_l {A} (x : A) n l : x ∈ take n l -> x ∈ l.
Proof.
  intros H. rewrite <- (take_drop n l). apply elem_of_app. left. exact H.
Qed.

Lemma resumed_elem session urls_of l fs c v :
  v ∈ resumed session urls_of fs l c -> fst v ∈ l.
Proof.
  intros Hv.
  destruct (resumed_shape session urls_of l fs c) as (Hfst & _).
  apply (elem_of_take_l _ (length (resumed session urls_of fs l c))).
  rewrite <- Hfst. apply list_elem_of_fmap. exists v. split; [reflexivity|exact Hv].
Qed.

(** Whether a visit skips its batch is decided by the directory the run
    starts from. *)
Lemma resumed_on_disk session urls_of l :
  NoDup l ->
  forall fs c v,
    v ∈ resumed session urls_of fs l c ->
    (snd v = None <-> on_disk fs (fst v) = true).
Proof.
  induction 1 as [|i l Hi Hnd IH]; intros fs c v Hv.
  - inversion Hv.
  - cbn [resumed] in Hv.
    destruct (on_disk fs i) eqn:Hon.
    + apply elem_of_cons in Hv as [->|Hv].
      * cbn [fst snd]. rewrite Hon. tauto.
      * apply (IH fs c v Hv).
    + apply elem_of_cons in Hv as [->|Hv].
      * cbn [fst snd]. rewrite Hon. split; discriminate.
      * destruct (savable (batch_results session (urls_of i) c));
          [|inversion Hv].
        pose proof (resumed_elem _ _ _ _ _ _ Hv) as Hin.
        rewrite (IH _ _ v Hv), on_disk_write_table; [tauto|].
        intros ->. exact (Hi Hin).
Qed.

Lemma resumed_range_positions session urls_of fs lo hi c :
  let visits := resumed session urls_of fs (py_range lo hi) c in
  forall j v, visits !! j = Some v ->
    fst v = lo + Z.of_nat j /\ lo + Z.of_nat j < hi /\
    forall data, snd v = Some data ->
      savable data && (fst v <? hi - 1) = bool_decide (S j < length visits)%nat.
Proof.
  intros visits j v Hj.
  destruct (resumed_shape session urls_of (py_range lo hi) fs c)
    as (Hfst & Hlen & Hmid & Hall & Hlast).
  fold visits in Hfst, Hlen, Hmid, Hall, Hlast.
  pose proof (lookup_lt_Some _ _ _ Hj) as Hlt.
  assert (py_range lo hi !! j = Some (fst v)) as Hr.
  { rewrite <- (lookup_take_lt _ (length visits)) by exact Hlt.
    rewrite <- Hfst, list_lookup_fmap, Hj. reflexivity. }
  apply py_range_lookup in Hr as [Hb Hhi].
  split; [exact Hb|]. split; [lia|].
  intros data Hv.
  rewrite py_range_length in Hlen, Hall.
  destruct (decide (S j < length visits)%nat) as [Hin|Hend].
  - rewrite bool_decide_eq_true_2 by exact Hin.
    rewrite (Hmid j v data Hj Hv Hin). apply Z.ltb_lt. lia.
  - rewrite bool_decide_eq_false_2 by exact Hend.
    destruct (all_saved (fetched_of visits)) eqn:Ha.
    + specialize (Hall eq_refl).
      apply andb_false_iff. right. apply Z.ltb_ge. lia.
    + destruct (Hlast eq_refl) as (v' & d' & Hv' & Hd' & Hs).
      rewrite last_lookup in Hv'.
      replace (Nat.pred (length visits)) with j in Hv' by lia.
      rewrite Hj in Hv'. injection Hv' as <-.
      rewrite Hv in Hd'. injection Hd' as <-. rewrite Hs. reflexivity.
Qed.

Lemma resumed_results session urls_of l :
  forall fs c v data,
    v ∈ resumed session urls_of fs l c ->
    snd v = Some data ->
    exists c', (c <= c')%nat /\
               data = batch_results session (urls_of (fst v)) c'.
Proof.
  induction l as [|i l IH]; intros fs c v data Hv Hd; [inversion Hv|].
  cbn [resumed] in Hv. destruct (on_disk fs i).
  - apply elem_of_cons in Hv as [->|Hv]; [discriminate Hd|].
    apply (IH fs c v data Hv Hd).
  - apply elem_of_cons in Hv as [->|Hv].
    + injection Hd as <-. exists c. split; [lia|reflexivity].
    + destruct (savable (batch_results session (urls_of i) c));
        [|inversion Hv].
      destruct (IH _ _ v data Hv Hd) as (c' & Hc & E).
      exists c'. split; [lia|exact E].
Qed.

Lemma serves_documents_resumed session urls_of l :
  serves_documents session ->
  forall fs c, all_saved (fetched_of (resumed session urls_of fs l c)) = true.
Proof.
  intros Hdoc. induction l as [|i l IH]; intros fs c; [reflexivity|].
  cbn [resumed]. destruct (on_disk fs i).
  - rewrite fetched_of_cons. cbn [snd]. apply IH.
  - rewrite fetched_of_cons. cbn [snd fst]. rewrite all_saved_cons. cbn [snd].
    rewrite (serves_documents_savable session (urls_of i) c Hdoc).
    apply IH.
Qed.

(** C1, as stated, fails: [process_all_batches], the coordinator the
    script runs, never looks at the output directory.  Run a second time
    over the directory its first run has filled, it issues its requests
    again. *)
Lemma process_all_batches_fetches_again :
  ~ (forall cfg session (df_urls : list string) w,
       0 < BATCH_SIZE cfg ->
       (forall n,
          1 <= n <= num_batches_of cfg (Z.of_nat (length df_urls)) ->
          is_Some (files w !! batch_file_name n)) ->
       calls (snd (process_all_batches cfg session df_urls w)) = calls w).
Proof.
  intros H.
  set (df_urls := ["/ark:/53355/cl010062370"]).
  set (first_run :=
         snd (process_all_batches script_config always_answers df_urls
                empty_world)).
  specialize (H script_config always_answers df_urls first_run eq_refl).
  assert (calls first_run = 1%nat) as Hfirst by (vm_compute; reflexivity).
  assert (calls (snd (process_all_batches script_config always_answers
                        df_urls first_run)) = 2%nat) as Hsecond
    by (vm_compute; reflexivity).
  rewrite Hfirst, Hsecond in H.
  assert (2%nat = 1%nat) as E; [|discriminate E].
  apply H. intros n Hn.
  change (num_batches_of script_config (Z.of_nat (length df_urls))) with 1 in Hn.
  assert (n = 1) as -> by lia.
  vm_compute. eexists. reflexivity.
Qed.

(** C1, amended.  [resume_from_batch] checks, at the head of every
    iteration, whether the artifact of the batch is on disk and, when it
    is, goes on to the next batch: nothing is fetched and nothing is
    written for it.  When the artifact of every batch from [start_batch]
    on is on disk, the whole run issues no request at all; it records
    one "already exists" line per batch and leaves the directory as it
    found it. *)
Theorem resume_skips_existing_batches (cfg : Config) (session : Session)
    (df_urls : list string) (start_batch : Z) (w : World) :
  let num_batches := num_batches_of cfg (Z.of_nat (length df_urls)) in
  0 < BATCH_SIZE cfg ->
  (forall n, start_batch <= n <= num_batches ->
     is_Some (files w !! batch_file_name n)) ->
  resume_from_batch cfg session df_urls start_batch w =
    (Returns tt,
     mkWorld (calls w) (files w)
       (trace w ++
        ELog INFO (ResumingFrom start_batch num_batches)
        :: map (fun i => ELog INFO (BatchExists (i + 1)))
             (py_range (start_batch - 1) num_batches))) /\
  gets (events_since w (snd (resume_from_batch cfg session df_urls
                               start_batch w))) = [] /\
  forall i w1,
    is_Some (files w1 !! batch_file_name (i + 1)) ->
    resume_from_batch_body cfg session df_urls num_batches i tt w1 =
      (Returns tt,
       mkWorld (calls w1) (files w1)
         (trace w1 ++ [ELog INFO (BatchExists (i + 1))])).
Proof.
  intros num_batches _ H.
  assert (resume_from_batch cfg session df_urls start_batch w =
    (Returns tt,
     mkWorld (calls w) (files w)
       (trace w ++
        ELog INFO (ResumingFrom start_batch num_batches)
        :: map (fun i => ELog INFO (BatchExists (i + 1)))
             (py_range (start_batch - 1) num_batches)))) as Hrun.
  { unfold resume_from_batch. cbv zeta. fold num_batches.
    unfold bind at 1. unfold logger, emit.
    rewrite resume_loop_all_present.
    - simpl. rewrite <- app_assoc. reflexivity.
    - intros i Hi. apply elem_of_py_range in Hi. apply H. lia. }
  split; [exact Hrun|]. split.
  - rewrite Hrun. cbn [snd]. rewrite events_since_app. clear Hrun.
    unfold gets. simpl.
    induction (py_range (start_batch - 1) num_batches) as [|i l IH];
      [reflexivity|exact IH].
  - intros i w1. apply resume_body_skips.
Qed.

Lemma resume_skips_existing_batches_witness :
  resume_from_batch batches_of_five always_answers twelve_urls 1
      three_batches_on_disk =
    (Returns tt,
     mkWorld 0 (files three_batches_on_disk)
       [ELog INFO (ResumingFrom 1 3);
        ELog INFO (BatchExists 1);
        ELog INFO (BatchExists 2);
        ELog INFO (BatchExists 3)]).
Proof.
  refine (proj1 (resume_skips_existing_batches batches_of_five always_answers
                   twelve_urls 1 three_batches_on_disk eq_refl _)).
  intros n Hn.
  change (num_batches_of batches_of_five (Z.of_nat (length twelve_urls)))
    with 3 in Hn.
  assert (n = 1 \/ n = 2 \/ n = 3) as [->|[->| ->]] by lia;
    vm_compute; eexists; reflexivity.
Defined.

(** ** Cooldowns *)

(** C8, as stated, fails: after a batch that [resume_from_batch] skips
    the loop goes straight to the next batch, without the cooldown.
    With the first of three batches on disk, no sleep of 5 separates the
    skipped batch from the second. *)
Lemma resume_skip_has_no_cooldown :
  ~ (forall cfg session (df_urls : list string) start_batch w,
       0 < BATCH_SIZE cfg ->
       paced (spec_pacing (num_batches_of cfg (Z.of_nat (length df_urls))))
         (events_since w
            (snd (resume_from_batch cfg session df_urls start_batch w))) =
         true).
Proof.
  intros H.
  specialize (H batches_of_five always_fails twelve_urls 1 first_batch_on_disk
                eq_refl).
  vm_compute in H. discriminate H.
Qed.

(** C8, amended.  A run of [process_all_batches] sleeps 5 after every
    batch it starts but the last one it starts, whether or not the
    batch left an artifact: one cooldown less than batches started.  A
    run that returns has started all [num_batches] batches, and the run
    returns whenever the server answers with JSON objects; the only
    exception a run ends with is the [TypeError] of [save_batch], after
    which nothing more is slept.  [resume_from_batch] does the same
    after every batch it fetches; a batch it skips because its artifact
    exists is followed by no cooldown. *)
Theorem cooldown_after_fetched_batches (cfg : Config) (session : Session)
    (df_urls : list string) (start_batch : Z) (w : World) :
  0 < BATCH_SIZE cfg ->
  let num_batches := num_batches_of cfg (Z.of_nat (length df_urls)) in
  let full := process_all_batches cfg session df_urls w in
  let full_run := events_since w (snd full) in
  let started := Z.of_nat (length (started_batches full_run)) in
  let again := resume_from_batch cfg session df_urls start_batch w in
  let resumed_run := events_since w (snd again) in
  (paced (spec_pacing started) full_run = true /\
   cooldowns full_run = Z.to_nat (started - 1) /\
   ((exists all_dataframes, fst full = Returns all_dataframes) ->
    started = num_batches) /\
   (forall e, fst full = Raises e -> e = TypeError) /\
   (serves_documents session ->
    exists all_dataframes, fst full = Returns all_dataframes)) /\
  (paced (script_pacing (start_batch - 1 + opened resumed_run)) resumed_run =
     true /\
   (fst again = Returns tt ->
    paced (script_pacing num_batches) resumed_run = true) /\
   (forall e, fst again = Raises e -> e = TypeError) /\
   (serves_documents session -> fst again = Returns tt)) /\
  (forall i w1,
     is_Some (files w1 !! batch_file_name (i + 1)) ->
     cooldowns
       (events_since w1
          (snd (resume_from_batch_body cfg session df_urls num_batches i tt
                  w1))) = 0%nat) /\
  (forall i w1,
     files w1 !! batch_file_name (i + 1) = None ->
     let data :=
       batch_results session (batch_urls_of cfg df_urls i) (calls w1) in
     let step :=
       resume_from_batch_body cfg session df_urls num_batches i tt w1 in
     let evs := events_since w1 (snd step) in
     fst step = (if savable data then Returns tt else Raises TypeError) /\
     cooldowns evs =
       (if savable data && (i <? num_batches - 1) then 1%nat else 0%nat) /\
     (savable data = true -> i < num_batches - 1 ->
      last evs = Some (ESleep 5))).
Proof.
  intros HB num_batches full full_run started again resumed_run.
  pose proof (num_batches_nonneg cfg (Z.of_nat (length df_urls)) HB
                ltac:(lia)) as Hnn.
  fold num_batches in Hnn.
  split; [|split; [|split]].
  - destruct (process_all_batches_run cfg session df_urls w)
      as (w' & evs & kss & Hrun & Hev & _ & _ & _ & _ & Hs & Hc & Hp).
    fold num_batches in Hrun, Hev, Hs, Hc, Hp.
    set (bs := fetched session (batch_urls_of cfg df_urls)
                 (py_range 0 num_batches) (calls w)) in *.
    pose proof (fetched_range_positions session (batch_urls_of cfg df_urls)
                  0 num_batches (calls w)) as Hpos.
    cbv zeta in Hpos. fold bs in Hpos.
    destruct (fetched_shape session (batch_urls_of cfg df_urls)
                (py_range 0 num_batches) (calls w))
      as (_ & _ & _ & Hall & _).
    fold bs in Hall. rewrite py_range_length in Hall.
    assert (full_run =
            ELog INFO (ProcessingUrls (Z.of_nat (length df_urls)) num_batches
                         (BATCH_SIZE cfg)) :: evs) as Hfull.
    { subst full_run full. rewrite Hrun. exact Hev. }
    assert (started = Z.of_nat (length bs)) as Hstarted.
    { subst started. rewrite Hfull.
      change (started_batches (ELog INFO (ProcessingUrls ?a ?b ?c) :: ?X))
        with (started_batches X).
      rewrite Hs, !length_map. reflexivity. }
    rewrite Hfull, Hstarted.
    split.
    { change (paced ?e (ELog INFO (ProcessingUrls ?a ?b ?c) :: ?X))
        with (paced e X).
      apply Hp; [apply spec_pacing_marker|].
      intros b Hb. apply list_elem_of_lookup in Hb as [j Hj].
      destruct (Hpos j b Hj) as [Hfst Hpause].
      rewrite Hpause. unfold spec_pacing. cbn [batch_marker].
      f_equal. rewrite Hfst.
      destruct (decide (S j < length bs)%nat) as [Hin|Hend].
      - rewrite bool_decide_eq_true_2 by exact Hin.
        replace (0 + Z.of_nat j + 1 <? Z.of_nat (length bs)) with true;
          [reflexivity|]. symmetry. apply Z.ltb_lt. lia.
      - rewrite bool_decide_eq_false_2 by exact Hend.
        replace (0 + Z.of_nat j + 1 <? Z.of_nat (length bs)) with false;
          [reflexivity|]. symmetry. apply Z.ltb_ge. lia. }
    split.
    { change (cooldowns (ELog INFO (ProcessingUrls ?a ?b ?c) :: ?X))
        with (cooldowns X).
      rewrite Hc, filter_all_but_last; [lia|].
      intros j b Hj. apply (Hpos j b Hj). }
    subst full. rewrite Hrun. cbn [fst].
    destruct (all_saved bs) eqn:Ha.
    + split; [intros _; rewrite (Hall eq_refl); lia|].
      split; [intros e [=]|]. intros _. eexists. reflexivity.
    + split; [intros [dfs [=]]|].
      split; [intros e [= <-]; reflexivity|].
      intros Hdoc. subst bs.
      rewrite (serves_documents_all_saved session _ _ Hdoc) in Ha.
      discriminate Ha.
  - destruct (resume_from_batch_run cfg session df_urls start_batch w)
      as (w' & evs & kss & Hrun & Hev & _ & _ & _ & _ & Hop & _ & _ & _ & Hp).
    fold num_batches in Hrun, Hev, Hop, Hp.
    set (visits := resumed session (batch_urls_of cfg df_urls) (files w)
                     (py_range (start_batch - 1) num_batches) (calls w)) in *.
    pose proof (resumed_range_positions session (batch_urls_of cfg df_urls)
                  (files w) (start_batch - 1) num_batches (calls w)) as Hpos.
    cbv zeta in Hpos. fold visits in Hpos.
    destruct (resumed_shape session (batch_urls_of cfg df_urls)
                (py_range (start_batch - 1) num_batches) (files w) (calls w))
      as (_ & _ & _ & Hall & _).
    fold visits in Hall. rewrite py_range_length in Hall.
    assert (resumed_run =
            ELog INFO (ResumingFrom start_batch num_batches) :: evs) as Hres.
    { subst resumed_run again. rewrite Hrun. exact Hev. }
    assert (opened resumed_run = Z.of_nat (length visits)) as Hopened.
    { rewrite Hres. exact Hop. }
    assert (forall K,
              (forall j, (j < length visits)%nat ->
                 (start_batch - 1 + Z.of_nat j + 1 <? K) =
                   bool_decide (S j < length visits)%nat) ->
              paced (script_pacing K) resumed_run = true) as Hpaced.
    { intros K HK. rewrite Hres.
      change (paced ?e (ELog INFO (ResumingFrom ?a ?b) :: ?X))
        with (paced e X).
      apply Hp; [apply script_pacing_marker|].
      intros v Hv. apply list_elem_of_lookup in Hv as [j Hj].
      destruct (Hpos j v Hj) as (Hfst & _ & Hpause).
      destruct v as [i [data|]]; cbn [fst snd] in *; [|reflexivity].
      rewrite (Hpause data eq_refl).
      unfold script_pacing, spec_pacing. cbn [batch_marker].
      rewrite Hfst, HK by (apply lookup_lt_Some in Hj; exact Hj).
      reflexivity. }
    split.
    { apply Hpaced. intros j Hj. rewrite Hopened.
      destruct (decide (S j < length visits)%nat) as [Hin|Hend].
      - rewrite bool_decide_eq_true_2 by exact Hin. apply Z.ltb_lt. lia.
      - rewrite bool_decide_eq_false_2 by exact Hend. apply Z.ltb_ge. lia. }
    subst again. rewrite Hrun. cbn [fst].
    destruct (all_saved (fetched_of visits)) eqn:Ha.
    + split.
      { intros _. apply Hpaced. intros j Hj. specialize (Hall eq_refl).
        destruct (decide (S j < length visits)%nat) as [Hin|Hend].
        - rewrite bool_decide_eq_true_2 by exact Hin. apply Z.ltb_lt. lia.
        - rewrite bool_decide_eq_false_2 by exact Hend. apply Z.ltb_ge. lia. }
      split; [intros e [=]|]. intros _. reflexivity.
    + split; [intros [=]|].
      split; [intros e [= <-]; reflexivity|].
      intros Hdoc. subst visits.
      rewrite (serves_documents_resumed session _ _ Hdoc) in Ha.
      discriminate Ha.
  - intros i w1 Hsome. rewrite resume_body_skips by assumption.
    cbn [snd]. rewrite events_since_app. reflexivity.
  - intros i w1 Hnone data step evs1. subst evs1 step.
    destruct (resume_from_batch_body_run cfg session df_urls num_batches i w1
                Hnone) as (q & ks & -> & Hq & _).
    fold data. cbn [fst snd]. rewrite events_since_app.
    split; [reflexivity|]. split.
    + change (cooldowns (?m :: ?X)) with (cooldowns X).
      rewrite cooldowns_app, (quiet_no_cooldown q Hq).
      destruct (savable data && (i <? num_batches - 1)); reflexivity.
    + intros -> Hi. apply Z.ltb_lt in Hi. rewrite Hi. cbn [andb].
      rewrite last_cons, last_snoc. reflexivity.
Qed.

Lemma cooldown_after_fetched_batches_witness :
  cooldowns
    (events_since empty_world
       (snd (process_all_batches batches_of_five always_fails twelve_urls
               empty_world))) = 2%nat /\
  paced (script_pacing 3)
    (events_since first_batch_on_disk
       (snd (resume_from_batch batches_of_five always_fails twelve_urls 1
               first_batch_on_disk))) = true.
Proof.
  split.
  - exact (proj1 (proj2 (proj1 (cooldown_after_fetched_batches batches_of_five
                                  always_fails twelve_urls 1 empty_world
                                  eq_refl)))).
  - exact (proj1 (proj1 (proj2 (cooldown_after_fetched_batches batches_of_five
                                  always_fails twelve_urls 1
                                  first_batch_on_disk eq_refl)))).
Defined.

(** ** The event loop *)

Lemma net_acquired_app evs1 evs2 :
  net_acquired (evs1 ++ evs2) = net_acquired evs1 + net_acquired evs2.
Proof.
  induction evs1 as [|e evs1 IH]; [reflexivity|].
  destruct e; simpl; rewrite IH; lia.
Qed.

Lemma held_app tr j evs :
  held (tr ++ map (pair j) evs) = held tr + net_acquired evs.
Proof.
  induction tr as [|[k e] tr IH]; simpl.
  - induction evs as [|e evs IH]; [reflexivity|].
    destruct e; simpl in *; lia.
  - destruct e; rewrite IH; lia.
Qed.

Lemma held_by_app i tr j evs :
  held_by i (tr ++ map (pair j) evs) =
    held_by i tr + (if (i =? j)%nat then net_acquired evs else 0).
Proof.
  induction tr as [|[k e] tr IH]; simpl.
  - induction evs as [|e evs IH]; simpl.
    + destruct (i =? j)%nat; reflexivity.
    + destruct e; simpl in *; destruct (i =? j)%nat; lia.
  - destruct e; rewrite IH; lia.
Qed.

Lemma requests_of_app i tr j evs :
  requests_of i (tr ++ map (pair j) evs) =
    requests_of i tr ++
    (if (i =? j)%nat
     then omap (fun e => match e with EGet url => Some url | _ => None end) evs
     else []).
Proof.
  unfold requests_of. rewrite omap_app. f_equal.
  induction evs as [|e evs IH]; simpl.
  - destruct (i =? j)%nat; reflexivity.
  - destruct e; simpl; try exact IH.
    destruct (i =? j)%nat; simpl; [f_equal|]; exact IH.
Qed.

Lemma net_acquired_fetch_rest url o :
  net_acquired (List.skipn 2 (fetch_events url o)) = -1.
Proof. fetch_cases o; reflexivity. Qed.

Lemma no_request_in_fetch_rest url o :
  omap (fun e => match e with EGet url => Some url | _ => None end)
    (List.skipn 2 (fetch_events url o)) = [].
Proof. fetch_cases o; reflexivity. Qed.

Lemma net_acquired_after_fetch retries url attempt r :
  net_acquired (after_fetch_events retries url attempt r) = 0.
Proof.
  unfold after_fetch_events. destruct r as [v|e]; [|reflexivity].
  destruct (is_not_none v); [reflexivity|].
  destruct (attempt <? retries - 1); reflexivity.
Qed.

Lemma no_request_after_fetch retries url attempt r :
  omap (fun e => match e with EGet url => Some url | _ => None end)
    (after_fetch_events retries url attempt r) = [].
Proof.
  unfold after_fetch_events. destruct r as [v|e]; [|reflexivity].
  destruct (is_not_none v); [reflexivity|].
  destruct (attempt <? retries - 1); reflexivity.
Qed.

Lemma holds_permit_after_fetch url retries n attempt r seen :
  holds_permit (mkTask url (after_fetch retries n attempt r) seen) = 0.
Proof.
  unfold after_fetch. destruct r as [v|e]; [|reflexivity].
  destruct (is_not_none v); [reflexivity|].
  destruct (attempt <? retries - 1); reflexivity.
Qed.

Lemma count_of_app i p tr j evs :
  count_of i p (tr ++ map (pair j) evs) =
    (count_of i p tr +
     if (i =? j)%nat then length (List.filter p evs) else 0)%nat.
Proof.
  unfold count_of. rewrite List.filter_app, length_app. f_equal.
  induction evs as [|e evs IH]; simpl.
  - destruct (i =? j)%nat; reflexivity.
  - destruct (i =? j)%nat; simpl in *; [|exact IH].
    destruct (p e); simpl; rewrite IH; reflexivity.
Qed.

Lemma fetch_rest_counts url o :
  List.filter is_acquire (List.skipn 2 (fetch_events url o)) = [] /\
  List.filter is_get (List.skipn 2 (fetch_events url o)) = [] /\
  List.filter is_release (List.skipn 2 (fetch_events url o)) = [ERelease].
Proof. fetch_cases o; repeat split. Qed.

Lemma after_fetch_counts retries url attempt r :
  List.filter is_acquire (after_fetch_events retries url attempt r) = [] /\
  List.filter is_get (after_fetch_events retries url attempt r) = [] /\
  List.filter is_release (after_fetch_events retries url attempt r) = [].
Proof.
  unfold after_fetch_events. destruct r as [v|e]; [|repeat split].
  destruct (is_not_none v); [repeat split|].
  destruct (attempt <? retries - 1); repeat split.
Qed.

(** One move of a task takes as many permits as it issues requests, and
    gives back one permit per answer received. *)
Lemma task_step_counts retries permits t evs permits' t' :
  task_step retries (permits, t) evs (permits', t') ->
  length (List.filter is_acquire evs) = length (List.filter is_get evs) /\
  length (task_seen t') =
    (length (task_seen t) + length (List.filter is_release evs))%nat /\
  Z.of_nat (length (List.filter is_get evs)) + Z.of_nat (length (task_seen t))
    + holds_permit t =
  Z.of_nat (length (task_seen t')) + holds_permit t'.
Proof.
  intros Hstep. inversion Hstep; subst; clear Hstep.
  - simpl. repeat split; lia.
  - unfold holds_permit. simpl. repeat split; lia.
  - destruct (fetch_rest_counts url o) as (H1 & H2 & H3).
    destruct (after_fetch_counts retries url attempt (fetch_result url o))
      as (H4 & H5 & H6).
    rewrite !List.filter_app, H1, H2, H3, H4, H5, H6.
    rewrite holds_permit_after_fetch. unfold holds_permit. simpl.
    rewrite length_app. simpl. repeat split; lia.
  - simpl. repeat split; lia.
Qed.

(** What one move of a task does to the semaphore and to the trace. *)
Lemma task_step_facts retries permits t evs permits' t' :
  task_step retries (permits, t) evs (permits', t') ->
  task_url t' = task_url t /\
  Z.of_nat permits' + holds_permit t' = Z.of_nat permits + holds_permit t /\
  net_acquired evs = holds_permit t' - holds_permit t /\
  Forall (fun url => url = task_url t)
    (omap (fun e => match e with EGet url => Some url | _ => None end) evs) /\
  (task_consistent t -> task_consistent t').
Proof.
  intros Hstep. inversion Hstep; subst; clear Hstep.
  - repeat split; try reflexivity; try (simpl; lia); [constructor|].
    unfold task_consistent. simpl. intros H. left. split; [reflexivity|exact H].
  - repeat split; try reflexivity; try (unfold holds_permit; simpl; lia);
      [repeat constructor|].
    unfold task_consistent. simpl. tauto.
  - rewrite net_acquired_app, net_acquired_fetch_rest,
      net_acquired_after_fetch, omap_app, no_request_in_fetch_rest,
      no_request_after_fetch, holds_permit_after_fetch.
    repeat split; try reflexivity; try (unfold holds_permit; simpl; lia);
      [constructor|].
    unfold task_consistent. simpl. intros Hseen.
    destruct (fetch_result_returns url o) as [v Hv]. rewrite Hv. simpl.
    destruct (is_not_none v) eqn:Hnn.
    + right. exists seen, o. repeat split; assumption.
    + apply is_not_none_false in Hnn as ->.
      destruct (attempt <? retries - 1); simpl;
        apply Forall_app; split; try assumption; repeat constructor; exact Hv.
  - repeat split; try reflexivity; try (simpl; lia); [constructor|].
    unfold task_consistent. simpl. tauto.
Qed.

Lemma in_flight_insert (l : list task) i t t' :
  l !! i = Some t ->
  Z.of_nat (length (List.filter is_in_flight (<[i := t']> l))) =
    Z.of_nat (length (List.filter is_in_flight l))
    - holds_permit t + holds_permit t'.
Proof.
  revert i. induction l as [|x l IH]; intros i H; [discriminate H|].
  destruct i as [|i]; simpl in *.
  - injection H as ->. unfold holds_permit.
    destruct (is_in_flight t), (is_in_flight t'); simpl; lia.
  - specialize (IH i H). destruct (is_in_flight x); simpl; lia.
Qed.

Lemma pool_inv_init capacity retries urls :
  pool_inv capacity urls (init_pool capacity retries urls).
Proof.
  assert (forall l : list string,
            List.filter is_in_flight
              (map (fun url => mkTask (full_url url)
                                 (Waiting (Z.to_nat retries) 0) []) l) = [])
    as Hnone.
  { induction l as [|u l IH]; [reflexivity|exact IH]. }
  split; unfold init_pool, in_flight; simpl.
  - rewrite Hnone. simpl. lia.
  - rewrite Hnone. reflexivity.
  - intros i t Ht. apply list_lookup_fmap_Some in Ht as (u & -> & _).
    reflexivity.
  - rewrite map_map. reflexivity.
  - intros i t _. constructor.
  - intros i t Ht. apply list_lookup_fmap_Some in Ht as (u & -> & _).
    repeat split.
  - apply Forall_fmap, Forall_true. intros u.
    unfold task_consistent. simpl. constructor.
Qed.

Lemma pool_inv_step capacity retries urls P P' :
  pool_inv capacity urls P ->
  pool_step retries P P' ->
  pool_inv capacity urls P'.
Proof.
  intros [Hp Hh Hb Hu Hr Hn Hc] Hstep.
  destruct Hstep as [P i t evs permits' t' Hi Hstep].
  destruct (task_step_facts _ _ _ _ _ _ Hstep)
    as (Hurl & Hperm & Hnet & Hreq & Hcons).
  destruct (task_step_counts _ _ _ _ _ _ Hstep) as (Hag & Hrel & Hget).
  pose proof (in_flight_insert (tasks P) i t t' Hi) as Hin.
  pose proof (lookup_lt_Some _ _ _ Hi) as Hlt.
  split; unfold in_flight in *; simpl.
  - lia.
  - rewrite held_app. lia.
  - intros j t'' Hj. rewrite held_by_app.
    destruct (Nat.eqb_spec j i) as [->|Hne].
    + rewrite list_lookup_insert_eq in Hj by assumption.
      injection Hj as <-. rewrite (Hb i t Hi). lia.
    + rewrite list_lookup_insert_ne in Hj by congruence.
      rewrite (Hb j t'' Hj). lia.
  - change (map task_url (<[i:=t']> (tasks P)))
      with (task_url <$> <[i:=t']> (tasks P)).
    rewrite list_fmap_insert, list_insert_id; [exact Hu|].
    rewrite list_lookup_fmap, Hi. simpl. congruence.
  - intros j t'' Hj. rewrite requests_of_app. apply Forall_app.
    destruct (Nat.eqb_spec j i) as [->|Hne].
    + rewrite list_lookup_insert_eq in Hj by assumption.
      injection Hj as <-. rewrite Hurl. split; [exact (Hr i t Hi)|exact Hreq].
    + rewrite list_lookup_insert_ne in Hj by congruence.
      split; [exact (Hr j t'' Hj)|constructor].
  - intros j t'' Hj. rewrite !count_of_app.
    destruct (Nat.eqb_spec j i) as [->|Hne].
    + rewrite list_lookup_insert_eq in Hj by assumption.
      injection Hj as <-. destruct (Hn i t Hi) as (N1 & N2 & N3).
      repeat split; lia.
    + rewrite list_lookup_insert_ne in Hj by congruence.
      destruct (Hn j t'' Hj) as (N1 & N2 & N3).
      repeat split; lia.
  - apply Forall_insert; [exact Hc|]. apply Hcons.
    eapply Forall_lookup_1; eassumption.
Qed.

Lemma reachable_inv capacity retries urls P :
  reachable capacity retries urls P -> pool_inv capacity urls P.
Proof.
  unfold reachable. intros H.
  apply (rtc_ind_r (R := pool_step retries) (pool_inv capacity urls)
           (init_pool capacity retries urls)); [| |exact H].
  - apply pool_inv_init.
  - intros P1 P2 _ Hstep IH. eapply pool_inv_step; eassumption.
Qed.

(** The executable scheduler only makes moves of the event loop. *)
Lemma task_move_step retries permits t o evs permits' t' :
  task_move retries permits t o = Some (evs, permits', t') ->
  task_step retries (permits, t) evs (permits', t').
Proof.
  destruct t as [url st seen]. unfold task_move. simpl.
  destruct st as [[|n] a|n a|n a|v|e]; try discriminate.
  - intros [= <- <- <-]. constructor.
  - destruct permits as [|p]; [discriminate|].
    intros [= <- <- <-]. constructor.
  - intros [= <- <- <-]. constructor.
  - intros [= <- <- <-]. constructor.
Qed.

Lemma pool_move_step retries P i o P' :
  pool_move retries P i o = Some P' -> pool_step retries P P'.
Proof.
  unfold pool_move. destruct (tasks P !! i) as [t|] eqn:Hi; [|discriminate].
  destruct (task_move retries (permits P) t o) as [[[evs p'] t']|] eqn:Hm;
    [|discriminate].
  intros [= <-]. econstructor; [exact Hi|].
  apply task_move_step with o. exact Hm.
Qed.

Lemma run_schedule_rtc retries schedule P P' :
  run_schedule retries schedule P = Some P' -> rtc (pool_step retries) P P'.
Proof.
  revert P. induction schedule as [|[i o] schedule IH]; intros P; simpl.
  - intros [= <-]. constructor.
  - destruct (pool_move retries P i o) as [P1|] eqn:Hm; [|discriminate].
    intros H. eapply rtc_l; [eapply pool_move_step; exact Hm|].
    apply IH. exact H.
Qed.

(** ** The sequential schedule is a run of the event loop *)

Lemma fetch_events_head url o :
  fetch_events url o =
    [EAcquire; EGet url] ++ List.skipn 2 (fetch_events url o).
Proof. fetch_cases o; reflexivity. Qed.

Lemma pool_eq p1 p2 ts1 ts2 tr1 tr2 :
  p1 = p2 -> ts1 = ts2 -> tr1 = tr2 -> mkPool p1 ts1 tr1 = mkPool p2 ts2 tr2.
Proof. intros -> -> ->. reflexivity. Qed.

(** Running [retry_loop] to its end is a sequence of moves of the task
    at position [i], with the same result and the same effects. *)
Lemma task_runs_to_completion session retries url n :
  forall attempt w P i seen,
    tasks P !! i = Some (mkTask url (Waiting n attempt) seen) ->
    (0 < permits P)%nat ->
    exists v k evs seen',
      retry_loop session url retries n attempt w =
        (Returns v, mkWorld (calls w + k) (files w) (trace w ++ evs)) /\
      rtc (pool_step retries) P
        (mkPool (permits P)
           (<[i := mkTask url (Finished v) seen']> (tasks P))
           (pool_trace P ++ map (pair i) evs)).
Proof.
  induction n as [|n IH]; intros attempt w P i seen Hi Hperm.
  - exists PyNone, 0%nat, [ELog ERROR (FailedAfterRetries retries url)], seen.
    split; [rewrite retry_loop_O, Nat.add_0_r; reflexivity|].
    apply rtc_once. eapply (pool_step_task retries P i); [exact Hi|].
    constructor.
  - pose proof (lookup_lt_Some _ _ _ Hi) as Hlt.
    destruct (permits P) as [|p] eqn:Hp; [lia|].
    set (o := session url (calls w)).
    destruct (fetch_result_returns url o) as [v Hv].
    set (P1 := mkPool p (<[i := mkTask url (InFlight n attempt) seen]> (tasks P))
                 (pool_trace P ++ map (pair i) [EAcquire; EGet url])).
    assert (pool_step retries P P1) as Hstep1.
    { eapply (pool_step_task retries P i); [exact Hi|]. rewrite Hp. constructor. }
    set (P2 := mkPool (S p)
                 (<[i := mkTask url (after_fetch retries n attempt (Returns v))
                           (seen ++ [o])]> (tasks P))
                 (pool_trace P ++
                  map (pair i)
                    (fetch_events url o ++
                     after_fetch_events retries url attempt (Returns v)))).
    assert (pool_step retries P1 P2) as Hstep2.
    { assert (tasks P1 !! i = Some (mkTask url (InFlight n attempt) seen)) as Hi1
        by (apply list_lookup_insert_eq; exact Hlt).
      pose proof (pool_step_task retries P1 i _ _ _ _ Hi1
                    (step_response retries url seen n attempt p o)) as Hs.
      rewrite Hv in Hs. simpl in Hs.
      replace P2 with
        (mkPool (S p)
           (<[i := mkTask url (after_fetch retries n attempt (Returns v))
                     (seen ++ [o])]>
              (<[i := mkTask url (InFlight n attempt) seen]> (tasks P)))
           ((pool_trace P ++ [(i, EAcquire); (i, EGet url)]) ++
            map (pair i)
              (List.skipn 2 (fetch_events url o) ++
               after_fetch_events retries url attempt (Returns v))));
        [exact Hs|].
      subst P2. apply pool_eq; [reflexivity|apply list_insert_insert_eq|].
      rewrite (fetch_events_head url o) at 2.
      rewrite <- !app_assoc, !map_app. reflexivity. }
    rewrite retry_loop_S. fold o. cbv zeta. rewrite Hv.
    destruct (is_not_none v) eqn:Hnn.
    + exists v, 1%nat, (fetch_events url o), (seen ++ [o]).
      split; [rewrite Nat.add_1_r; reflexivity|].
      eapply rtc_l; [exact Hstep1|]. eapply rtc_l; [exact Hstep2|].
      subst P2. unfold after_fetch, after_fetch_events. rewrite Hnn.
      rewrite app_nil_r. apply rtc_refl.
    + (* the attempt failed: sleep if another attempt follows, then loop *)
      set (w1 := mkWorld (S (calls w)) (files w)
                   (trace w ++ fetch_events url o ++
                    after_fetch_events retries url attempt (Returns v))).
      set (P3 := mkPool (S p)
                   (<[i := mkTask url (Waiting n (attempt + 1)) (seen ++ [o])]>
                      (tasks P))
                   (pool_trace P2)).
      assert (rtc (pool_step retries) P2 P3) as Hwake.
      { subst P2 P3. unfold after_fetch. rewrite Hnn. simpl.
        destruct (attempt <? retries - 1).
        - apply rtc_once.
          match goal with
          | |- pool_step _ ?Q _ =>
              assert (tasks Q !! i =
                        Some (mkTask url (Sleeping n attempt) (seen ++ [o])))
                as Hi2 by (apply list_lookup_insert_eq; exact Hlt);
              pose proof (pool_step_task retries Q i _ _ _ _ Hi2
                            (step_wake retries url (seen ++ [o]) n attempt
                               (S p))) as Hs
          end.
          simpl in Hs. rewrite list_insert_insert_eq, app_nil_r in Hs.
          exact Hs.
        - apply rtc_refl. }
      destruct (IH (attempt + 1) w1 P3 i (seen ++ [o]))
        as (v' & k & evs & seen' & Hloop & Hrun).
      { subst P3. simpl. apply list_lookup_insert_eq. exact Hlt. }
      { subst P3. simpl. lia. }
      exists v', (S k),
        (fetch_events url o ++
         after_fetch_events retries url attempt (Returns v) ++ evs), seen'.
      split.
      { fold w1. rewrite Hloop. subst w1. simpl.
        f_equal. f_equal; [lia|]. rewrite <- !app_assoc. reflexivity. }
      eapply rtc_l; [exact Hstep1|]. eapply rtc_l; [exact Hstep2|].
      eapply rtc_trans; [exact Hwake|].
      match goal with
      | |- rtc _ _ ?Q =>
          replace Q with
            (mkPool (permits P3)
               (<[i := mkTask url (Finished v') seen']> (tasks P3))
               (pool_trace P3 ++ map (pair i) evs)); [exact Hrun|]
      end.
      subst P3 P2. simpl. apply pool_eq;
        [reflexivity|apply list_insert_insert_eq|].
      rewrite <- !app_assoc, !map_app, <- !app_assoc. reflexivity.
Qed.

Lemma gather_runs session retries (urls : list string) :
  forall (done : list task) w P,
    tasks P =
      done ++
      map (fun url => mkTask (full_url url) (Waiting (Z.to_nat retries) 0) [])
        urls ->
    (0 < permits P)%nat ->
    exists results k evs P' done',
      gather (map (fun url => fetch_with_retry session (full_url url) retries)
                urls) w =
        (Returns results, mkWorld (calls w + k) (files w) (trace w ++ evs)) /\
      rtc (pool_step retries) P P' /\
      permits P' = permits P /\
      tasks P' = done ++ done' /\
      map snd (pool_trace P') = map snd (pool_trace P) ++ evs /\
      mapM task_result done' = Some results.
Proof.
  induction urls as [|url urls IH]; intros done w P Htasks Hperm.
  - exists [], 0%nat, [], P, []. simpl. unfold ret.
    rewrite Nat.add_0_r, !app_nil_r. destruct w.
    split; [reflexivity|]. split; [apply rtc_refl|].
    split; [reflexivity|]. split; [|split; reflexivity].
    rewrite Htasks. simpl. apply app_nil_r.
  - simpl in Htasks.
    assert (tasks P !! length done =
              Some (mkTask (full_url url) (Waiting (Z.to_nat retries) 0) []))
      as Hi.
    { rewrite Htasks. apply list_lookup_middle. reflexivity. }
    destruct (task_runs_to_completion session retries (full_url url)
                (Z.to_nat retries) 0 w P (length done) [] Hi Hperm)
      as (v & k & evs & seen' & Hloop & Hrun).
    match type of Hrun with
    | rtc _ _ ?Q => set (P1 := Q) in *
    end.
    destruct (IH (done ++ [mkTask (full_url url) (Finished v) seen'])
                (mkWorld (calls w + k) (files w) (trace w ++ evs)) P1)
      as (results & k' & evs' & P' & done' & Hg & Hrun' & Hp' & Ht' & Htr' & Hres).
    { subst P1. simpl. rewrite Htasks.
      replace (length done) with (length done + 0)%nat by lia.
      rewrite insert_app_r. simpl. rewrite <- app_assoc. reflexivity. }
    { subst P1. simpl. exact Hperm. }
    exists (v :: results), (k + k')%nat, (evs ++ evs'), P',
      (mkTask (full_url url) (Finished v) seen' :: done').
    split.
    { simpl. unfold bind at 1. unfold fetch_with_retry at 1. rewrite Hloop.
      unfold bind at 1. rewrite Hg. unfold ret. simpl.
      f_equal. f_equal; [lia|]. rewrite <- app_assoc. reflexivity. }
    split; [eapply rtc_trans; eassumption|].
    split; [rewrite Hp'; reflexivity|].
    split; [rewrite Ht', <- app_assoc; reflexivity|].
    split.
    { rewrite Htr'. subst P1. simpl.
      rewrite map_app, map_map, <- app_assoc. simpl.
      rewrite map_id. reflexivity. }
    apply mapM_Some_2. constructor; [reflexivity|].
    apply mapM_Some_1. exact Hres.
Qed.

(** The results and the effects of [fetch_batch] are those of a run of
    the event loop from the pool of the batch: the one that runs the
    tasks one after the other. *)
Lemma fetch_batch_is_a_run session (urls : list string) batch_number w
    capacity :
  (0 < capacity)%nat ->
  exists results w' P,
    fetch_batch session urls batch_number w = (Returns results, w') /\
    reachable capacity 3 urls P /\
    gather_results P = Some results /\
    events_since w w' =
      ELog INFO (BatchFetching batch_number (length urls))
      :: map snd (pool_trace P) ++
         [ELog INFO
            (BatchStats batch_number (count_not_none results)
               (Z.of_nat (length results) - count_not_none results))].
Proof.
  intros Hcap.
  destruct (gather_runs session 3 urls []
              (mkWorld (calls w) (files w)
                 (trace w ++ [ELog INFO (BatchFetching batch_number
                                           (length urls))]))
              (init_pool capacity 3 urls))
    as (results & k & evs & P & done' & Hg & Hrun & _ & Ht & Htr & Hres);
    [reflexivity|exact Hcap|].
  simpl in Ht, Htr, Hg.
  eexists results, _, P. split.
  { unfold fetch_batch. cbv zeta. unfold bind at 1. unfold logger, emit.
    rewrite length_map. unfold bind at 1. rewrite Hg.
    unfold bind, ret. simpl. reflexivity. }
  split; [exact Hrun|]. split.
  { unfold gather_results. rewrite Ht. exact Hres. }
  unfold events_since. simpl. rewrite Htr.
  rewrite <- !app_assoc. rewrite drop_app_length. reflexivity.
Qed.

(** ** The bound on concurrency and the order of results *)

Lemma gather_results_finished P results :
  gather_results P = Some results ->
  Forall2 (fun t result => task_st t = Finished result) (tasks P) results.
Proof.
  unfold gather_results. intros H. apply mapM_Some_1 in H.
  eapply Forall2_impl; [exact H|].
  intros t result. unfold task_result.
  destruct (task_st t); intros [=]. congruence.
Qed.

Lemma gather_results_none_in_flight P results :
  gather_results P = Some results -> in_flight P = 0%nat.
Proof.
  intros H. apply gather_results_finished in H. unfold in_flight.
  induction H as [|t r l k Ht _ IH]; [reflexivity|].
  simpl. unfold is_in_flight at 1. rewrite Ht. exact IH.
Qed.

(** C9.  With the semaphore of [fetch_batch] (fifty permits), in every
    state the event loop can reach, the requests on the wire are at most
    fifty.  A task holds one permit exactly while its request is on the
    wire: the permits taken and not yet given back in the trace are
    those of the tasks in flight, and a sleeping task holds none.  Every
    request of a task, first attempt or retry, has its own acquisition,
    and every answer received its release.  When every task of the
    batch has returned all fifty permits are back. *)
Theorem concurrency_bound (retries : Z) (urls : list string) (P : pool) :
  reachable (MAX_CONCURRENT_REQUESTS script_config) retries urls P ->
  (in_flight P <= 50)%nat /\
  (permits P + in_flight P)%nat = 50%nat /\
  held (pool_trace P) = Z.of_nat (in_flight P) /\
  held (pool_trace P) <= 50 /\
  (forall i t, tasks P !! i = Some t ->
     held_by i (pool_trace P) = holds_permit t) /\
  (forall i t, tasks P !! i = Some t -> is_sleeping t = true ->
     held_by i (pool_trace P) = 0) /\
  (forall i t, tasks P !! i = Some t ->
     count_of i is_acquire (pool_trace P) = count_of i is_get (pool_trace P) /\
     count_of i is_release (pool_trace P) = length (task_seen t) /\
     Z.of_nat (count_of i is_get (pool_trace P)) =
       Z.of_nat (length (task_seen t)) + holds_permit t) /\
  (forall results, gather_results P = Some results ->
     permits P = 50%nat /\ in_flight P = 0%nat).
Proof.
  intros H. apply reachable_inv in H as [Hp Hh Hb _ _ Hn _].
  change (MAX_CONCURRENT_REQUESTS script_config) with 50%nat in Hp.
  split; [lia|]. split; [exact Hp|]. split; [exact Hh|].
  split; [lia|]. split; [exact Hb|]. split.
  { intros i t Hi Hs. rewrite (Hb i t Hi). unfold holds_permit, is_in_flight.
    unfold is_sleeping in Hs. destruct (task_st t); try discriminate.
    reflexivity. }
  split; [exact Hn|].
  intros results Hres. apply gather_results_none_in_flight in Hres. lia.
Qed.

Lemma concurrency_bound_witness :
  exists P,
    run_schedule 3 first_sleeps_schedule (init_pool 50 3 two_urls) = Some P /\
    (in_flight P <= 50)%nat /\
    (forall i t, tasks P !! i = Some t -> is_sleeping t = true ->
       held_by i (pool_trace P) = 0).
Proof.
  eexists. split; [vm_compute; reflexivity|].
  match goal with
  | |- (in_flight ?P <= _)%nat /\ _ =>
      destruct (concurrency_bound 3 two_urls P)
        as (H1 & _ & _ & _ & _ & H6 & _)
  end.
  - apply run_schedule_rtc with first_sleeps_schedule. vm_compute. reflexivity.
  - split; [exact H1|exact H6].
Defined.

Lemma filter_sublist {A} (f : A -> bool) (l : list A) :
  sublist (List.filter f l) l.
Proof.
  induction l as [|x l IH]; simpl; [constructor|].
  destruct (f x); [apply sublist_skip|apply sublist_cons]; exact IH.
Qed.

Lemma successes_results (urls : list string) (results : list json) :
  length results = length urls ->
  map snd (successes urls results) = List.filter is_not_none results.
Proof.
  unfold successes. revert results.
  induction urls as [|u urls IH]; intros [|r results] Hlen;
    try discriminate Hlen; [reflexivity|].
  simpl. destruct (is_not_none r); simpl; rewrite IH by (simpl in Hlen; lia);
    reflexivity.
Qed.

Lemma successes_urls (urls : list string) (results : list json) :
  sublist (map fst (successes urls results)) urls.
Proof.
  unfold successes. revert results.
  induction urls as [|u urls IH]; intros [|r results]; simpl;
    try apply sublist_nil_l.
  destruct (is_not_none r); simpl;
    [apply sublist_skip|apply sublist_cons]; apply IH.
Qed.

(** C7.  Whatever the order in which the event loop completes the
    requests, once every task has returned the result list has one entry
    per identifier and the entry at position [i] is the result of the
    task created for the [i]-th identifier: that task only ever
    requested the URL of that identifier, and a result other than [None]
    is the document [fetch] parsed from the last answer to it.  The
    sequential schedule that [fetch_batch] follows here is one of these
    runs and returns one entry per identifier as well.  [save_batch]
    returns for this result list exactly when every entry other than
    [None] is a JSON object, and otherwise raises [TypeError] and writes
    nothing.  The rows it writes are the entries other than [None], in
    the order of the list: at most as many rows as identifiers, and the
    identifiers of the rows are a subsequence of the input. *)
Theorem results_in_input_order (retries : Z) (urls : list string) (P : pool)
    (results : list json) (session : Session) (batch_number : Z) (w : World) :
  reachable (MAX_CONCURRENT_REQUESTS script_config) retries urls P ->
  gather_results P = Some results ->
  length results = length urls /\
  (forall i url,
     urls !! i = Some url ->
     exists t result,
       tasks P !! i = Some t /\
       task_url t = full_url url /\
       results !! i = Some result /\
       task_st t = Finished result /\
       Forall (fun u => u = full_url url) (requests_of i (pool_trace P)) /\
       (is_not_none result = true ->
        exists seen o,
          task_seen t = seen ++ [o] /\
          Forall (answers_none (full_url url)) seen /\
          fetch_result (full_url url) o = Returns result)) /\
  (exists sequential w1 P1,
     fetch_batch session urls batch_number w = (Returns sequential, w1) /\
     reachable (MAX_CONCURRENT_REQUESTS script_config) 3 urls P1 /\
     gather_results P1 = Some sequential /\
     length sequential = length urls) /\
  (exists r w',
     save_batch results batch_number w = (r, w') /\
     ((exists saved, r = Returns saved) <-> savable results = true) /\
     (forall e, r = Raises e -> e = TypeError /\ w' = w) /\
     forall df,
       r = Returns (Some df) ->
       files w' !! batch_file_name batch_number = Some df /\
       (length (rows df) <= length urls)%nat /\
       rows df = List.filter is_not_none results /\
       sublist (rows df) results /\
       rows df = map snd (successes urls results) /\
       sublist (map fst (successes urls results)) urls).
Proof.
  intros Hreach Hres.
  apply reachable_inv in Hreach as [_ _ _ Hu Hr _ Hc].
  pose proof (gather_results_finished P results Hres) as Hfin.
  assert (length results = length urls) as Hlen.
  { apply Forall2_length in Hfin. rewrite <- Hfin.
    rewrite <- (length_map task_url), Hu, length_map. reflexivity. }
  split; [exact Hlen|]. split.
  { intros i url Hi.
    assert (exists t, tasks P !! i = Some t /\ task_url t = full_url url)
      as (t & Ht & Hturl).
    { assert ((task_url <$> tasks P) !! i = Some (full_url url)) as E.
      { change (task_url <$> tasks P) with (map task_url (tasks P)).
        rewrite Hu. change (map full_url urls) with (full_url <$> urls).
        rewrite list_lookup_fmap, Hi. reflexivity. }
      apply list_lookup_fmap_Some in E as (t & E1 & E2). eauto. }
    destruct (Forall2_lookup_l _ _ _ _ _ Hfin Ht) as (result & Hri & Hst).
    exists t, result. repeat split; try assumption.
    - rewrite <- Hturl. apply (Hr i t Ht).
    - intros Hnn.
      pose proof (Forall_lookup_1 _ _ _ _ Hc Ht) as Hcons.
      unfold task_consistent in Hcons. rewrite Hst, Hturl in Hcons.
      destruct Hcons as [[-> _]|(seen & o & H1 & H2 & H3 & _)];
        [discriminate Hnn|].
      exists seen, o. repeat split; assumption. }
  split.
  { destruct (fetch_batch_is_a_run session urls batch_number w
                (MAX_CONCURRENT_REQUESTS script_config))
      as (rs & w1 & P1 & Hrun & Hreach1 & Hres1 & _); [simpl; lia|].
    exists rs, w1, P1. repeat split; try assumption.
    destruct (fetch_batch_run session urls batch_number w)
      as (rs' & k & evs & Hrun' & Hl & _).
    congruence. }
  rewrite save_batch_run. cbv zeta. unfold savable.
  destruct (List.filter is_not_none results) as [|d filtered_data] eqn:Hf.
  - eexists _, _. split; [reflexivity|].
    split; [split; [reflexivity|eauto]|].
    split; [intros e [=]|]. intros df [=].
  - cbn [py_not].
    destruct (forallb is_dict (d :: filtered_data)).
    + eexists _, _. split; [reflexivity|].
      split; [split; [reflexivity|eauto]|].
      split; [intros e [=]|].
      intros df [= <-]. cbn [files rows]. rewrite <- Hf.
      repeat split.
      * rewrite Hf. apply lookup_insert_eq.
      * rewrite <- Hlen. apply List.filter_length_le.
      * apply filter_sublist.
      * symmetry. apply successes_results. exact Hlen.
      * apply successes_urls.
    + eexists _, _. split; [reflexivity|].
      split; [split; [intros [saved [=]]|discriminate]|].
      split; [intros e [= <-]; split; reflexivity|]. intros df [=].
Qed.

Lemma results_in_input_order_witness :
  exists P,
    run_schedule 3 second_finishes_first_schedule (init_pool 50 3 two_urls) =
      Some P /\
    gather_results P = Some [sample_document; other_document] /\
    length [sample_document; other_document] = length two_urls.
Proof.
  eexists. split; [vm_compute; reflexivity|].
  split; [vm_compute; reflexivity|].
  match goal with
  | H : _ |- _ => fail
  | |- length ?results = _ =>
      refine (proj1 (results_in_input_order 3 two_urls _ results always_answers
                       1 empty_world _ _))
  end.
  - apply run_schedule_rtc with second_finishes_first_schedule.
    vm_compute. reflexivity.
  - vm_compute. reflexivity.
Defined.

(** ** The scenario of the design document

    Twelve identifiers in batches of five, the third and the ninth
    failing on every attempt: three artifacts, of four, four and two
    rows. *)
Example twelve_by_five :
  let w :=
    snd (process_all_batches batches_of_five third_and_ninth_fail twelve_urls
           empty_world) in
  map (fun n => option_map (fun df => length (rows df))
                  (files w !! batch_file_name n)) [1; 2; 3; 4] =
    [Some 4%nat; Some 4%nat; Some 2%nat; None] /\
  calls w = 16%nat /\
  cooldowns (trace w) = 2%nat.
Proof. vm_compute. repeat split. Qed.

(** * Further properties *)

(** ** The requests of a run *)

Lemma take_length_take {A} (n : nat) (l : list A) :
  take (length (take n l)) l = take n l.
Proof.
  rewrite length_take. destruct (Nat.le_gt_cases n (length l)) as [H|H].
  - rewrite Nat.min_l by exact H. reflexivity.
  - rewrite Nat.min_r by lia. rewrite firstn_all, take_ge by lia. reflexivity.
Qed.

Lemma NoDup_take_l {A} (n : nat) (l : list A) : NoDup l -> NoDup (take n l).
Proof.
  intros H. rewrite <- (take_drop n l) in H.
  apply NoDup_app in H as [H _]. exact H.
Qed.

(** X4.  With a positive batch size, a run of [process_all_batches]
    requests the identifiers of the batches it fetches, between one and
    three times each, and requests nothing else.  The identifiers
    requested are a prefix of the list, in the order of the list (under
    the schedule of [gather] that runs the tasks of a batch one after
    the other, so are the requests inside a batch): the whole list when
    [save_batch] gets through every batch -- as it does when the server
    answers with JSON objects -- and the run returns, between [N] and
    [3N] requests for [N] identifiers; the batches up to the one
    [save_batch] raises [TypeError] on otherwise. *)
Theorem process_all_batches_request_budget (cfg : Config) (session : Session)
    (df_urls : list string) (w : World) :
  0 < BATCH_SIZE cfg ->
  let num_batches := num_batches_of cfg (Z.of_nat (length df_urls)) in
  let urls_of := batch_urls_of cfg df_urls in
  let bs := fetched session urls_of (py_range 0 num_batches) (calls w) in
  let requested := concat (map urls_of (map fst bs)) in
  exists w' ks,
    process_all_batches cfg session df_urls w =
      ((if all_saved bs
        then Returns (omap (fun b => table_of (snd b)) bs)
        else Raises TypeError), w') /\
    requested = take (length requested) df_urls /\
    (all_saved bs = true -> requested = df_urls) /\
    (serves_documents session -> all_saved bs = true) /\
    length ks = length requested /\
    Forall (fun k => 1 <= k <= 3)%nat ks /\
    gets (events_since w w') = concat (zip_with requests_for requested ks) /\
    calls w' = (calls w + sum_list ks)%nat /\
    (length requested <= calls w' - calls w <= 3 * length requested)%nat.
Proof.
  intros HB num_batches urls_of bs requested.
  destruct (process_all_batches_run cfg session df_urls w)
    as (w' & evs & kss & Hrun & Hev & Hc & _ & H2 & Hg & _).
  fold num_batches urls_of in Hrun, Hev, Hc, H2, Hg.
  fold bs in Hrun, Hc, H2, Hg.
  pose proof (num_batches_nonneg cfg (Z.of_nat (length df_urls)) HB
                ltac:(lia)) as Hnn.
  pose proof (num_batches_ceil cfg (Z.of_nat (length df_urls)) HB) as Hceil.
  fold num_batches in Hnn, Hceil.
  destruct (fetched_shape session urls_of (py_range 0 num_batches) (calls w))
    as (Hfst & Hlen & _ & Hall & _).
  fold bs in Hfst, Hlen, Hall.
  assert (Forall2 (fun i ks => length ks = length (urls_of i) /\
                               Forall (fun k => 1 <= k <= 3)%nat ks)
            (map fst bs) kss) as Hk.
  { apply Forall2_fmap_l. eapply Forall2_impl; [exact H2|].
    intros b ks (_ & H3 & H4). split; assumption. }
  destruct (requests_of_batches urls_of _ _ Hk) as (Hflat & Hlk & Hbound).
  fold requested in Hflat, Hlk.
  assert (requested =
          take (Z.to_nat (Z.min (Z.of_nat (length bs) * BATCH_SIZE cfg)
                            (Z.of_nat (length df_urls)))) df_urls) as Hpre.
  { subst requested. rewrite Hfst, take_py_range by exact Hlen.
    rewrite py_range_length in Hlen.
    apply (batches_prefix cfg df_urls (length bs) HB).
    fold num_batches. lia. }
  exists w', (concat kss).
  split; [exact Hrun|].
  split; [rewrite Hpre at 2; rewrite Hpre at 1;
          rewrite take_length_take; reflexivity|].
  split.
  { intros Ha. rewrite Hpre, (Hall Ha), py_range_length.
    apply take_ge. nia. }
  split; [intros Hdoc; apply serves_documents_all_saved; exact Hdoc|].
  split; [exact Hlk|]. split; [exact Hbound|].
  pose proof (sum_list_bounds _ Hbound) as Hb.
  rewrite Hev. change (gets (?m :: ?X)) with (gets X).
  split.
  { rewrite Hg, <- Hflat.
    clear. revert kss. induction bs as [|b bs IH]; intros [|ks kss];
      try reflexivity.
    simpl. rewrite IH. reflexivity. }
  split; [exact Hc|]. lia.
Qed.

Lemma process_all_batches_request_budget_witness :
  exists dfs w',
    process_all_batches batches_of_five third_and_ninth_fail twelve_urls
      empty_world = (Returns dfs, w') /\
    (12 <= calls w' - 0 <= 36)%nat.
Proof.
  destruct (process_all_batches_request_budget batches_of_five
              third_and_ninth_fail twelve_urls empty_world)
    as (w' & ks & Hrun & _ & _ & _ & _ & _ & _ & _ & Hb); [reflexivity|].
  eexists _, w'. split; [exact Hrun|exact Hb].
Defined.

(** ** The artifacts a run leaves *)

Lemma elem_of_fetched_of b visits :
  b ∈ fetched_of visits <-> (fst b, Some (snd b)) ∈ visits.
Proof.
  unfold fetched_of. rewrite list_elem_of_omap. split.
  - intros ([i [d|]] & Hin & E); [|discriminate E].
    injection E as <-. exact Hin.
  - intros Hin. exists (fst b, Some (snd b)). split; [exact Hin|].
    destruct b; reflexivity.
Qed.



(** ** What [resume_from_batch] does to the directory *)

(** X6.  [resume_from_batch] never changes a file that is in the output
    directory when it starts: it only writes artifacts that were
    missing.  (The full run, by contrast, replaces existing artifacts.) *)
Theorem resume_keeps_existing_files (cfg : Config) (session : Session)
    (df_urls : list string) (start_batch : Z) (w : World) (f : string)
    (df : DataFrame) :
  0 < BATCH_SIZE cfg ->
  files w !! f = Some df ->
  files (snd (resume_from_batch cfg session df_urls start_batch w)) !! f =
    Some df.
Proof.
  intros _ Hf.
  destruct (resume_from_batch_run cfg session df_urls start_batch w)
    as (w' & evs & kss & -> & _ & _ & Hfs & _).
  cbn [snd]. rewrite Hfs, write_tables_other; [exact Hf|].
  intros b Hin E.
  apply elem_of_fetched_of in Hin.
  apply resumed_on_disk in Hin; [|apply NoDup_py_range].
  cbn [fst snd] in Hin.
  assert (on_disk (files w) (fst b) = true) as Hon.
  { unfold on_disk. rewrite <- E, Hf. apply bool_decide_eq_true_2. eauto. }
  apply Hin in Hon. discriminate Hon.
Qed.

Lemma resume_keeps_existing_files_witness :
  files (snd (resume_from_batch batches_of_five always_answers twelve_urls 1
                first_batch_on_disk)) !! batch_file_name 1 =
    Some (mkDataFrame [sample_document]).
Proof.
  apply (resume_keeps_existing_files batches_of_five always_answers
           twelve_urls 1 first_batch_on_disk).
  - reflexivity.
  - vm_compute. reflexivity.
Defined.

(** X7.  Which batches [resume_from_batch] skips is decided by the
    directory it starts from: it visits the batches from [start_batch]
    on in order, skips exactly those whose artifact is there at the
    start and fetches the others, each with the results [fetch_batch]
    returns for its identifiers.  It visits all of them and returns when
    [save_batch] gets through every batch it fetches; otherwise the run
    ends at the first fetched batch on which [save_batch] raises
    [TypeError].  It requests the identifiers of the fetched batches,
    one to three times each, and no other; a fetched batch with a
    result other than [None], all of them JSON objects, has its artifact
    at the end, any other fetched batch still has none.  With
    [start_batch] beyond the last batch nothing is done. *)
Theorem resume_fetches_missing_batches (cfg : Config) (session : Session)
    (df_urls : list string) (start_batch : Z) (w : World) :
  0 < BATCH_SIZE cfg ->
  let num_batches := num_batches_of cfg (Z.of_nat (length df_urls)) in
  let urls_of := batch_urls_of cfg df_urls in
  let l := py_range (start_batch - 1) num_batches in
  let visits := resumed session urls_of (files w) l (calls w) in
  let bs := fetched_of visits in
  let requested := concat (map urls_of (map fst bs)) in
  exists w' ks,
    resume_from_batch cfg session df_urls start_batch w =
      ((if all_saved bs then Returns tt else Raises TypeError), w') /\
    map fst visits = take (length visits) l /\
    (all_saved bs = true -> map fst visits = l) /\
    (all_saved bs = false ->
     exists v data,
       last visits = Some v /\ snd v = Some data /\ savable data = false) /\
    (forall v, v ∈ visits ->
       (snd v = None <-> on_disk (files w) (fst v) = true)) /\
    skipped_batches (events_since w w') =
      omap (fun v => match snd v with
                     | None => Some (fst v + 1)
                     | Some _ => None
                     end) visits /\
    processed_batches (events_since w w') = map (fun b => fst b + 1) bs /\
    (forall i data, (i, data) ∈ bs ->
       length data = length (urls_of i) /\
       (exists c,
          (calls w <= c)%nat /\
          forall batch_number w0,
            calls w0 = c ->
            fst (fetch_batch session (urls_of i) batch_number w0) =
              Returns data) /\
       files w' !! batch_file_name (i + 1) = table_of data) /\
    length ks = length requested /\
    Forall (fun k => 1 <= k <= 3)%nat ks /\
    gets (events_since w w') = concat (zip_with requests_for requested ks) /\
    calls w' = (calls w + sum_list ks)%nat /\
    (num_batches < start_batch ->
     calls w' = calls w /\ files w' = files w /\
     events_since w w' = [ELog INFO (ResumingFrom start_batch num_batches)]).
Proof.
  intros _ num_batches urls_of l visits bs requested.
  destruct (resume_from_batch_run cfg session df_urls start_batch w)
    as (w' & evs & kss & Hrun & Hev & Hc & Hfs & H2 & Hg & Hop & Hs & Hp & _).
  fold num_batches urls_of in Hrun, Hev, Hc, Hfs, H2, Hg, Hop, Hs, Hp.
  fold l in Hrun, Hfs, H2, Hg, Hop, Hs, Hp.
  fold visits in Hrun, Hfs, H2, Hg, Hop, Hs, Hp.
  fold bs in Hrun, Hfs, H2, Hg, Hp.
  destruct (resumed_shape session urls_of l (files w) (calls w))
    as (Hfst & Hlen & _ & Hall & Hlast).
  fold visits in Hfst, Hlen, Hall, Hlast. fold bs in Hall, Hlast.
  assert (Forall2 (fun i ks => length ks = length (urls_of i) /\
                               Forall (fun k => 1 <= k <= 3)%nat ks)
            (map fst bs) kss) as Hk.
  { apply Forall2_fmap_l. eapply Forall2_impl; [exact H2|].
    intros b ks (_ & H3 & H4). split; assumption. }
  destruct (requests_of_batches urls_of _ _ Hk) as (Hflat & Hlk & Hbound).
  fold requested in Hflat, Hlk.
  assert (forall v, v ∈ visits ->
            (snd v = None <-> on_disk (files w) (fst v) = true)) as Hdisk.
  { intros v Hv.
    apply (resumed_on_disk session urls_of l (NoDup_py_range _ _) (files w)
             (calls w) v Hv). }
  assert (NoDup (map fst bs)) as Hnd.
  { assert (map fst bs = map fst (List.filter (fun v => bool_decide (is_Some (snd v))) visits)) as ->.
    { clear. subst bs. induction visits as [|[i [d|]] vs IH]; simpl;
        rewrite ?fetched_of_cons; simpl; congruence. }
    apply NoDup_fmap_2_strong.
    - intros v1 v2 H1 H2' E.
      apply list_elem_of_In, List.filter_In in H1 as [H1 _].
      apply list_elem_of_In, List.filter_In in H2' as [H2' _].
      apply list_elem_of_In in H1, H2'.
      apply list_elem_of_lookup in H1 as [j1 H1].
      apply list_elem_of_lookup in H2' as [j2 H2'].
      assert (forall j v, visits !! j = Some v -> l !! j = Some (fst v)) as Hl.
      { intros j v Hj.
        rewrite <- (lookup_take_lt _ (length visits))
          by (apply lookup_lt_Some in Hj; exact Hj).
        rewrite <- Hfst, list_lookup_fmap, Hj. reflexivity. }
      pose proof (Hl _ _ H1) as L1. pose proof (Hl _ _ H2') as L2.
      rewrite E in L1.
      assert (j1 = j2) as ->
        by (eapply NoDup_lookup; [apply (NoDup_py_range (start_batch - 1) num_batches)| |]; eassumption).
      congruence.
    - apply NoDup_ListNoDup, List.NoDup_filter, NoDup_ListNoDup.
      assert (NoDup (map fst visits)) as Hv
        by (rewrite Hfst; apply NoDup_take_l, NoDup_py_range).
      apply NoDup_fmap_1 in Hv. exact Hv. }
  exists w', (concat kss).
  split; [exact Hrun|]. split; [exact Hfst|].
  split; [intros Ha; rewrite Hfst, (Hall Ha), firstn_all; reflexivity|].
  split; [exact Hlast|]. split; [exact Hdisk|].
  rewrite Hev.
  split; [exact Hs|]. split; [exact Hp|].
  split.
  { intros i data Hin. split; [|split].
    - apply list_elem_of_lookup in Hin as [j Hj].
      destruct (Forall2_lookup_l _ _ _ _ _ H2 Hj) as (ks & _ & Hd & _).
      exact Hd.
    - apply elem_of_fetched_of in Hin. cbn [fst snd] in Hin.
      destruct (resumed_results session urls_of _ _ _ _ data Hin eq_refl)
        as (c & Hle & E).
      cbn [fst] in E. exists c. split; [exact Hle|].
      intros batch_number w0 Hw0. rewrite E.
      apply batch_results_returned. exact Hw0.
    - rewrite Hfs, (write_tables_lookup _ _ i data Hnd Hin).
      apply elem_of_fetched_of in Hin. cbn [fst snd] in Hin.
      pose proof (Hdisk _ Hin) as Hoff. cbn [fst snd] in Hoff.
      unfold on_disk in Hoff.
      destruct (files w !! batch_file_name (i + 1)) as [df|].
      + rewrite bool_decide_eq_true_2 in Hoff by eauto.
        destruct Hoff as [_ Hoff]. discriminate (Hoff eq_refl).
      + destruct (table_of data); reflexivity. }
  split; [exact Hlk|]. split; [exact Hbound|].
  change (gets (?m :: ?X)) with (gets X).
  split.
  { rewrite Hg, <- Hflat.
    clear. revert kss. induction bs as [|b bs IH]; intros [|ks kss];
      try reflexivity.
    simpl. rewrite IH. reflexivity. }
  split; [exact Hc|].
  intros Hbeyond.
  assert (l = []) as El by (subst l; apply py_range_empty; lia).
  assert (visits = []) as Ev by (subst visits; rewrite El; reflexivity).
  assert (bs = []) as Eb by (subst bs; rewrite Ev; reflexivity).
  rewrite Eb in *. inversion H2; subst kss. simpl in Hc.
  split; [lia|]. split; [exact Hfs|].
  f_equal. rewrite Ev in Hop. unfold opened in Hop.
  assert (evs = []) as ->; [|reflexivity].
  clear - Hrun Hev El.
  unfold resume_from_batch in Hrun. cbv zeta in Hrun.
  fold num_batches in Hrun. fold l in Hrun. rewrite El in Hrun.
  unfold bind, logger, emit, ret in Hrun. simpl in Hrun.
  apply (f_equal snd) in Hrun. cbn [snd] in Hrun. subst w'.
  unfold events_since in Hev. simpl in Hev.
  rewrite drop_app_length in Hev. injection Hev as <-. reflexivity.
Qed.

Lemma resume_fetches_missing_batches_witness :
  exists w',
    resume_from_batch batches_of_five always_answers twelve_urls 1
      first_batch_on_disk = (Returns tt, w') /\
    skipped_batches (events_since first_batch_on_disk w') = [1] /\
    processed_batches (events_since first_batch_on_disk w') = [2; 3].
Proof.
  destruct (resume_fetches_missing_batches batches_of_five always_answers
              twelve_urls 1 first_batch_on_disk)
    as (w' & ks & Hrun & _ & _ & _ & _ & Hs & Hp & _); [reflexivity|].
  exists w'. split; [exact Hrun|]. split; [exact Hs|exact Hp].
Defined.

(** ** The event loop never hangs *)

Lemma task_can_move retries P i t :
  tasks P !! i = Some t ->
  match task_st t with
  | Waiting (S _) _ => (1 <= permits P)%nat
  | Waiting O _ | InFlight _ _ | Sleeping _ _ => True
  | Finished _ | Crashed _ => False
  end ->
  exists P', pool_step retries P P'.
Proof.
  intros Hi Hst. destruct t as [url st seen]. simpl in Hst.
  destruct st as [[|n] a|n a|n a|v|e]; try contradiction.
  - eexists. eapply pool_step_task; [exact Hi|]. apply step_exhausted.
  - destruct (permits P) as [|p] eqn:Hp; [lia|].
    eexists. eapply pool_step_task; [exact Hi|]. rewrite Hp.
    apply step_acquire.
  - eexists. eapply pool_step_task; [exact Hi|].
    apply step_response with (o := GetRaises TimeoutError).
  - eexists. eapply pool_step_task; [exact Hi|]. apply step_wake.
Qed.

Lemma in_flight_task P :
  (1 <= in_flight P)%nat ->
  exists i t, tasks P !! i = Some t /\ is_in_flight t = true.
Proof.
  unfold in_flight. intros H.
  destruct (List.filter is_in_flight (tasks P)) as [|t l] eqn:E;
    [simpl in H; lia|].
  assert (In t (List.filter is_in_flight (tasks P))) as Hin
    by (rewrite E; left; reflexivity).
  apply List.filter_In in Hin as [Hin Hfl].
  apply list_elem_of_In, list_elem_of_lookup in Hin as [i Hi].
  exists i, t. split; assumption.
Qed.

(** X8.  A batch cannot deadlock: with a semaphore of at least one
    permit, in every state the event loop can reach either every task
    has returned, so that [asyncio.gather] returns, or some task can
    make a move. *)
Theorem event_loop_never_stuck (capacity : nat) (retries : Z)
    (urls : list string) (P : pool) :
  (1 <= capacity)%nat ->
  reachable capacity retries urls P ->
  is_Some (gather_results P) \/ exists P', pool_step retries P P'.
Proof.
  intros Hcap Hreach. apply reachable_inv in Hreach as [Hp _ _ _ _ _ Hcons].
  destruct (gather_results P) as [results|] eqn:Hres; [left; eauto|right].
  assert (~ is_Some (gather_results P)) as Hnot
    by (rewrite Hres; intros [? ?]; discriminate).
  unfold gather_results in Hnot. rewrite mapM_is_Some in Hnot.
  apply not_Forall_Exists in Hnot; [|intros t; apply _].
  apply Exists_exists in Hnot as (t & Hin & Hnone).
  apply list_elem_of_lookup in Hin as [i Hi].
  assert (task_consistent t) as Hc
    by (eapply Forall_forall in Hcons; [exact Hcons|];
        eapply list_elem_of_lookup_2; exact Hi).
  destruct (Nat.eq_dec (permits P) 0%nat) as [Hzero|Hpos].
  - destruct (in_flight_task P) as (j & u & Hj & Hfl); [lia|].
    apply task_can_move with j u; [exact Hj|].
    unfold is_in_flight in Hfl. destruct (task_st u); try discriminate.
    exact I.
  - apply task_can_move with i t; [exact Hi|].
    unfold task_consistent in Hc. unfold task_result in Hnone. simpl in Hnone.
    destruct (task_st t) as [[|n] a|n a|n a|v|e]; try exact I.
    + lia.
    + exfalso. apply Hnone. eauto.
    + contradiction.
Qed.

Lemma event_loop_never_stuck_witness :
  exists P,
    run_schedule 3 first_sleeps_schedule (init_pool 50 3 two_urls) = Some P /\
    (is_Some (gather_results P) \/ exists P', pool_step 3 P P').
Proof.
  eexists. split; [vm_compute; reflexivity|].
  apply (event_loop_never_stuck 50 3 two_urls).
  - lia.
  - apply run_schedule_rtc with first_sleeps_schedule. vm_compute. reflexivity.
Defined.

Lemma sum_list_measure_insert (l : list task) i t t' :
  l !! i = Some t ->
  (sum_list (map task_measure (<[i := t']> l)) + task_measure t =
   sum_list (map task_measure l) + task_measure t')%nat.
Proof.
  revert i. induction l as [|x l IH]; intros [|i] Hi; try discriminate.
  - injection Hi as ->. simpl. lia.
  - simpl in *. specialize (IH i Hi). lia.
Qed.

Lemma task_step_measure retries p t evs p' t' :
  task_step retries (p, t) evs (p', t') ->
  (task_measure t' < task_measure t)%nat.
Proof.
  inversion 1; subst; unfold task_measure; simpl; try lia.
  unfold after_fetch. destruct (fetch_result url o) as [v|e]; [|lia].
  destruct (is_not_none v); [lia|].
  destruct (attempt <? retries - 1); lia.
Qed.

Lemma pool_step_measure retries P P' :
  pool_step retries P P' -> (pool_measure P' < pool_measure P)%nat.
Proof.
  intros [P0 i t evs p' t' Hi Hstep]. unfold pool_measure. simpl.
  pose proof (sum_list_measure_insert _ _ _ t' Hi).
  apply task_step_measure in Hstep. lia.
Qed.

Lemma init_pool_measure capacity retries (urls : list string) :
  pool_measure (init_pool capacity retries urls) =
    (length urls * (3 * Z.to_nat retries + 1))%nat.
Proof.
  unfold pool_measure, init_pool. simpl.
  induction urls as [|url urls IH]; [reflexivity|].
  simpl in *. rewrite IH. unfold task_measure. simpl. lia.
Qed.

Lemma run_schedule_nsteps retries schedule P P' :
  run_schedule retries schedule P = Some P' ->
  nsteps (pool_step retries) (length schedule) P P'.
Proof.
  revert P. induction schedule as [|[i o] schedule IH]; intros P; simpl.
  - intros [= <-]. constructor.
  - destruct (pool_move retries P i o) as [P1|] eqn:Hm; [|discriminate].
    intros H. eapply nsteps_l; [eapply pool_move_step; exact Hm|].
    apply IH. exact H.
Qed.

(** X9.  A batch ends whatever the order in which the event loop
    resumes its tasks and whatever the network answers: a run of [k]
    moves from the start of [fetch_batch] has
    [k <= len(urls) * (3 * retries + 1)], since a task makes at most
    three moves per attempt (acquire and request, response, wake-up)
    and one to leave its loop. *)
Theorem event_loop_terminates (capacity : nat) (retries : Z)
    (urls : list string) (k : nat) (P : pool) :
  nsteps (pool_step retries) k (init_pool capacity retries urls) P ->
  (k + pool_measure P <= length urls * (3 * Z.to_nat retries + 1))%nat.
Proof.
  rewrite <- (init_pool_measure capacity retries urls).
  generalize (init_pool capacity retries urls) as P0.
  induction k as [|k IH]; intros P0 Hrun.
  - inversion Hrun; subst. lia.
  - inversion Hrun as [|? ? P1 ? Hstep Hrest]; subst.
    apply IH in Hrest. apply pool_step_measure in Hstep. lia.
Qed.

Lemma event_loop_terminates_witness :
  exists P,
    run_schedule 3 first_sleeps_schedule (init_pool 50 3 two_urls) = Some P /\
    (length first_sleeps_schedule + pool_measure P <= 2 * 10)%nat.
Proof.
  eexists. split; [vm_compute; reflexivity|].
  apply (event_loop_terminates 50 3 two_urls).
  apply run_schedule_nsteps. vm_compute. reflexivity.
Defined.

(** ** Resuming from the first batch and the full run *)

Lemma without_logs_app tr1 tr2 :
  without_logs (tr1 ++ tr2) = without_logs tr1 ++ without_logs tr2.
Proof. apply List.filter_app. Qed.

Lemma same_but_logs_refl w : same_but_logs w w.
Proof. repeat split. Qed.

Lemma same_but_logs_extend w1 w2 k fs evs1 evs2 :
  same_but_logs w1 w2 ->
  without_logs evs1 = without_logs evs2 ->
  same_but_logs (mkWorld (calls w1 + k) fs (trace w1 ++ evs1))
    (mkWorld (calls w2 + k) fs (trace w2 ++ evs2)).
Proof.
  intros (Hc & _ & Ht) He. repeat split; simpl.
  - congruence.
  - rewrite !without_logs_app. congruence.
Qed.

Lemma agree_ret {A B} (Q : A -> B -> Prop) a b :
  Q a b -> agree Q (ret a) (ret b).
Proof. intros HQ w1 w2 R. unfold ret. split; assumption. Qed.

Lemma agree_bind {A B A' B'} (Q : A -> B -> Prop) (Q' : A' -> B' -> Prop)
    (m1 : M A) (m2 : M B) (k1 : A -> M A') (k2 : B -> M B') :
  agree Q m1 m2 ->
  (forall a b, Q a b -> agree Q' (k1 a) (k2 b)) ->
  agree Q' (bind m1 k1) (bind m2 k2).
Proof.
  intros Hm Hk w1 w2 R. unfold bind. specialize (Hm w1 w2 R).
  destruct (m1 w1) as [[a|e1] w1'], (m2 w2) as [[b|e2] w2'];
    try contradiction.
  - destruct Hm as [HQ R']. apply Hk; assumption.
  - exact Hm.
Qed.

Lemma agree_log_l {A B} (Q : A -> B -> Prop) level msg (m1 : M A) (m2 : M B) :
  agree Q m1 m2 -> agree Q (run logger level msg; m1) m2.
Proof.
  intros Hm w1 w2 (Hc & Hf & Ht). unfold bind, logger, emit. apply Hm.
  repeat split; simpl; try assumption.
  rewrite without_logs_app, app_nil_r. exact Ht.
Qed.

Lemma agree_log_r {A B} (Q : A -> B -> Prop) level msg (m1 : M A) (m2 : M B) :
  agree Q m1 m2 -> agree Q m1 (run logger level msg; m2).
Proof.
  intros Hm w1 w2 (Hc & Hf & Ht). unfold bind, logger, emit. apply Hm.
  repeat split; simpl; try assumption.
  rewrite without_logs_app, app_nil_r. exact Ht.
Qed.

Lemma agree_sleep seconds :
  agree (fun _ _ => True) (sleep seconds) (sleep seconds).
Proof.
  intros w1 w2 (Hc & Hf & Ht). unfold sleep, emit. split; [exact I|].
  repeat split; simpl; try assumption.
  rewrite !without_logs_app. congruence.
Qed.

Lemma agree_retry_loop session url retries n :
  forall attempt,
    agree eq (retry_loop session url retries n attempt)
      (retry_loop session url retries n attempt).
Proof.
  induction n as [|n IH]; intros attempt w1 w2 R.
  - rewrite !retry_loop_O. split; [reflexivity|].
    destruct R as (Hc & Hf & Ht). repeat split; simpl; try assumption.
    rewrite !without_logs_app. congruence.
  - rewrite !retry_loop_S. cbv zeta.
    pose proof R as (Hc & Hf & Ht). rewrite <- Hc, <- Hf.
    destruct (fetch_result url (session url (calls w1))) as [v|e].
    + destruct (is_not_none v).
      * split; [reflexivity|]. repeat split; simpl; try congruence.
        rewrite !without_logs_app. congruence.
      * apply IH. repeat split; simpl; try congruence.
        rewrite !without_logs_app. congruence.
    + split; [reflexivity|]. repeat split; simpl; try congruence.
      rewrite !without_logs_app. congruence.
Qed.

Lemma agree_gather {A} (tasks : list (M A)) :
  Forall (fun t => agree eq t t) tasks ->
  agree eq (gather tasks) (gather tasks).
Proof.
  induction 1 as [|t tasks Ht _ IH]; simpl.
  - apply agree_ret. reflexivity.
  - eapply agree_bind; [exact Ht|]. intros r ? <-.
    eapply agree_bind; [exact IH|]. intros rs ? <-.
    apply agree_ret. reflexivity.
Qed.

Lemma agree_fetch_batch session (urls : list string) batch_number :
  agree eq (fetch_batch session urls batch_number)
    (fetch_batch session urls batch_number).
Proof.
  unfold fetch_batch. cbv zeta.
  apply agree_log_l, agree_log_r.
  eapply agree_bind.
  - apply agree_gather. apply Forall_forall. intros t Hin.
    apply list_elem_of_In, in_map_iff in Hin as (url & <- & _).
    apply agree_retry_loop.
  - intros results ? <-. apply agree_log_l, agree_log_r, agree_ret.
    reflexivity.
Qed.

Lemma agree_save_batch data batch_number :
  agree eq (save_batch data batch_number) (save_batch data batch_number).
Proof.
  intros w1 w2 (Hc & Hf & Ht). rewrite !save_batch_run. cbv zeta.
  destruct (py_not (List.filter is_not_none data)).
  - split; [reflexivity|]. repeat split; simpl; try congruence.
    rewrite !without_logs_app; simpl; congruence.
  - destruct (forallb is_dict (List.filter is_not_none data)).
    + split; [reflexivity|]. repeat split; simpl; try congruence.
      rewrite !without_logs_app; simpl; congruence.
    + split; [reflexivity|]. repeat split; assumption.
Qed.

Lemma agree_then_ret {A B C} (m1 : M A) (m2 : M B) (c : C) :
  agree (fun _ _ => True) m1 m2 ->
  agree (fun _ _ => True) (run m1; ret c) m2.
Proof.
  intros H w1 w2 R. unfold bind, ret. specialize (H w1 w2 R).
  destruct (m1 w1) as [[a|e1] w1'], (m2 w2) as [[b|e2] w2']; exact H.
Qed.

(** An iteration of [process_all_batches] and an iteration of
    [resume_from_batch] that finds no artifact differ in log lines
    only: both return, or both raise the same exception. *)
Lemma bodies_agree cfg session (df_urls : list string) num_batches i
    all_dataframes w1 w2 :
  same_but_logs w1 w2 ->
  files w2 !! batch_file_name (i + 1) = None ->
  match
    process_all_batches_body cfg session df_urls num_batches i
      all_dataframes w1,
    resume_from_batch_body cfg session df_urls num_batches i tt w2
  with
  | (Returns _, w1'), (Returns _, w2') => same_but_logs w1' w2'
  | (Raises e1, w1'), (Raises e2, w2') => e1 = e2 /\ same_but_logs w1' w2'
  | _, _ => False
  end.
Proof.
  intros R Hnone.
  assert (agree (fun (_ : list DataFrame) (_ : unit) => True)
            (process_all_batches_body cfg session df_urls num_batches i
               all_dataframes)
            (run logger INFO
                   (ProcessingBatch (i + 1) num_batches (start_idx_of cfg i)
                      (end_idx_of cfg (Z.of_nat (length df_urls)) i));
             do data <- fetch_batch session (batch_urls_of cfg df_urls i)
                          (i + 1);
             run save_batch data (i + 1);
             if i <? num_batches - 1 then sleep 5 else ret tt)) as Hag.
  { unfold process_all_batches_body. cbv zeta.
    apply agree_log_l, agree_log_r.
    eapply agree_bind; [apply agree_fetch_batch|]. intros data ? <-.
    eapply agree_bind; [apply agree_save_batch|]. intros df ? <-.
    apply agree_then_ret. destruct (i <? num_batches - 1).
    - apply agree_log_l, agree_sleep.
    - apply agree_ret. exact I. }
  specialize (Hag w1 w2 R).
  assert (resume_from_batch_body cfg session df_urls num_batches i tt w2 =
          (run logger INFO
                 (ProcessingBatch (i + 1) num_batches (start_idx_of cfg i)
                    (end_idx_of cfg (Z.of_nat (length df_urls)) i));
           do data <- fetch_batch session (batch_urls_of cfg df_urls i)
                        (i + 1);
           run save_batch data (i + 1);
           if i <? num_batches - 1 then sleep 5 else ret tt) w2) as ->.
  { unfold resume_from_batch_body. cbv zeta.
    unfold bind at 1. unfold file_exists.
    rewrite bool_decide_eq_false_2 by (rewrite Hnone; apply is_Some_None).
    reflexivity. }
  destruct (process_all_batches_body _ _ _ _ _ _ w1) as [[dfs|e1] w1'];
    destruct (bind _ _ w2) as [[[]|e2] w2']; try contradiction.
  - apply Hag.
  - exact Hag.
Qed.

Lemma loops_agree cfg session (df_urls : list string) num_batches l :
  NoDup l ->
  forall all_dataframes w1 w2,
    same_but_logs w1 w2 ->
    (forall i, i ∈ l -> files w2 !! batch_file_name (i + 1) = None) ->
    match
      for_each l (process_all_batches_body cfg session df_urls num_batches)
        all_dataframes w1,
      for_each l (resume_from_batch_body cfg session df_urls num_batches)
        tt w2
    with
    | (Returns _, w1'), (Returns _, w2') => same_but_logs w1' w2'
    | (Raises e1, w1'), (Raises e2, w2') => e1 = e2 /\ same_but_logs w1' w2'
    | _, _ => False
    end.
Proof.
  induction 1 as [|i l Hnotin Hnd IH]; intros acc w1 w2 R Hnone.
  - simpl. unfold ret. exact R.
  - assert (files w2 !! batch_file_name (i + 1) = None) as Hi
      by (apply Hnone; left).
    pose proof (bodies_agree cfg session df_urls num_batches i acc w1 w2 R Hi)
      as Hb.
    rewrite !for_each_cons.
    destruct (resume_from_batch_body_run cfg session df_urls num_batches i w2
                Hi) as (evs & ks & E2 & _).
    destruct (process_all_batches_body cfg session df_urls num_batches i
                acc w1) as [[dfs|e1] w1'] eqn:E1;
      destruct (resume_from_batch_body cfg session df_urls num_batches i tt
                  w2) as [[[]|e2] w2'] eqn:E2'; try contradiction.
    + apply IH; [exact Hb|]. intros j Hj.
      apply (f_equal snd) in E2. cbn [snd] in E2. subst w2'. cbn [files].
      rewrite write_table_lookup.
      destruct (decide _) as [E|_]; [|apply Hnone; right; exact Hj].
      apply batch_file_name_inj in E.
      assert (j = i) as -> by lia. contradiction.
    + exact Hb.
Qed.

(** X10.  On an output directory that holds no artifact of the run's
    batches, [resume_from_batch(1)] does what [process_all_batches]
    does: the two issue the same requests and sleep the same times in
    the same order, and leave the same files; one returns exactly when
    the other does, and otherwise both end with the same exception,
    the [TypeError] of [save_batch].  They differ in their log lines
    and in what they return. *)
Theorem resume_from_first_batch_is_full_run (cfg : Config)
    (session : Session) (df_urls : list string) (w : World) :
  0 < BATCH_SIZE cfg ->
  (forall i, 0 <= i < num_batches_of cfg (Z.of_nat (length df_urls)) ->
     files w !! batch_file_name (i + 1) = None) ->
  exists r1 w1 r2 w2,
    process_all_batches cfg session df_urls w = (r1, w1) /\
    resume_from_batch cfg session df_urls 1 w = (r2, w2) /\
    ((exists all_dataframes, r1 = Returns all_dataframes) <->
     r2 = Returns tt) /\
    (forall e, r1 = Raises e <-> r2 = Raises e) /\
    (forall e, r1 = Raises e -> e = TypeError) /\
    (serves_documents session -> r2 = Returns tt) /\
    calls w1 = calls w2 /\
    files w1 = files w2 /\
    without_logs (events_since w w1) = without_logs (events_since w w2).
Proof.
  intros _ Hnone.
  set (num_batches := num_batches_of cfg (Z.of_nat (length df_urls))) in *.
  set (wp := mkWorld (calls w) (files w)
               (trace w ++
                [ELog INFO (ProcessingUrls (Z.of_nat (length df_urls))
                              num_batches (BATCH_SIZE cfg))])).
  set (wr := mkWorld (calls w) (files w)
               (trace w ++ [ELog INFO (ResumingFrom 1 num_batches)])).
  assert (process_all_batches cfg session df_urls w =
          for_each (py_range 0 num_batches)
            (process_all_batches_body cfg session df_urls num_batches) [] wp)
    as Ep by reflexivity.
  assert (resume_from_batch cfg session df_urls 1 w =
          for_each (py_range 0 num_batches)
            (resume_from_batch_body cfg session df_urls num_batches) tt wr)
    as Er by reflexivity.
  assert (same_but_logs wp wr) as R.
  { repeat split. simpl. rewrite !without_logs_app. reflexivity. }
  pose proof (loops_agree cfg session df_urls num_batches
                (py_range 0 num_batches) (NoDup_py_range _ _) [] wp wr R)
    as Hl.
  destruct (process_all_batches_loop cfg session df_urls num_batches
              (py_range 0 num_batches) [] wp)
    as (w1 & evs1 & kss1 & E1 & Ht1 & _).
  destruct (resume_from_batch_loop cfg session df_urls num_batches
              (py_range 0 num_batches) wr)
    as (w2 & evs2 & kss2 & E2 & Ht2 & _).
  cbn [calls files wp wr] in E1, E2.
  set (bs := fetched session (batch_urls_of cfg df_urls)
               (py_range 0 num_batches) (calls w)) in *.
  set (visits := resumed session (batch_urls_of cfg df_urls) (files w)
                   (py_range 0 num_batches) (calls w)) in *.
  rewrite E1, E2 in Hl.
  assert (forall i, i ∈ py_range 0 num_batches ->
            files wr !! batch_file_name (i + 1) = None) as Hnone'.
  { intros i Hi. apply Hnone. apply elem_of_py_range in Hi. lia. }
  specialize (Hl Hnone').
  eexists _, w1, _, w2.
  rewrite Ep, Er. split; [exact E1|]. split; [exact E2|].
  assert (same_but_logs w1 w2 /\
          all_saved bs = all_saved (fetched_of visits)) as [(Hc & Hf & Htr) Ha].
  { destruct (all_saved bs), (all_saved (fetched_of visits));
      try contradiction; [|destruct Hl as [_ Hl]]; split;
      try reflexivity; exact Hl. }
  rewrite <- Ha.
  split.
  { destruct (all_saved bs); split.
    - reflexivity.
    - eauto.
    - intros [dfs [=]].
    - discriminate. }
  split.
  { intros e. destruct (all_saved bs); split; try discriminate;
      intros [= <-]; reflexivity. }
  split.
  { intros e. destruct (all_saved bs); intros [=]. congruence. }
  split.
  { intros Hdoc. subst bs.
    rewrite (serves_documents_all_saved session _ _ Hdoc). reflexivity. }
  split; [exact Hc|]. split; [exact Hf|].
  rewrite Ht1, Ht2 in Htr. cbn [trace wp wr] in Htr.
  unfold events_since. rewrite Ht1, Ht2. cbn [trace wp wr].
  rewrite <- !app_assoc, !drop_app_length.
  rewrite <- !app_assoc, !without_logs_app in Htr.
  apply app_inv_head in Htr. rewrite !without_logs_app. exact Htr.
Qed.

Lemma resume_from_first_batch_is_full_run_witness :
  files (snd (process_all_batches batches_of_five always_answers twelve_urls
                empty_world)) =
  files (snd (resume_from_batch batches_of_five always_answers twelve_urls 1
                empty_world)).
Proof.
  destruct (resume_from_first_batch_is_full_run batches_of_five
              always_answers twelve_urls empty_world)
    as (r1 & w1 & r2 & w2 & -> & -> & _ & _ & _ & _ & _ & Hf & _).
  - reflexivity.
  - intros i _. reflexivity.
  - exact Hf.
Defined.

(** ** The files [merge_all_batches] reads *)

Lemma ascii_compare_refl a : Ascii.compare a a = Eq.
Proof. unfold Ascii.compare. apply N.compare_refl. Qed.

Lemma ascii_compare_lt_trans a b c :
  Ascii.compare a b = Lt -> Ascii.compare b c = Lt -> Ascii.compare a c = Lt.
Proof.
  unfold Ascii.compare. rewrite !N.compare_lt_iff. lia.
Qed.

Lemma string_compare_lt_trans s1 :
  forall s2 s3,
    String.compare s1 s2 = Lt -> String.compare s2 s3 = Lt ->
    String.compare s1 s3 = Lt.
Proof.
  induction s1 as [|a s1 IH]; intros [|b s2] [|c s3]; simpl;
    try discriminate; try reflexivity.
  destruct (Ascii.compare a b) eqn:Hab; try discriminate;
    destruct (Ascii.compare b c) eqn:Hbc; try discriminate.
  - apply Ascii.compare_eq_iff in Hab, Hbc. subst.
    rewrite ascii_compare_refl. apply IH.
  - apply Ascii.compare_eq_iff in Hab. subst. rewrite Hbc. reflexivity.
  - apply Ascii.compare_eq_iff in Hbc. subst. rewrite Hab. reflexivity.
  - rewrite (ascii_compare_lt_trans _ _ _ Hab Hbc). reflexivity.
Qed.

#[local] Instance name_le_trans : Transitive name_le.
Proof.
  intros s1 s2 s3. unfold name_le, String.leb.
  destruct (String.compare s1 s2) eqn:H12; try discriminate;
    destruct (String.compare s2 s3) eqn:H23; try discriminate; intros _ _.
  - apply String.compare_eq_iff in H12. subst. rewrite H23. reflexivity.
  - apply String.compare_eq_iff in H12. subst. rewrite H23. reflexivity.
  - apply String.compare_eq_iff in H23. subst. rewrite H12. reflexivity.
  - rewrite (string_compare_lt_trans _ _ _ H12 H23). reflexivity.
Qed.

#[local] Instance name_le_total : Total name_le.
Proof. intros s1 s2. apply String.leb_total. Qed.

#[local] Instance name_le_antisymm : AntiSymm eq name_le.
Proof. intros s1 s2. apply String.leb_antisym. Qed.

(** Checking a property of the sequence numbers [0 .. n - 1] by
    counting up. *)
Lemma check_upto (check : Z -> bool) (n : N) :
  let r := N.iter n (fun s : Z * bool => (fst s + 1, snd s && check (fst s)))
             (0, true) in
  fst r = Z.of_N n /\
  (snd r = true -> forall k, 0 <= k < Z.of_N n -> check k = true).
Proof.
  induction n as [|n IH] using N.peano_ind.
  - split; [reflexivity|]. intros _ k Hk. lia.
  - rewrite N.iter_succ. cbv zeta in *. destruct IH as [Hfst Hsnd].
    destruct (N.iter n _ _) as [i ok]. simpl in *. subst i.
    split; [lia|]. intros Hok k Hk.
    apply andb_true_iff in Hok as [Hok Hn].
    destruct (decide (k = Z.of_N n)) as [->|Hne]; [exact Hn|].
    apply Hsnd; [exact Hok|lia].
Qed.

(** The names of two consecutive batches, for every sequence number
    that [04d] writes with four digits. *)
Lemma batch_file_name_succ n :
  0 <= n < 9999 ->
  String.compare (batch_file_name n) (batch_file_name (n + 1)) = Lt.
Proof.
  intros Hn.
  pose proof (check_upto
                (fun k =>
                   match String.compare (batch_file_name k)
                           (batch_file_name (k + 1)) with
                   | Lt => true
                   | _ => false
                   end) 9999) as [_ Hall].
  cbv zeta in Hall. specialize (Hall ltac:(vm_compute; reflexivity) n).
  cbv beta in Hall. destruct (String.compare _ _); try reflexivity;
    (discriminate Hall; lia).
Qed.

Lemma batch_file_name_increasing m n :
  0 <= m -> m < n -> n <= 9999 ->
  String.compare (batch_file_name m) (batch_file_name n) = Lt.
Proof.
  intros Hm Hlt Hn.
  replace n with (m + 1 + Z.of_nat (Z.to_nat (n - m - 1))) in * by lia.
  induction (Z.to_nat (n - m - 1)) as [|k IH].
  - rewrite Z.add_0_r. apply batch_file_name_succ. lia.
  - apply string_compare_lt_trans with (batch_file_name (m + 1 + Z.of_nat k)).
    + apply IH; lia.
    + replace (m + 1 + Z.of_nat (S k)) with (m + 1 + Z.of_nat k + 1) by lia.
      apply batch_file_name_succ. lia.
Qed.

Lemma ends_with_app suffix s : ends_with suffix (s +:+ suffix) = true.
Proof.
  induction s as [|c s IH].
  - change ("" +:+ suffix) with suffix.
    destruct suffix; simpl; rewrite ?Ascii.eqb_refl, ?String.eqb_refl;
      reflexivity.
  - change (String c s +:+ suffix) with (String c (s +:+ suffix)).
    simpl. rewrite IH. apply orb_true_r.
Qed.

(** Every artifact of [save_batch] matches the pattern of the merge. *)
Lemma matches_batch_file_name n : matches_batch_csv (batch_file_name n) = true.
Proof.
  unfold matches_batch_csv, batch_file_name.
  change ("batch_" +:+ format_04d n +:+ ".csv")
    with (String "b" (String "a" (String "t" (String "c" (String "h"
            (String "_" (format_04d n +:+ ".csv"))))))).
  cbn [string_drop]. rewrite ends_with_app, andb_true_r.
  destruct (format_04d n +:+ ".csv"); reflexivity.
Qed.

Lemma elem_of_glob (fs : gmap string DataFrame) name :
  name ∈ List.filter matches_batch_csv (map fst (map_to_list fs)) <->
  is_Some (fs !! name) /\ matches_batch_csv name = true.
Proof.
  rewrite list_elem_of_In, List.filter_In, <- list_elem_of_In.
  change (map fst (map_to_list fs)) with ((map_to_list fs).*1).
  rewrite list_elem_of_fmap. split.
  - intros [([k df] & -> & Hin) Hm]. split; [|exact Hm].
    apply elem_of_map_to_list in Hin. simpl. eauto.
  - intros [[df Hdf] Hm]. split; [|exact Hm].
    exists (name, df). split; [reflexivity|].
    apply elem_of_map_to_list. exact Hdf.
Qed.

Lemma NoDup_glob (fs : gmap string DataFrame) :
  NoDup (List.filter matches_batch_csv (map fst (map_to_list fs))).
Proof.
  apply NoDup_ListNoDup, List.NoDup_filter, NoDup_ListNoDup.
  apply (NoDup_fst_map_to_list fs).
Qed.

Lemma batch_files_of_elem (fs : gmap string DataFrame) name :
  name ∈ batch_files_of fs <->
  is_Some (fs !! name) /\ matches_batch_csv name = true.
Proof.
  unfold batch_files_of. rewrite merge_sort_Permutation. apply elem_of_glob.
Qed.

Lemma batch_files_of_strongly_sorted (fs : gmap string DataFrame) :
  StronglySorted name_le (batch_files_of fs).
Proof. apply StronglySorted_merge_sort; apply _. Qed.

(** In a list sorted by name, a name comes before every greater one. *)
Lemma sorted_before (l : list string) x y :
  StronglySorted name_le l ->
  x ∈ l -> y ∈ l -> String.compare x y = Lt ->
  exists l1 l2 l3, l = l1 ++ x :: l2 ++ y :: l3.
Proof.
  intros Hs Hx Hy Hlt.
  apply list_elem_of_split in Hy as (a & b & ->).
  apply StronglySorted_app_1_r in Hs as Hyb.
  apply StronglySorted_inv in Hyb as [_ Hall].
  apply elem_of_app in Hx as [Hx|Hx].
  - apply list_elem_of_split in Hx as (l1 & l2 & ->).
    exists l1, l2, b. rewrite <- app_assoc. reflexivity.
  - apply elem_of_cons in Hx as [->|Hx].
    + pose proof (String.compare_antisym y y) as Ha.
      rewrite Hlt in Ha. discriminate Ha.
    + exfalso. rewrite Forall_forall in Hall. specialize (Hall x Hx).
      unfold name_le, String.leb in Hall.
      rewrite String.compare_antisym, Hlt in Hall. discriminate.
Qed.

(** X11.  [merge_all_batches] reads the artifacts in the order of their
    names, and for sequence numbers of at most four digits this is the
    order of the numbers: of two artifacts in the directory, the one
    with the smaller number is read first, whatever else the directory
    holds.  With a fifth digit the two orders part:
    [batch_10000.csv] sorts before [batch_1001.csv]. *)
Theorem merge_reads_batches_in_order (fs : gmap string DataFrame) (m n : Z) :
  0 <= m -> m < n -> n <= 9999 ->
  is_Some (fs !! batch_file_name m) ->
  is_Some (fs !! batch_file_name n) ->
  (exists l1 l2 l3,
     batch_files_of fs =
       l1 ++ batch_file_name m :: l2 ++ batch_file_name n :: l3) /\
  String.ltb (batch_file_name 10000) (batch_file_name 1001) = true.
Proof.
  intros Hm Hlt Hn Him Hin. split; [|vm_compute; reflexivity].
  apply sorted_before.
  - apply batch_files_of_strongly_sorted.
  - apply batch_files_of_elem. split; [exact Him|].
    apply matches_batch_file_name.
  - apply batch_files_of_elem. split; [exact Hin|].
    apply matches_batch_file_name.
  - apply batch_file_name_increasing; assumption.
Qed.

Lemma merge_reads_batches_in_order_witness :
  exists l1 l2 l3,
    batch_files_of (files three_batches_on_disk) =
      l1 ++ batch_file_name 1 :: l2 ++ batch_file_name 3 :: l3.
Proof.
  apply (merge_reads_batches_in_order (files three_batches_on_disk) 1 3).
  - lia.
  - lia.
  - lia.
  - vm_compute. eexists. reflexivity.
  - vm_compute. eexists. reflexivity.
Defined.

(** ** The merge after a full run *)

#[local] Instance batch_file_name_Inj : Inj eq eq batch_file_name.
Proof. intros n m. apply batch_file_name_inj. Qed.

Lemma StronglySorted_lt_NoDup (ns : list Z) :
  StronglySorted Z.lt ns -> NoDup ns.
Proof.
  induction 1 as [|n ns _ IH Hall]; constructor; [|exact IH].
  intros Hin. rewrite Forall_forall in Hall. specialize (Hall n Hin). lia.
Qed.

Lemma sorted_batch_file_names (ns : list Z) :
  StronglySorted Z.lt ns ->
  Forall (fun n => 0 <= n <= 9999) ns ->
  StronglySorted name_le (map batch_file_name ns).
Proof.
  induction 1 as [|n ns _ IH Hall]; intros Hrange; simpl; constructor.
  - apply IH. apply Forall_inv_tail in Hrange. exact Hrange.
  - apply Forall_forall. intros name Hin.
    apply list_elem_of_In, in_map_iff in Hin as (k & <- & Hk).
    apply list_elem_of_In in Hk.
    rewrite Forall_forall in Hall, Hrange.
    pose proof (Hall k Hk). pose proof (Hrange n (list_elem_of_here _ _)).
    pose proof (Hrange k (list_elem_of_further _ _ _ Hk)).
    unfold name_le, String.leb.
    rewrite batch_file_name_increasing by lia. reflexivity.
Qed.

(** A directory whose files of the pattern are the artifacts of the
    sequence numbers [ns]. *)
Lemma batch_files_of_exact (fs : gmap string DataFrame) (ns : list Z) :
  StronglySorted Z.lt ns ->
  Forall (fun n => 0 <= n <= 9999) ns ->
  (forall name,
     is_Some (fs !! name) /\ matches_batch_csv name = true <->
     name ∈ map batch_file_name ns) ->
  batch_files_of fs = map batch_file_name ns.
Proof.
  intros Hs Hrange Hiff.
  apply (StronglySorted_unique name_le).
  - apply batch_files_of_strongly_sorted.
  - apply sorted_batch_file_names; assumption.
  - apply NoDup_Permutation.
    + unfold batch_files_of. rewrite merge_sort_Permutation. apply NoDup_glob.
    + apply (NoDup_fmap_2 batch_file_name), StronglySorted_lt_NoDup, Hs.
    + intros name. rewrite batch_files_of_elem. apply Hiff.
Qed.

Lemma elem_of_saved_batches (ps : list (Z * list json)) n :
  n ∈ saved_batches ps <->
  exists i d df, (i, d) ∈ ps /\ table_of d = Some df /\ n = i + 1.
Proof.
  unfold saved_batches. rewrite list_elem_of_omap. split.
  - intros ([i d] & Hin & Hn). simpl in Hn.
    destruct (table_of d) as [df|] eqn:Ht; [|discriminate].
    injection Hn as <-. exists i, d, df. auto.
  - intros (i & d & df & Hin & Ht & ->). exists (i, d). split; [exact Hin|].
    simpl. rewrite Ht. reflexivity.
Qed.

Lemma saved_batches_sorted (ps : list (Z * list json)) :
  StronglySorted Z.lt (map fst ps) -> StronglySorted Z.lt (saved_batches ps).
Proof.
  induction ps as [|[i d] ps IH]; intros Hs; [constructor|].
  simpl in Hs. apply StronglySorted_inv in Hs as [Hs Hall].
  unfold saved_batches. rewrite omap_cons_option_list. fold (saved_batches ps).
  simpl. destruct (table_of d); simpl; [|apply IH; exact Hs].
  constructor; [apply IH; exact Hs|].
  apply Forall_forall. intros n Hn.
  apply elem_of_saved_batches in Hn as (j & d' & df & Hin & _ & ->).
  rewrite Forall_forall in Hall.
  assert (i < j); [|lia]. apply Hall.
  apply list_elem_of_fmap. exists (j, d'). split; [reflexivity|exact Hin].
Qed.

(** The directory after the batches [ps] have been saved into one that
    held no file of the pattern: the merge finds the artifacts written,
    in batch order, and they hold the tables of the batches. *)
Lemma batch_files_after_writes (fs : gmap string DataFrame)
    (ps : list (Z * list json)) :
  (forall name, is_Some (fs !! name) -> matches_batch_csv name = false) ->
  StronglySorted Z.lt (map fst ps) ->
  Forall (fun i => 0 <= i + 1 <= 9999) (map fst ps) ->
  batch_files_of (write_tables fs ps) =
    map batch_file_name (saved_batches ps) /\
  Forall2 (fun batch_file df => write_tables fs ps !! batch_file = Some df)
    (batch_files_of (write_tables fs ps))
    (omap (fun b => table_of (snd b)) ps).
Proof.
  intros Hfresh Hs Hrange.
  assert (NoDup (map fst ps)) as Hnd by (apply StronglySorted_lt_NoDup, Hs).
  assert (forall i d, (i, d) ∈ ps ->
            write_tables fs ps !! batch_file_name (i + 1) = table_of d)
    as Hlook.
  { intros i d Hin. rewrite (write_tables_lookup ps fs i d Hnd Hin).
    destruct (table_of d) as [df|]; [reflexivity|].
    destruct (fs !! batch_file_name (i + 1)) as [df|] eqn:E; [|reflexivity].
    assert (true = false) as Habs; [|discriminate Habs].
    rewrite <- (matches_batch_file_name (i + 1)).
    apply Hfresh. rewrite E. eauto. }
  assert (batch_files_of (write_tables fs ps) =
          map batch_file_name (saved_batches ps)) as Hfiles.
  { apply batch_files_of_exact.
    - apply saved_batches_sorted, Hs.
    - apply Forall_forall. intros n Hn.
      apply elem_of_saved_batches in Hn as (i & d & df & Hin & _ & ->).
      rewrite Forall_forall in Hrange. apply Hrange.
      apply list_elem_of_fmap. exists (i, d). split; [reflexivity|exact Hin].
    - intros name. split.
      + intros [Hsome Hm].
        destruct (decide (name ∈ map (fun b => batch_file_name (fst b + 1)) ps))
          as [Hin|Hout].
        * apply list_elem_of_fmap in Hin as ([i d] & -> & Hin). simpl in *.
          rewrite (Hlook i d Hin) in Hsome. destruct Hsome as [df Hdf].
          apply list_elem_of_fmap. exists (i + 1). split; [reflexivity|].
          apply elem_of_saved_batches. exists i, d, df. auto.
        * rewrite write_tables_other in Hsome.
          -- rewrite (Hfresh name Hsome) in Hm. discriminate.
          -- intros b Hb ->. apply Hout.
             apply list_elem_of_fmap. exists b. split; [reflexivity|exact Hb].
      + intros Hin. apply list_elem_of_fmap in Hin as (n & -> & Hn).
        apply elem_of_saved_batches in Hn as (i & d & df & Hin & Ht & ->).
        split; [|apply matches_batch_file_name].
        rewrite (Hlook i d Hin), Ht. eauto. }
  split; [exact Hfiles|]. rewrite Hfiles.
  assert (forall qs,
            (forall b, b ∈ qs -> b ∈ ps) ->
            Forall2 (fun batch_file df =>
                       write_tables fs ps !! batch_file = Some df)
              (map batch_file_name (saved_batches qs))
              (omap (fun b => table_of (snd b)) qs)) as Hread.
  { induction qs as [|[i d] qs IH]; intros Hsub; [constructor|].
    unfold saved_batches.
    rewrite !omap_cons_option_list. fold (saved_batches qs). cbn [fst snd].
    rewrite map_app. apply Forall2_app.
    - pose proof (Hlook i d (Hsub _ (list_elem_of_here _ _))) as Hi.
      destruct (table_of d) as [df|]; simpl; repeat constructor. exact Hi.
    - apply IH. intros b Hb. apply Hsub. right. exact Hb. }
  apply Hread. auto.
Qed.

Lemma StronglySorted_py_range lo hi : StronglySorted Z.lt (py_range lo hi).
Proof.
  unfold py_range.
  apply (StronglySorted_fmap _ lt).
  - intros x y Hxy. lia.
  - generalize 0%nat.
    induction (Z.to_nat (hi - lo)) as [|n IH]; intros a; simpl; constructor.
    + apply IH.
    + apply Forall_forall. intros x Hx.
      apply list_elem_of_In, in_seq in Hx. lia.
Qed.

(** The loop of the merge over files that [read_csv] reads, followed by
    the rest of the files. *)
Lemma read_batches_app parse (fs : gmap string DataFrame) names1 :
  forall parsed,
    Forall2 (fun batch_file p => read_csv parse fs batch_file = Returns p)
      names1 parsed ->
    forall names2,
      read_batches parse fs (names1 ++ names2) =
        (zip names1 parsed ++ fst (read_batches parse fs names2),
         snd (read_batches parse fs names2)).
Proof.
  induction 1 as [|batch_file p names1 parsed Hp _ IH]; intros names2.
  - simpl. destruct (read_batches parse fs names2). reflexivity.
  - cbn [app read_batches]. rewrite Hp, IH. reflexivity.
Qed.

Lemma read_csv_of_tables parse (fs : gmap string DataFrame) names dfs :
  Forall2 (fun batch_file df => fs !! batch_file = Some df) names dfs ->
  forall parsed,
    Forall2 (fun df p => parse df = Returns p) dfs parsed ->
    Forall2 (fun batch_file p => read_csv parse fs batch_file = Returns p)
      names parsed.
Proof.
  induction 1 as [|batch_file df names dfs Hf _ IH]; intros parsed Hp.
  - inversion Hp. constructor.
  - inversion Hp as [|? p ? parsed' Hp1 Hp2]; subst. constructor.
    + unfold read_csv. rewrite Hf. exact Hp1.
    + apply IH. exact Hp2.
Qed.

(** X12.  The merge after a run.  When the output directory holds no
    file of the pattern [batch_*.csv] before [process_all_batches]
    starts, and the run has at most 9999 batches, the files
    [merge_all_batches] finds afterwards are the artifacts of the
    batches the run saved, in batch order, and they hold exactly the
    tables the run made (the list a returning run returns).  What the
    merge returns depends on what [pd.read_csv] makes of these tables:
    when it reads all of them, the merge returns and writes the
    concatenation of the tables read, without duplicates; when it
    raises on one of them, the merge raises that exception and writes
    nothing; when the run saved no batch, the merge returns [None] and
    writes nothing. *)
Theorem merge_after_full_run (cfg : Config) (session : Session)
    (df_urls : list string) (same_row : json -> json -> bool)
    (parse : DataFrame -> raised DataFrame) (w : World) :
  0 < BATCH_SIZE cfg ->
  num_batches_of cfg (Z.of_nat (length df_urls)) <= 9999 ->
  (forall name, is_Some (files w !! name) -> matches_batch_csv name = false) ->
  let num_batches := num_batches_of cfg (Z.of_nat (length df_urls)) in
  let bs :=
    fetched session (batch_urls_of cfg df_urls) (py_range 0 num_batches)
      (calls w) in
  let dfs := omap (fun b => table_of (snd b)) bs in
  exists w',
    process_all_batches cfg session df_urls w =
      ((if all_saved bs then Returns dfs else Raises TypeError), w') /\
    let merged := merge_all_batches same_row parse (files w') in
    batch_files_of (files w') = map batch_file_name (saved_batches bs) /\
    Forall2 (fun batch_file df => files w' !! batch_file = Some df)
      (batch_files_of (files w')) dfs /\
    (dfs = [] ->
     merge_returns merged = Returns None /\ merge_written merged = None) /\
    (forall parsed,
       dfs <> [] ->
       Forall2 (fun df p => parse df = Returns p) dfs parsed ->
       let df_final_clean := drop_duplicates same_row (pd_concat parsed) in
       merge_returns merged = Returns (Some df_final_clean) /\
       merge_written merged =
         Some ("all_works_of_art_le_louvre_uncleaned.csv", df_final_clean)) /\
    (forall before parsed df e rest,
       dfs = before ++ df :: rest ->
       Forall2 (fun df p => parse df = Returns p) before parsed ->
       parse df = Raises e ->
       merge_returns merged = Raises e /\ merge_written merged = None).
Proof.
  intros _ Hmax Hfresh num_batches bs dfs.
  destruct (process_all_batches_run cfg session df_urls w)
    as (w' & evs & kss & Hrun & _ & _ & Hf & _).
  fold num_batches in Hrun, Hf. fold bs in Hrun, Hf. fold dfs in Hrun.
  destruct (fetched_shape session (batch_urls_of cfg df_urls)
              (py_range 0 num_batches) (calls w)) as (Hfst & Hlen & _).
  fold bs in Hfst, Hlen.
  rewrite take_py_range in Hfst by exact Hlen.
  rewrite py_range_length in Hlen.
  destruct (batch_files_after_writes (files w) bs Hfresh)
    as [Hfiles Hread].
  { rewrite Hfst. apply StronglySorted_py_range. }
  { rewrite Hfst. apply Forall_forall. intros i Hi.
    apply elem_of_py_range in Hi. fold num_batches in Hmax. lia. }
  rewrite <- Hf in Hfiles, Hread. fold dfs in Hread.
  exists w'. split; [exact Hrun|]. cbv zeta.
  split; [exact Hfiles|]. split; [exact Hread|].
  unfold merge_all_batches. cbv zeta.
  split; [|split].
  - intros E. rewrite E in Hread. inversion Hread as [E'|]; subst.
    split; reflexivity.
  - intros parsed Hne Hp.
    pose proof (read_csv_of_tables parse _ _ _ Hread parsed Hp) as Hall.
    pose proof (read_batches_app parse _ _ _ Hall []) as Hrb.
    rewrite !app_nil_r in Hrb. simpl in Hrb.
    destruct (batch_files_of (files w')) as [|name names] eqn:En.
    { inversion Hread as [E'|]; subst. congruence. }
    cbn [py_not]. rewrite Hrb. cbn [fst snd].
    rewrite snd_zip by (apply Forall2_length in Hall; lia).
    split; reflexivity.
  - intros before parsed df e rest E Hp He.
    rewrite E in Hread.
    apply Forall2_app_inv_r in Hread
      as (names1 & names2 & H1 & H2 & En).
    inversion H2 as [|batch_file ? names3 ? Hdf H3]; subst.
    pose proof (read_csv_of_tables parse _ _ _ H1 parsed Hp) as Hall.
    pose proof (read_batches_app parse _ _ _ Hall (batch_file :: names3))
      as Hrb.
    assert (read_batches parse (files w') (batch_file :: names3) =
            ([], Some e)) as Hstop.
    { cbn [read_batches]. unfold read_csv. rewrite Hdf, He. reflexivity. }
    rewrite Hstop in Hrb. cbn [fst snd] in Hrb.
    rewrite En, Hrb. cbn [snd].
    destruct (names1 ++ batch_file :: names3) eqn:El;
      [destruct names1; discriminate El|].
    split; reflexivity.
Qed.

Lemma merge_after_full_run_witness :
  exists w',
    process_all_batches batches_of_five always_answers twelve_urls
      empty_world =
      (Returns
         (omap (fun b => table_of (snd b))
            (fetched always_answers (batch_urls_of batches_of_five twelve_urls)
               (py_range 0 3) 0)), w') /\
    batch_files_of (files w') =
      [batch_file_name 1; batch_file_name 2; batch_file_name 3].
Proof.
  destruct (merge_after_full_run batches_of_five always_answers twelve_urls
              (fun _ _ => false) Returns empty_world)
    as (w' & Hrun & Hfiles & _).
  - reflexivity.
  - vm_compute. discriminate.
  - intros name [df Hdf]. discriminate Hdf.
  - exists w'. split; [exact Hrun|exact Hfiles].
Defined.

(** ** A run in which every request fails *)

Lemma retry_loop_all_fail session url retries n :
  (forall k, answers_none url (session url k)) ->
  forall attempt w,
    exists w',
      retry_loop session url retries n attempt w = (Returns PyNone, w') /\
      files w' = files w.
Proof.
  intros Hfail. induction n as [|n IH]; intros attempt w.
  - rewrite retry_loop_O. eexists. split; reflexivity.
  - rewrite retry_loop_S. cbv zeta. rewrite (Hfail (calls w)).
    change (is_not_none PyNone) with false. cbv iota.
    destruct (IH (attempt + 1)
                (mkWorld (S (calls w)) (files w)
                   (trace w ++ fetch_events url (session url (calls w)) ++
                    after_fetch_events retries url attempt (Returns PyNone))))
      as (w' & -> & Hf).
    exists w'. split; [reflexivity|exact Hf].
Qed.

Lemma gather_all_fail session retries (urls : list string) :
  (forall url k, answers_none url (session url k)) ->
  forall w,
    exists w',
      gather (map (fun url => fetch_with_retry session (full_url url) retries)
                urls) w =
        (Returns (replicate (length urls) PyNone), w') /\
      files w' = files w.
Proof.
  intros Hfail. induction urls as [|url urls IH]; intros w.
  - exists w. split; reflexivity.
  - simpl. unfold bind at 1. unfold fetch_with_retry at 1.
    destruct (retry_loop_all_fail session (full_url url) retries
                (Z.to_nat retries) (Hfail (full_url url)) 0 w)
      as (w1 & -> & Hf1).
    unfold bind at 1. destruct (IH w1) as (w2 & -> & Hf2).
    exists w2. split; [reflexivity|congruence].
Qed.

Lemma filter_not_none_replicate n :
  List.filter is_not_none (replicate n PyNone) = [].
Proof. induction n as [|n IH]; [reflexivity|exact IH]. Qed.

Lemma process_all_batches_body_all_fail cfg session (df_urls : list string)
    num_batches i all_dataframes w :
  (forall url k, answers_none url (session url k)) ->
  exists w',
    process_all_batches_body cfg session df_urls num_batches i
        all_dataframes w = (Returns all_dataframes, w') /\
    files w' = files w.
Proof.
  intros Hfail. unfold process_all_batches_body. cbv zeta.
  unfold bind at 1. unfold logger at 1, emit at 1.
  unfold bind at 1. unfold fetch_batch. cbv zeta.
  unfold bind at 1. unfold logger at 1, emit at 1.
  unfold bind at 1.
  match goal with
  | |- context [gather _ ?w1] =>
      destruct (gather_all_fail session 3 (batch_urls_of cfg df_urls i)
                  Hfail w1) as (w2 & -> & Hf2)
  end.
  unfold bind at 1. unfold logger at 1, emit at 1. unfold ret at 1.
  unfold bind at 1. rewrite save_batch_run. cbv zeta.
  rewrite filter_not_none_replicate. cbn [py_not].
  destruct (i <? num_batches - 1); unfold_m; simpl;
    (eexists; split; [reflexivity|exact Hf2]).
Qed.

Lemma process_all_batches_loop_all_fail cfg session (df_urls : list string)
    num_batches l :
  (forall url k, answers_none url (session url k)) ->
  forall all_dataframes w,
    exists w',
      for_each l (process_all_batches_body cfg session df_urls num_batches)
          all_dataframes w = (Returns all_dataframes, w') /\
      files w' = files w.
Proof.
  intros Hfail. induction l as [|i l IH]; intros acc w.
  - exists w. split; reflexivity.
  - destruct (process_all_batches_body_all_fail cfg session df_urls
                num_batches i acc w Hfail) as (w1 & E1 & Hf1).
    rewrite for_each_cons, E1.
    destruct (IH acc w1) as (w2 & -> & Hf2).
    exists w2. split; [reflexivity|congruence].
Qed.

Lemma batch_files_of_fresh (fs : gmap string DataFrame) :
  (forall name, is_Some (fs !! name) -> matches_batch_csv name = false) ->
  batch_files_of fs = [].
Proof.
  intros Hfresh. destruct (batch_files_of fs) as [|name l] eqn:E;
    [reflexivity|].
  assert (name ∈ batch_files_of fs) as Hin by (rewrite E; left).
  apply batch_files_of_elem in Hin as [Hsome Hm].
  rewrite (Hfresh name Hsome) in Hm. discriminate.
Qed.

(** X13.  A run in which no request gets a document.  When [fetch]
    returns [None] for every answer of the network and the output
    directory holds no file of the pattern [batch_*.csv] at the start,
    no artifact is written, [merge_all_batches] finds no batch file,
    returns [None] and writes nothing; the main block then logs
    "SCRAPING COMPLETED SUCCESSFULLY!" and ends in its handler, on the
    [AttributeError] of [df_final.shape]. *)
Theorem main_block_when_every_request_fails (cfg : Config)
    (same_row : json -> json -> bool) (parse : DataFrame -> raised DataFrame)
    (session : Session) (df_urls : list string) (w : World) :
  0 < BATCH_SIZE cfg ->
  (forall url k, answers_none url (session url k)) ->
  (forall name, is_Some (files w !! name) -> matches_batch_csv name = false) ->
  exists w' lines,
    process_all_batches cfg session df_urls w = (Returns [], w') /\
    files w' = files w /\
    merge_returns (merge_all_batches same_row parse (files w')) =
      Returns None /\
    main_lines (main cfg same_row parse session df_urls w) =
      OfMain INFO StartingFullScraping ::
      map OfRun (events_since w w') ++
      lines ++
      [OfMerge ERROR NoBatchFiles;
       OfMain INFO MainRule;
       OfMain INFO ScrapingCompleted;
       OfMain ERROR (FatalError FatalAttributeError)] /\
    main_files (main cfg same_row parse session df_urls w) = files w /\
    main_written (main cfg same_row parse session df_urls w) = None.
Proof.
  intros _ Hfail Hfresh.
  assert (exists w',
            process_all_batches cfg session df_urls w = (Returns [], w') /\
            files w' = files w) as (w' & Hrun & Hf).
  { unfold process_all_batches. cbv zeta.
    unfold bind at 1. unfold logger, emit.
    match goal with
    | |- context [for_each ?l _ ?acc ?w1] =>
        destruct (process_all_batches_loop_all_fail cfg session df_urls
                    (num_batches_of cfg (Z.of_nat (length df_urls))) l
                    Hfail acc w1) as (w' & -> & Hf)
    end.
    exists w'. split; [reflexivity|exact Hf]. }
  assert (merge_all_batches same_row parse (files w') =
          mkMergeRun
            [(INFO, MergeRule); (INFO, MergingAllBatches); (INFO, MergeRule);
             (ERROR, NoBatchFiles)] None (Returns None)) as Hmerge.
  { unfold merge_all_batches. cbv zeta.
    rewrite batch_files_of_fresh by (rewrite Hf; exact Hfresh).
    reflexivity. }
  exists w',
    [OfMerge INFO MergeRule; OfMerge INFO MergingAllBatches;
     OfMerge INFO MergeRule].
  split; [exact Hrun|]. split; [exact Hf|].
  split; [rewrite Hmerge; reflexivity|].
  unfold main. cbv zeta. rewrite Hrun, Hmerge. cbn [merge_returns merge_log
    merge_written main_lines main_files main_written map fst snd].
  split; [|split; [exact Hf|reflexivity]].
  cbn [app]. rewrite <- ?app_assoc. reflexivity.
Qed.

Lemma main_block_when_every_request_fails_witness :
  main_written (main batches_of_five (fun _ _ => false) Returns always_fails
                  twelve_urls empty_world) = None.
Proof.
  destruct (main_block_when_every_request_fails batches_of_five
              (fun _ _ => false) Returns always_fails twelve_urls empty_world)
    as (w' & lines & _ & _ & _ & _ & _ & Hw).
  - reflexivity.
  - intros url k. reflexivity.
  - intros name [df Hdf]. discriminate Hdf.
  - exact Hw.
Defined.

(** ** The requests of a task under every interleaving *)

Lemma task_step_budget retries p t evs p' t' :
  task_step retries (p, t) evs (p', t') ->
  task_budget retries t -> task_budget retries t'.
Proof.
  inversion 1; subst; unfold task_budget; simpl; try lia.
  unfold after_fetch. rewrite length_app. simpl.
  destruct (fetch_result url o) as [v|e]; [|intros; exact I].
  destruct (is_not_none v); [lia|].
  destruct (attempt <? retries - 1); simpl; lia.
Qed.

Lemma reachable_budget capacity retries urls P :
  reachable capacity retries urls P -> Forall (task_budget retries) (tasks P).
Proof.
  unfold reachable. intros H.
  apply (rtc_ind_r (R := pool_step retries)
           (fun P => Forall (task_budget retries) (tasks P))
           (init_pool capacity retries urls)); [| |exact H].
  - unfold init_pool. simpl. apply Forall_forall. intros t Hin.
    apply list_elem_of_In, in_map_iff in Hin as (url & <- & _).
    unfold task_budget. simpl. lia.
  - intros P1 P2 _ Hstep IH.
    destruct Hstep as [P0 i t evs p' t' Hi Hstep]. simpl.
    apply Forall_insert; [exact IH|].
    eapply task_step_budget; [exact Hstep|].
    eapply Forall_lookup_1; [exact IH|exact Hi].
Qed.

(** X14.  Under every interleaving of the tasks of a batch, and
    whatever the network answers, a task issues at most [retries]
    requests, all of them for the URL of its own identifier, and a task
    that has returned has issued at least one (for a budget of at least
    one attempt). *)
Theorem event_loop_request_budget (capacity : nat) (retries : Z)
    (urls : list string) (P : pool) :
  reachable capacity retries urls P ->
  forall i t,
    tasks P !! i = Some t ->
    (count_of i is_get (pool_trace P) <= Z.to_nat retries)%nat /\
    Forall (fun url => url = task_url t) (requests_of i (pool_trace P)) /\
    (exists url, urls !! i = Some url /\ task_url t = full_url url) /\
    (forall result, task_st t = Finished result -> 1 <= retries ->
       (1 <= count_of i is_get (pool_trace P))%nat).
Proof.
  intros Hreach i t Hi.
  pose proof (reachable_budget _ _ _ _ Hreach) as Hb.
  apply reachable_inv in Hreach as [_ _ _ Hurls Hreq Hcnt Hcons].
  pose proof (Forall_lookup_1 _ _ _ _ Hb Hi) as Ht.
  pose proof (Forall_lookup_1 _ _ _ _ Hcons Hi) as Hc.
  destruct (Hcnt i t Hi) as (_ & _ & Hget).
  unfold task_budget in Ht. unfold task_consistent in Hc.
  unfold holds_permit, is_in_flight in Hget.
  split; [|split; [|split]].
  - destruct (task_st t); lia.
  - apply Hreq. exact Hi.
  - assert (map task_url (tasks P) !! i = Some (task_url t)) as Hu
      by (change (map task_url (tasks P)) with (task_url <$> tasks P);
          rewrite list_lookup_fmap, Hi; reflexivity).
    rewrite Hurls in Hu.
    change (map full_url urls) with (full_url <$> urls) in Hu.
    rewrite list_lookup_fmap in Hu.
    destruct (urls !! i) as [url|]; [|discriminate].
    injection Hu as Hu. exists url. split; [reflexivity|congruence].
  - intros result Hst Hr. rewrite Hst in Ht, Hget. lia.
Qed.

Lemma event_loop_request_budget_witness :
  exists P,
    run_schedule 3 first_sleeps_schedule (init_pool 50 3 two_urls) = Some P /\
    forall i t,
      tasks P !! i = Some t ->
      (count_of i is_get (pool_trace P) <= 3)%nat.
Proof.
  eexists. split; [vm_compute; reflexivity|].
  intros i t Hi.
  refine (proj1 (event_loop_request_budget 50 3 two_urls _ _ i t Hi)).
  apply run_schedule_rtc with first_sleeps_schedule. vm_compute. reflexivity.
Defined.
